(** * Channel status provider and noisy-channel finder (larevt)

    A shallow embedding of
    - [larevt/CalibrationDBI/Providers/SIOVChannelStatusProvider.cxx]
      (the two-table channel status store and its update protocol), and
    - [CalibrationDBI/Services/SIOVChannelFilterService_service.cc]
      (the per-channel truncated mean / rms computation of
      [FindNoisyChannels]),
    followed by the properties of the specification settled on them. *)

From Stdlib Require Import ZArith QArith Qround Qabs Qpower Lia List Bool Sorted.
From stdpp Require Import base gmap sets list.
Import ListNotations.

Local Open Scope Z_scope.

(* ===================================================================== *)
(** * Part I: the data model of the status provider                      *)
(* ===================================================================== *)

(** [DBChannelID_t] and [raw::ChannelID_t] are 32-bit unsigned integers and
    [DBTimeStamp_t] a 64-bit one (typedefs of IOVDataConstants.h); values
    are carried as [Z], the only arithmetic on them being the
    [Nchannels() - 1] of [GetChannelsWithStatus], whose wrap is written
    out there. *)
Abbreviation DBChannelID_t := Z (only parsing).
Abbreviation DBTimeStamp_t := Z (only parsing).

Definition uint32_mod : Z := 2 ^ 32.

(** [rawToDBChannel] is the cast between the two channel id types. *)
Definition rawToDBChannel (ch : Z) : DBChannelID_t := ch.

(** The closed status enumeration. *)
Inductive chStatus :=
  | kDISCONNECTED | kDEAD | kLOWNOISE | kNOISY | kGOOD | kUNKNOWN.

#[global] Instance chStatus_eq_dec : EqDecision chStatus.
Proof. solve_decision. Defined.

(** Modelled from the spec: the integer codes of the enumerators (declared
    in ChannelStatus.h) follow the order in which the status enum is
    listed. *)
Definition chStatus_code (s : chStatus) : Z :=
  match s with
  | kDISCONNECTED => 0 | kDEAD => 1 | kLOWNOISE => 2
  | kNOISY => 3 | kGOOD => 4 | kUNKNOWN => 5
  end.

(** The [switch] of [Update]: one arm per known code, [kUNKNOWN] as the
    default arm. *)
Definition status_of_code (status : Z) : chStatus :=
  if status =? chStatus_code kDISCONNECTED then kDISCONNECTED
  else if status =? chStatus_code kDEAD then kDEAD
  else if status =? chStatus_code kLOWNOISE then kLOWNOISE
  else if status =? chStatus_code kNOISY then kNOISY
  else if status =? chStatus_code kGOOD then kGOOD
  else kUNKNOWN.

(** A status record: channel id and status. *)
Record ChannelStatus := mkChannelStatus {
  Channel : DBChannelID_t;
  Status : chStatus
}.

(** Modelled from the spec: the constructor of ChannelStatus.h that takes
    a channel id alone; until [SetStatus] is called the record carries the
    fallback status Unknown. *)
Definition ChannelStatus_new (ch : DBChannelID_t) : ChannelStatus :=
  mkChannelStatus ch kUNKNOWN.

Definition SetStatus (s : chStatus) (cs : ChannelStatus) : ChannelStatus :=
  mkChannelStatus (Channel cs) s.

Definition SetChannel (ch : DBChannelID_t) (cs : ChannelStatus) : ChannelStatus :=
  mkChannelStatus ch (Status cs).

(** The exception of the IOVData classes. *)
Inductive IOVDataError := ChannelNotFound (ch : DBChannelID_t).

(** Computations that either return or throw an [IOVDataError]. *)
Inductive exc (A : Type) :=
  | Return (a : A)
  | Throw (e : IOVDataError).
Arguments Return {A} a.
Arguments Throw {A} e.

#[global] Instance exc_ret : MRet exc := fun A a => Return a.

#[global] Instance exc_bind : MBind exc := fun A B k m =>
  match m with
  | Return a => k a
  | Throw e => Throw e
  end.

(** [try { m } catch (IOVDataError& e) { h }] *)
Definition try_catch {A : Type} (m : exc A) (h : IOVDataError -> exc A) : exc A :=
  match m with
  | Return a => Return a
  | Throw e => h e
  end.

(** Modelled from the spec: the Status Table ([Snapshot<ChannelStatus>] of
    Snapshot.h), a mapping channel -> record with add-or-replace semantics
    and an attached validity interval.  [GetRow] on a channel that has no
    record throws [IOVDataError]: this is the exception that
    [GetChannelStatus] catches around the overlay's [GetRow]. *)
Module Snapshot.

Record t := mk {
  iov : DBTimeStamp_t * DBTimeStamp_t;
  rows : gmap Z ChannelStatus
}.

Definition empty : t := mk (0, 0) ∅.

Definition Clear (s : t) : t := mk (iov s) ∅.

Definition SetIoV (b e : DBTimeStamp_t) (s : t) : t := mk (b, e) (rows s).

Definition AddOrReplaceRow (cs : ChannelStatus) (s : t) : t :=
  mk (iov s) (<[Channel cs := cs]> (rows s)).

Definition GetRow (s : t) (ch : DBChannelID_t) : exc ChannelStatus :=
  match rows s !! ch with
  | Some cs => Return cs
  | None => Throw (ChannelNotFound ch)
  end.

End Snapshot.

(** Modelled from the spec: the Backing Store ([DatabaseRetrievalAlg] and
    its [DBFolder], not among the sources).  It caches one row set with its
    validity interval; [remote] stands for the external database: the
    answer it would give to a fetch at a timestamp, [None] when the fetch
    fails; [fetches] counts the fetches made so far. *)
Record DBFolder := mkFolder {
  fBegin : DBTimeStamp_t;
  fEnd : DBTimeStamp_t;
  fChannels : list DBChannelID_t;
  fStatusOf : DBChannelID_t -> Z;
  remote : DBTimeStamp_t ->
           option (DBTimeStamp_t * DBTimeStamp_t * list DBChannelID_t * (DBChannelID_t -> Z));
  fetches : nat
}.

(** Modelled from the spec: [covers(timestamp)], begin <= t < end. *)
Definition covers (f : DBFolder) (ts : DBTimeStamp_t) : bool :=
  (fBegin f <=? ts) && (ts <? fEnd f).

(** Modelled from the spec: [UpdateFolder] answers "not updated" on a cache
    hit without fetching; otherwise it fetches, replaces the cached rows
    and interval on success, and keeps them and answers "not updated" when
    the fetch fails. *)
Definition UpdateFolder (ts : DBTimeStamp_t) (f : DBFolder) : bool * DBFolder :=
  if covers f ts then (false, f)
  else
    match remote f ts with
    | Some (b, e, chans, st) =>
        (true, mkFolder b e chans st (remote f) (S (fetches f)))
    | None =>
        (false, mkFolder (fBegin f) (fEnd f) (fChannels f) (fStatusOf f)
                         (remote f) (S (fetches f)))
    end.

(** The geometry service, as far as the provider uses it: the channel of
    every wire id in iteration order, and the channel count. *)
Record Geometry := mkGeometry {
  wire_channels : list DBChannelID_t;
  Nchannels : Z
}.

Inductive DataSource := Database | File | Default.

#[global] Instance DataSource_eq_dec : EqDecision DataSource.
Proof. solve_decision. Defined.

(** The provider: data source, persistent table [fData], overlay
    [fNewNoisy], the default record [fDefault] and the folder of the
    retrieval base class. *)
Record Provider := mkProvider {
  fDataSource : DataSource;
  fData : Snapshot.t;
  fNewNoisy : Snapshot.t;
  fDefault : ChannelStatus;
  fFolder : DBFolder
}.

(** Configuration read by the constructor, with the folder that the
    retrieval base class sets up. *)
Record Config := mkConfig {
  UseDB : bool;
  UseFile : bool;
  folder0 : DBFolder
}.

(** The constructor: the data source by priority database, file, default;
    for the default source every wire's channel gets a [kGOOD] row. *)
Definition construct (geo : Geometry) (pset : Config) : Provider :=
  let src := if UseDB pset then Database
             else if UseFile pset then File
             else Default in
  let data :=
    if decide (src = Default) then
      let cs := SetStatus kGOOD (ChannelStatus_new 0) in
      fold_left (fun d ch => Snapshot.AddOrReplaceRow (SetChannel ch cs) d)
                (wire_channels geo) Snapshot.empty
    else Snapshot.empty in
  mkProvider src data Snapshot.empty (ChannelStatus_new 0) (folder0 pset).

(** The rows loop of [Update]: one record per listed channel, its status
    decoded by the switch. *)
Definition load_rows (f : DBFolder) (d : Snapshot.t) : Snapshot.t :=
  fold_left
    (fun d ch =>
       Snapshot.AddOrReplaceRow (mkChannelStatus ch (status_of_code (fStatusOf f ch))) d)
    (fChannels f) d.

(** [Update]: the result is the returned flag and the provider afterwards. *)
Definition Update (ts : DBTimeStamp_t) (p : Provider) : bool * Provider :=
  let p1 := mkProvider (fDataSource p) (fData p) (Snapshot.Clear (fNewNoisy p))
                       (fDefault p) (fFolder p) in
  if negb (bool_decide (fDataSource p1 = Database)) then (false, p1)
  else
    let '(updated, folder) := UpdateFolder ts (fFolder p1) in
    let p2 := mkProvider (fDataSource p1) (fData p1) (fNewNoisy p1)
                         (fDefault p1) folder in
    if negb updated then (false, p2)
    else
      let d := Snapshot.SetIoV (fBegin folder) (fEnd folder)
                               (Snapshot.Clear (fData p2)) in
      (true, mkProvider (fDataSource p2) (load_rows folder d) (fNewNoisy p2)
                        (fDefault p2) folder).

(** [GetChannelStatus]: the overlay's row, and in the handler the
    persistent table's row (whose own exception is not caught). *)
Definition GetChannelStatus (p : Provider) (ch : Z) : exc ChannelStatus :=
  try_catch (Snapshot.GetRow (fNewNoisy p) (rawToDBChannel ch))
            (fun _ => Snapshot.GetRow (fData p) (rawToDBChannel ch)).

(** The channels visited by [for (ch = 0; ch != maxChannel; ++ch)]. *)
Definition channel_range (maxChannel : Z) : list DBChannelID_t :=
  map Z.of_nat (seq 0 (Z.to_nat maxChannel)).

(** The loop of the non-default branch of [GetChannelsWithStatus]. *)
Fixpoint collect_status (p : Provider) (status : chStatus)
    (todo : list DBChannelID_t) (chs : list DBChannelID_t) : exc (list DBChannelID_t) :=
  match todo with
  | [] => Return chs
  | ch :: todo' =>
      cs ← GetChannelStatus p ch;
      collect_status p status todo'
        (if bool_decide (Status cs = status) then chs ++ [ch] else chs)
  end.

Definition GetChannelsWithStatus (geo : Geometry) (p : Provider) (status : chStatus)
    : exc (gset Z) :=
  let maxChannel := (Nchannels geo - 1) mod uint32_mod in
  if bool_decide (fDataSource p = Default) then
    if bool_decide (Status (fDefault p) = status) then
      Return (list_to_set (channel_range maxChannel))
    else Return ∅
  else
    chs ← collect_status p status (channel_range maxChannel) [];
    Return (list_to_set chs).

Definition GoodChannels (geo : Geometry) (p : Provider) : exc (gset Z) :=
  GetChannelsWithStatus geo p kGOOD.

Definition BadChannels (geo : Geometry) (p : Provider) : exc (gset Z) :=
  dead ← GetChannelsWithStatus geo p kDEAD;
  ln ← GetChannelsWithStatus geo p kLOWNOISE;
  Return (dead ∪ ln).

Definition NoisyChannels (geo : Geometry) (p : Provider) : exc (gset Z) :=
  GetChannelsWithStatus geo p kNOISY.

(** Modelled from the spec: the status a channel has in the persistent
    table, [kUNKNOWN] when the table has no record for it. *)
Definition persistent_status (p : Provider) (ch : DBChannelID_t) : chStatus :=
  match Snapshot.rows (fData p) !! ch with
  | Some cs => Status cs
  | None => kUNKNOWN
  end.

(** Modelled from the spec: [IsPresent] (declared in the provider's header)
    is true iff the persistent-table status is not [kDISCONNECTED]. *)
Definition IsPresent (p : Provider) (ch : DBChannelID_t) : bool :=
  negb (bool_decide (persistent_status p ch = kDISCONNECTED)).

(** Modelled from the spec: [IsBad] (declared in the provider's header) is
    true iff the persistent-table status is [kDEAD] or [kLOWNOISE]. *)
Definition IsBad (p : Provider) (ch : DBChannelID_t) : bool :=
  bool_decide (persistent_status p ch = kDEAD)
  || bool_decide (persistent_status p ch = kLOWNOISE).

(** [AddNoisyChannel] *)
Definition AddNoisyChannel (ch : Z) (p : Provider) : Provider :=
  let dbch := rawToDBChannel ch in
  if negb (IsBad p dbch) && IsPresent p dbch then
    let cs := SetStatus kNOISY (ChannelStatus_new dbch) in
    mkProvider (fDataSource p) (fData p)
               (Snapshot.AddOrReplaceRow cs (fNewNoisy p))
               (fDefault p) (fFolder p)
  else p.

(* ===================================================================== *)
(** * Part II: the noisy-channel finder                                  *)
(* ===================================================================== *)

(** ** 16-bit integers

    [short] values are carried as [Z]; a conversion to [short] (of a key
    handed to the map, of an incremented counter or offset) wraps modulo
    2^16. *)
Definition to_short (z : Z) : Z := (z + 32768) mod 65536 - 32768.

(** ** [std::map<short,short>]

    The map is its entry list in ascending key order, which is the order
    in which a range-for visits it. *)
Module StdMap.

Definition t := list (Z * Z).

Fixpoint find (m : t) (k : Z) : option Z :=
  match m with
  | [] => None
  | (k', v) :: m' => if k =? k' then Some v else find m' k
  end.

Fixpoint insert (k v : Z) (m : t) : t :=
  match m with
  | [] => [(k, v)]
  | (k', v') :: m' =>
      if k <? k' then (k, v) :: m
      else if k =? k' then (k, v) :: m'
      else (k', v') :: insert k v m'
  end.

(** [m[k]]: the mapped value, a zero entry being inserted first when the
    key is absent; the result is the value read and the map afterwards. *)
Definition at_ (k : Z) (m : t) : Z * t :=
  match find m k with
  | Some v => (v, m)
  | None => (0, insert k 0 m)
  end.

(** [m[k]++] *)
Definition incr (k : Z) (m : t) : t :=
  let '(v, m1) := at_ k m in
  insert k (to_short (v + 1)) m1.

(** The value a read of [m[k]] yields. *)
Definition get (m : t) (k : Z) : Z := fst (at_ k m).

End StdMap.

(** ** Doubles

    A [double] is a rational or one of the special values.  The sign of a
    zero is not modelled (every divisor in the code is the conversion of
    an [int], whose zero is positive).  [dadd], [dsub], [dmul] and [ddiv]
    give the exact result of an operation; the operation of the code
    gives that result rounded to the nearest double, which is [rounded]
    of it (below).  The target count, whose value is converted to an
    integer, is modelled with every rounding.  The two running sums and
    the quotients taken of them are modelled without: what is proved of
    them below (a sum of integers that stays below 2^53, a quotient that
    is a small integer, a zero, a sign) is the same with the rounding. *)
Inductive double := Fin (q : Q) | PInf | NInf | NaN.

Definition of_int (z : Z) : double := Fin (inject_Z z).

Definition Qsgn (q : Q) : Z := Z.sgn (Qnum q).

Definition dsgn (x : double) : Z :=
  match x with
  | Fin q => Qsgn q
  | PInf => 1
  | NInf => -1
  | NaN => 0
  end.

(** The infinity of a sign; no sign (a zero factor) gives NaN. *)
Definition inf_of_sign (s : Z) : double :=
  match s with
  | Z0 => NaN
  | Zpos _ => PInf
  | Zneg _ => NInf
  end.

Definition dneg (x : double) : double :=
  match x with
  | Fin q => Fin (- q)
  | PInf => NInf
  | NInf => PInf
  | NaN => NaN
  end.

Definition dadd (x y : double) : double :=
  match x, y with
  | NaN, _ | _, NaN => NaN
  | Fin a, Fin b => Fin (a + b)
  | PInf, NInf | NInf, PInf => NaN
  | PInf, _ | _, PInf => PInf
  | NInf, _ | _, NInf => NInf
  end.

Definition dsub (x y : double) : double := dadd x (dneg y).

Definition dmul (x y : double) : double :=
  match x, y with
  | NaN, _ | _, NaN => NaN
  | Fin a, Fin b => Fin (a * b)
  | _, _ => inf_of_sign (dsgn x * dsgn y)
  end.

Definition ddiv (x y : double) : double :=
  match x, y with
  | NaN, _ | _, NaN => NaN
  | Fin a, Fin b =>
      if Qeq_bool b 0 then inf_of_sign (Qsgn a) else Fin (a / b)
  | Fin _, _ => Fin 0
  | _, Fin b => inf_of_sign (dsgn x * (if Qeq_bool b 0 then 1 else Qsgn b))
  | _, _ => NaN
  end.

(** [x < y]; false whenever an operand is NaN. *)
Definition dlt (x y : double) : bool :=
  match x, y with
  | NaN, _ | _, NaN => false
  | Fin a, Fin b => negb (Qle_bool b a)
  | NInf, NInf => false
  | NInf, _ => true
  | _, NInf => false
  | PInf, _ => false
  | _, PInf => true
  end.

(** [std::max(a, b)], that is [(a < b) ? b : a]. *)
Definition dmax (a b : double) : double :=
  if dlt a b then b else a.

(** Equality of doubles as numbers. *)
Definition deq (x y : double) : Prop :=
  match x, y with
  | Fin a, Fin b => a == b
  | PInf, PInf | NInf, NInf => True
  | _, _ => False
  end.

(** [std::sqrt(arg) >= cut], decided without taking the root: the root of
    a negative number or of NaN is NaN, which compares false. *)
Definition sqrt_ge (arg : double) (cut : Q) : bool :=
  match arg with
  | Fin q =>
      if Qle_bool 0 q then Qle_bool cut 0 || Qle_bool (cut * cut) q else false
  | PInf => true
  | NInf | NaN => false
  end.

(** *** Rounding

    Binary floating point, round to nearest, ties to even.  A format is
    given by its precision [prec] (53 for a double, 24 for a float), the
    exponent [emin] of its smallest positive number (2^-1074, 2^-149)
    and the power [emax] of two that it no longer holds (2^1024, 2^128). *)

(** The integer part of the binary logarithm of a positive rational. *)
Definition Qilog2 (a : Q) : Z :=
  let lg := Z.log2 (Qnum a) - Z.log2 (Zpos (Qden a)) in
  if Qle_bool (2 ^ lg) a then lg else lg - 1.

(** The nearest integer, the even one of two that are equally near. *)
Definition round_half_even (x : Q) : Z :=
  let n := Qfloor x in
  match (x - inject_Z n ?= 1 # 2)%Q with
  | Lt => n
  | Gt => n + 1
  | Eq => if Z.even n then n else n + 1
  end.

(** The nearest number of the format: a multiple of 2^e, where e is the
    exponent of the last of the [prec] bits of [x], and not below [emin];
    an infinity when that number is 2^emax or beyond. *)
Definition round_to (prec emin emax : Z) (x : Q) : double :=
  if Qeq_bool x 0 then Fin 0
  else
    let e := Z.max (Qilog2 (Qabs x) - (prec - 1)) emin in
    let r := (inject_Z (round_half_even (x / 2 ^ e)) * 2 ^ e)%Q in
    if Qle_bool (2 ^ emax) (Qabs r) then inf_of_sign (Qsgn x) else Fin r.

Definition round_double : Q -> double := round_to 53 (-1074) 1024.

Definition round_float : Q -> double := round_to 24 (-149) 128.

(** The result of an operation on doubles: the exact result, rounded. *)
Definition rounded (x : double) : double :=
  match x with
  | Fin q => round_double q
  | _ => x
  end.

(** The integer part of a rational, toward zero. *)
Definition Qtrunc (x : Q) : Z := Z.quot (Qnum x) (Zpos (Qden x)).

Definition INT_MIN : Z := -2147483648.

Definition INT_MAX : Z := 2147483647.

(** Conversion of a double to [int]: truncation toward zero.  When the
    integer part is no [int] (or the double is no number) the language
    leaves the conversion undefined; the value taken here is [INT_MIN],
    which is what the conversion instruction of x86-64 delivers. *)
Definition double_to_int (x : double) : Z :=
  match x with
  | Fin q =>
      let t := Qtrunc q in
      if (INT_MIN <=? t) && (t <=? INT_MAX) then t else INT_MIN
  | _ => INT_MIN
  end.

(** ** The per-channel computation *)

(** The histogram: [for (adcVal : rawadc) binAdcMap[adcVal]++]. *)
Definition histogram (rawadc : list Z) : StdMap.t :=
  fold_left (fun m adcVal => StdMap.incr adcVal m) rawadc [].

(** One step of the scan for the most populated bin. *)
Definition max_step (acc : Z * Z) (entry : Z * Z) : Z * Z :=
  if snd entry >? snd acc then (fst entry, snd entry) else acc.

(** The scan, from [binMax(-1)], [binMaxCnt(0)], over the entries in key
    order; the result is [(binMax, binMaxCnt)]. *)
Definition find_max (binAdcMap : StdMap.t) : Z * Z :=
  fold_left max_step binAdcMap (-1, 0).

(** [int minNumBins = (1. - fTruncMeanFraction) * dataSize - 1]

    [fTruncMeanFraction] is the fraction as the parameter set gives it;
    the member is a [float], so that the expression reads that number
    rounded to single precision.  The float is widened to double, the
    [unsigned int dataSize] is converted to double (exactly), each of the
    three operations rounds to double, and the initialisation of the
    [int] converts the result. *)
Definition minNumBins (fTruncMeanFraction : Q) (dataSize : Z) : Z :=
  double_to_int
    (rounded (dsub (rounded (dmul (rounded (dsub (Fin 1)
                                                 (round_float fTruncMeanFraction)))
                                  (of_int dataSize)))
                   (Fin 1))).

Arguments round_to : simpl never.
Arguments minNumBins : simpl never.

(** The variables of an expansion loop: the running count ([curBinCnt],
    [rmsBinCnt]), the running sum ([truncMean], [rmsVal]), the offset and
    the map.  [bins] is a ghost: the keys of the bins accumulated so far. *)
Record Window := mkWindow {
  binCnt : Z;
  sum : double;
  binOffset : Z;
  binAdcMap : StdMap.t;
  bins : list Z
}.

(** A [while] loop run on at most [fuel] iterations: [None] when the
    condition still holds after them, otherwise the number of iterations
    made and the final state. *)
Fixpoint while {St : Type} (cond : St -> bool) (body : St -> St)
    (fuel : nat) (s : St) : option (nat * St) :=
  if cond s then
    match fuel with
    | O => None
    | S fuel' =>
        match while cond body fuel' (body s) with
        | Some (n, s') => Some (S n, s')
        | None => None
        end
    end
  else Some (O, s).

(** One side of an iteration of the first loop, at bin index [idx]:
    [if (binAdcMap[idx]) { curBinCnt += binAdcMap[idx];
                           truncMean += double(binAdcMap[idx] * idx); }] *)
Definition mean_side (idx : Z) (w : Window) : Window :=
  let '(c0, m0) := StdMap.at_ (to_short idx) (binAdcMap w) in
  if negb (c0 =? 0) then
    let '(c1, m1) := StdMap.at_ (to_short idx) m0 in
    let '(c2, m2) := StdMap.at_ (to_short idx) m1 in
    mkWindow (binCnt w + c1) (dadd (sum w) (of_int (c2 * idx)))
             (binOffset w) m2 (bins w ++ [to_short idx])
  else mkWindow (binCnt w) (sum w) (binOffset w) m0 (bins w).

(** The body of the first loop. *)
Definition mean_body (binMax : Z) (w : Window) : Window :=
  let w1 := mean_side (binMax - binOffset w) w in
  let w2 := mean_side (binMax + binOffset w) w1 in
  mkWindow (binCnt w2) (sum w2) (to_short (binOffset w + 1))
           (binAdcMap w2) (bins w2).

(** One side of an iteration of the second loop:
    [if (binAdcMap[idx] > 0) { int binIdx = idx; int binCnt = binAdcMap[binIdx];
       double binVals = double(binIdx) - truncMean;
       rmsBinCnt += binCnt; rmsVal += double(binCnt) * binVals * binVals; }] *)
Definition rms_side (truncMean : double) (idx : Z) (w : Window) : Window :=
  let '(c0, m0) := StdMap.at_ (to_short idx) (binAdcMap w) in
  if c0 >? 0 then
    let binIdx := idx in
    let '(cnt, m1) := StdMap.at_ (to_short binIdx) m0 in
    let binVals := dsub (of_int binIdx) truncMean in
    mkWindow (binCnt w + cnt)
             (dadd (sum w) (dmul (dmul (of_int cnt) binVals) binVals))
             (binOffset w) m1 (bins w ++ [to_short idx])
  else mkWindow (binCnt w) (sum w) (binOffset w) m0 (bins w).

(** The body of the second loop. *)
Definition rms_body (binMax : Z) (truncMean : double) (w : Window) : Window :=
  let w1 := rms_side truncMean (binMax - binOffset w) w in
  let w2 := rms_side truncMean (binMax + binOffset w) w1 in
  mkWindow (binCnt w2) (sum w2) (to_short (binOffset w + 1))
           (binAdcMap w2) (bins w2).

(** The loop condition of both loops. *)
Definition below (target : Z) (w : Window) : bool := binCnt w <? target.

(** What the computation yields for one channel. *)
Record Analysis := mkAnalysis {
  a_binMax : Z;
  a_binMaxCnt : Z;
  a_minNumBins : Z;
  a_iterations1 : nat;
  a_window1 : Window;
  a_truncMean : double;
  a_iterations2 : nat;
  a_window2 : Window;
  a_rmsArg : double      (* the argument of std::sqrt *)
}.

(** The first loop, from [curBinCnt(binMaxCnt)], [truncMean(peakValue)],
    [binOffset(1)]. *)
Definition mean_loop (fuel : nat) (m : StdMap.t) (binMax binMaxCnt target : Z)
    : option (nat * Window) :=
  while (below target) (mean_body binMax) fuel
        (mkWindow binMaxCnt (of_int (binMaxCnt * binMax)) 1 m []).

(** The second loop, from [rmsBinCnt(binMaxCnt)] and
    [rmsVal = (binMax - truncMean) * (rmsBinCnt * (binMax - truncMean))]. *)
Definition rms_loop (fuel : nat) (m : StdMap.t) (binMax binMaxCnt target : Z)
    (truncMean : double) : option (nat * Window) :=
  let rmsVal := dsub (of_int binMax) truncMean in
  while (below target) (rms_body binMax truncMean) fuel
        (mkWindow binMaxCnt (dmul rmsVal (dmul (of_int binMaxCnt) rmsVal)) 1 m []).

(** Lines 122-209 for one digit: [dataSize] is the digit's [Samples()],
    [rawadc] the uncompressed vector. *)
Definition analyze (fuel : nat) (fTruncMeanFraction : Q) (dataSize : Z)
    (rawadc : list Z) : option Analysis :=
  let m := histogram rawadc in
  let '(binMax, binMaxCnt) := find_max m in
  let target := minNumBins fTruncMeanFraction dataSize in
  '(n1, w1) ← mean_loop fuel m binMax binMaxCnt target;
  let truncMean := ddiv (sum w1) (of_int (binCnt w1)) in
  '(n2, w2) ← rms_loop fuel (binAdcMap w1) binMax binMaxCnt target truncMean;
  Some (mkAnalysis binMax binMaxCnt target n1 w1 truncMean n2 w2
          (dmax (Fin 0) (ddiv (sum w2) (of_int (binCnt w2))))).

(** A raw digit: its channel, its own sample count [Samples()] and the
    samples that [raw::Uncompress] delivers for it. *)
Record RawDigit := mkRawDigit {
  rd_Channel : Z;
  rd_Samples : Z;
  rd_ADCs : list Z
}.

(** The service's configuration: whether noisy channels are looked for,
    the truncation fraction (the number configured, which the [float]
    member holds rounded to single precision) and, for a channel, the
    entry of [fRmsCut] at the channel's view. *)
Record FilterConfig := mkFilterConfig {
  fFindNoisyChannels : bool;
  fTruncMeanFraction : Q;
  rms_cut : Z -> Q
}.

(** [rawadc] for a digit: the vector is resized to the running
    [maxTimeSamples] and filled by [raw::Uncompress]. *)
Definition rawadc_of (maxTimeSamples : Z) (d : RawDigit) : list Z :=
  resize (Z.to_nat maxTimeSamples) 0 (rd_ADCs d).

(** The computation for a digit, [maxTimeSamples] being the value the
    variable has before the digit is looked at. *)
Definition analyze_digit (fuel : nat) (cfg : FilterConfig)
    (maxTimeSamples : Z) (d : RawDigit) : option Analysis :=
  let dataSize := rd_Samples d in
  let maxTimeSamples := Z.min maxTimeSamples dataSize in
  analyze fuel (fTruncMeanFraction cfg) dataSize (rawadc_of maxTimeSamples d).

(** One iteration of the loop over the digits; the state is
    [maxTimeSamples] and the provider. *)
Definition process_digit (fuel : nat) (cfg : FilterConfig)
    (st : Z * Provider) (d : RawDigit) : option (Z * Provider) :=
  let '(maxTimeSamples, p) := st in
  let channel := rd_Channel d in
  if IsBad p channel || negb (IsPresent p channel) then Some st
  else
    a ← analyze_digit fuel cfg maxTimeSamples d;
    Some (Z.min maxTimeSamples (rd_Samples d),
          if sqrt_ge (a_rmsArg a) (rms_cut cfg channel)
          then AddNoisyChannel channel p else p).

(** [FindNoisyChannels] on the digits of an event, [NumberTimeSamples]
    being the detector's sample count; [None] when a loop does not finish
    within [fuel] iterations. *)
Fixpoint digits_loop (fuel : nat) (cfg : FilterConfig) (st : Z * Provider)
    (digits : list RawDigit) : option (Z * Provider) :=
  match digits with
  | [] => Some st
  | d :: rest =>
      st' ← process_digit fuel cfg st d;
      digits_loop fuel cfg st' rest
  end.

Definition FindNoisyChannels (fuel : nat) (cfg : FilterConfig)
    (NumberTimeSamples : Z) (p : Provider) (digitVecHandle : option (list RawDigit))
    : option Provider :=
  match digitVecHandle with
  | None => Some p        (* no valid handle: return *)
  | Some digits => snd <$> digits_loop fuel cfg (NumberTimeSamples, p) digits
  end.

(** [PreProcessEvent]: the provider is updated at the event's time, then
    the noisy channels are looked for when the service is configured to. *)
Definition PreProcessEvent (fuel : nat) (cfg : FilterConfig)
    (NumberTimeSamples : Z) (ts : DBTimeStamp_t)
    (digitVecHandle : option (list RawDigit)) (p : Provider) : option Provider :=
  let p1 := snd (Update ts p) in
  if fFindNoisyChannels cfg
  then FindNoisyChannels fuel cfg NumberTimeSamples p1 digitVecHandle
  else Some p1.

(* ===================================================================== *)
(** * Part III: notions used to state the properties                     *)
(* ===================================================================== *)

(** The provider with its overlay emptied: what [Update] leaves when it
    performs no refresh and does not consult the folder. *)
Definition overlay_cleared (p : Provider) : Provider :=
  mkProvider (fDataSource p) (fData p) (Snapshot.Clear (fNewNoisy p))
             (fDefault p) (fFolder p).

(** The states a provider goes through: it is constructed, and then
    updated and told about noisy channels in any order. *)
Inductive reachable (geo : Geometry) (pset : Config) : Provider -> Prop :=
  | reach_construct : reachable geo pset (construct geo pset)
  | reach_Update ts p :
      reachable geo pset p -> reachable geo pset (snd (Update ts p))
  | reach_AddNoisyChannel ch p :
      reachable geo pset p -> reachable geo pset (AddNoisyChannel ch p).

(** A channel that [AddNoisyChannel] accepts: present and not bad in the
    persistent table. *)
Definition eligible (p : Provider) (ch : Z) : Prop :=
  persistent_status p ch <> kDISCONNECTED
  /\ persistent_status p ch <> kDEAD
  /\ persistent_status p ch <> kLOWNOISE.

(** The overlay holds noisy records only, each under its own channel and
    for an eligible channel. *)
Definition overlay_ok (p : Provider) : Prop :=
  forall ch cs,
    Snapshot.rows (fNewNoisy p) !! ch = Some cs ->
    cs = mkChannelStatus ch kNOISY /\ eligible p ch.

(** Whether the lookup of a channel returns a record of the given status. *)
Definition status_is (p : Provider) (status : chStatus) (ch : Z) : bool :=
  match GetChannelStatus p ch with
  | Return cs => bool_decide (Status cs = status)
  | Throw _ => false
  end.

(** The largest channel id as [GetChannelsWithStatus] computes it. *)
Definition maxChannel_of (geo : Geometry) : Z :=
  (Nchannels geo - 1) mod uint32_mod.

(** The keys of a [std::map] are strictly ascending. *)
Definition sorted_keys (m : StdMap.t) : Prop :=
  StronglySorted Z.lt (map fst m).

(** The number of occurrences of a sample value. *)
Definition occurrences (rawadc : list Z) (k : Z) : Z :=
  Z.of_nat (count_occ Z.eq_dec rawadc k).

(** The counts of a histogram are those of occurrences: none is
    negative. *)
Definition counts_nonneg (m : StdMap.t) : Prop :=
  forall k, 0 <= StdMap.get m k.

(** Two maps that read alike at every key. *)
Definition same_reads (m1 m2 : StdMap.t) : Prop :=
  forall k, StdMap.get m1 k = StdMap.get m2 k.

(** Digits and configurations of the examples: a truncation fraction of
    one half and a cut of 5 for every view. *)
Definition cfg_half : FilterConfig :=
  mkFilterConfig true (1 # 2) (fun _ => 5%Q).

Definition digit_ten_fives : RawDigit :=
  mkRawDigit 0 10 [5; 5; 5; 5; 5; 5; 5; 5; 5; 5].

Definition digit_one_five : RawDigit := mkRawDigit 0 1 [5].

Definition digit_empty : RawDigit := mkRawDigit 0 0 [].

Definition digit_ten : RawDigit :=
  mkRawDigit 1 10 [10; 10; 10; 10; 11; 11; 9; 9; 9; 12].

(** The configuration of the default truncation fraction, 0.1, which the
    float member holds as 13421773 / 2^27. *)
Definition cfg_tenth : FilterConfig :=
  mkFilterConfig true (1 # 10) (fun _ => 5%Q).

(** A digit of 65695 samples: 65535 of value 7, whose 16-bit count comes
    round to -1, 100 of value 8 and 60 of value 9; and a configuration of
    the truncation fraction 511/512, with which the target for that digit
    is 127. *)
Definition digit_wrapped : RawDigit :=
  mkRawDigit 0 65695 (repeat 7 (Z.to_nat 65535) ++ repeat 8 100 ++ repeat 9 60).

Definition cfg_wrapped : FilterConfig :=
  mkFilterConfig true (511 # 512) (fun _ => 5%Q).

(** Whether [GetChannelsWithStatus] selects a channel that its loop
    visits: by the default record for the default source, by the
    channel's lookup otherwise. *)
Definition has_status (p : Provider) (status : chStatus) (ch : Z) : bool :=
  if bool_decide (fDataSource p = Default)
  then bool_decide (Status (fDefault p) = status)
  else status_is p status ch.

(** The counts of the bins of a list of keys, added up. *)
Definition sum_counts (m : StdMap.t) (keys : list Z) : Z :=
  fold_right (fun k acc => StdMap.get m k + acc) 0 keys.

(** The sample values of the bins of a list of keys, each weighted by
    its count, added up. *)
Definition weighted_sum (m : StdMap.t) (keys : list Z) : Z :=
  fold_right (fun k acc => StdMap.get m k * k + acc) 0 keys.

(** The running sum is the finite number that the bins accumulated so
    far add up to. *)
Definition sum_accounts (m : StdMap.t) (start : Z) (w : Window) : Prop :=
  exists q, sum w = Fin q /\ (q == inject_Z (start + weighted_sum m (bins w)))%Q.

(** A double that is neither negative nor NaN. *)
Definition nonneg_double (x : double) : Prop :=
  match x with
  | Fin q => (0 <= q)%Q
  | PInf => True
  | NInf | NaN => False
  end.

(* ===================================================================== *)
(** * Part IV: concrete configurations used by the examples              *)
(* ===================================================================== *)

(** A detector of three channels. *)
Definition geo3 : Geometry := mkGeometry [0; 1; 2] 3.

(** A database that serves timestamps 100..199 with three good channels
    and fails elsewhere; nothing is cached yet. *)
Definition folder_db : DBFolder :=
  mkFolder 0 0 [] (fun _ => 0)
    (fun ts => if (100 <=? ts) && (ts <? 200)
               then Some (100, 200, [0; 1; 2], fun _ => chStatus_code kGOOD)
               else None)
    0.

Definition cfg_db : Config := mkConfig true false folder_db.
Definition cfg_file : Config := mkConfig false true folder_db.
Definition cfg_default : Config := mkConfig false false folder_db.

(** Providers for the three data sources, as constructed. *)
Definition p_db : Provider := construct geo3 cfg_db.
Definition p_file : Provider := construct geo3 cfg_file.
Definition p_default : Provider := construct geo3 cfg_default.

(** The database provider after a refresh at timestamp 150, and after
    channel 0 has then been recorded noisy. *)
Definition p_db_150 : Provider := snd (Update 150 p_db).
Definition p_db_noisy : Provider := AddNoisyChannel 0 p_db_150.

(* ===================================================================== *)
(** * Part V: properties of the status provider                          *)
(* ===================================================================== *)

(** ** Lookup *)

Lemma GetRow_lookup (s : Snapshot.t) (ch : Z) :
  Snapshot.GetRow s ch =
    match Snapshot.rows s !! ch with
    | Some cs => Return cs
    | None => Throw (ChannelNotFound ch)
    end.
Proof. reflexivity. Qed.

Lemma GetChannelStatus_overlay (p : Provider) (ch : Z) (cs : ChannelStatus) :
  Snapshot.rows (fNewNoisy p) !! ch = Some cs ->
  GetChannelStatus p ch = Return cs.
Proof.
  intros H. unfold GetChannelStatus, rawToDBChannel, Snapshot.GetRow.
  now rewrite H.
Qed.

Lemma GetChannelStatus_fallback (p : Provider) (ch : Z) :
  Snapshot.rows (fNewNoisy p) !! ch = None ->
  GetChannelStatus p ch = Snapshot.GetRow (fData p) ch.
Proof.
  intros H. unfold GetChannelStatus, rawToDBChannel, Snapshot.GetRow at 1.
  now rewrite H.
Qed.

(** C1 (as amended): lookup returns the overlay's record when the overlay
    has one for the channel, otherwise the persistent table's record when
    that table has one, and otherwise throws the table's [IOVDataError]
    (there is no [kUNKNOWN] fallback); and once a noisy record has been
    put in the overlay for a channel, lookup returns it whatever the
    persistent table holds. *)
Theorem GetChannelStatus_precedence (p : Provider) (ch : Z) :
  GetChannelStatus p ch =
    match Snapshot.rows (fNewNoisy p) !! ch with
    | Some cs => Return cs
    | None =>
        match Snapshot.rows (fData p) !! ch with
        | Some cs => Return cs
        | None => Throw (ChannelNotFound ch)
        end
    end
  /\ (forall data : Snapshot.t,
        GetChannelStatus
          (mkProvider (fDataSource p) data
             (Snapshot.AddOrReplaceRow (mkChannelStatus ch kNOISY) (fNewNoisy p))
             (fDefault p) (fFolder p)) ch
        = Return (mkChannelStatus ch kNOISY)).
Proof.
  split.
  - destruct (Snapshot.rows (fNewNoisy p) !! ch) as [cs|] eqn:Hov.
    + now apply GetChannelStatus_overlay.
    + rewrite GetChannelStatus_fallback by assumption.
      apply GetRow_lookup.
  - intros data. apply GetChannelStatus_overlay. simpl.
    apply lookup_insert_eq.
Qed.

(** C1, counterexample: channel 7 is in neither table of the refreshed
    database provider, and its lookup throws instead of returning a
    record of status [kUNKNOWN]. *)
Lemma GetChannelStatus_miss_throws :
  Snapshot.rows (fNewNoisy p_db_150) !! 7 = None
  /\ Snapshot.rows (fData p_db_150) !! 7 = None
  /\ GetChannelStatus p_db_150 7 = Throw (ChannelNotFound 7)
  /\ ~ (exists cs, GetChannelStatus p_db_150 7 = Return cs).
Proof.
  assert (H : GetChannelStatus p_db_150 7 = Throw (ChannelNotFound 7))
    by (vm_compute; reflexivity).
  repeat split; try (vm_compute; reflexivity); try exact H.
  intros [cs Hcs]. rewrite H in Hcs. discriminate.
Qed.

(** ** Update *)

Lemma Update_not_database (ts : Z) (p : Provider) :
  fDataSource p <> Database -> Update ts p = (false, overlay_cleared p).
Proof.
  intros H. unfold Update. cbn [fDataSource].
  rewrite bool_decide_eq_false_2 by assumption. reflexivity.
Qed.

Lemma Update_database (ts : Z) (p : Provider) :
  fDataSource p = Database ->
  Update ts p =
    let f := snd (UpdateFolder ts (fFolder p)) in
    if fst (UpdateFolder ts (fFolder p)) then
      (true, mkProvider (fDataSource p)
               (load_rows f (Snapshot.SetIoV (fBegin f) (fEnd f)
                               (Snapshot.Clear (fData p))))
               (Snapshot.Clear (fNewNoisy p)) (fDefault p) f)
    else
      (false, mkProvider (fDataSource p) (fData p)
                (Snapshot.Clear (fNewNoisy p)) (fDefault p) f).
Proof.
  intros H. unfold Update. cbn [fDataSource fFolder fData fNewNoisy fDefault].
  rewrite bool_decide_eq_true_2 by assumption. cbn [negb].
  destruct (UpdateFolder ts (fFolder p)) as [[|] f]; reflexivity.
Qed.

Lemma load_rows_iov (f : DBFolder) (d : Snapshot.t) :
  Snapshot.iov (load_rows f d) = Snapshot.iov d.
Proof.
  unfold load_rows. revert d.
  induction (fChannels f) as [|c cs IH]; intros d; [reflexivity|].
  cbn [fold_left]. now rewrite IH.
Qed.

Lemma load_rows_lookup (f : DBFolder) (d : Snapshot.t) (ch : Z) :
  Snapshot.rows (load_rows f d) !! ch =
    if bool_decide (ch ∈ fChannels f)
    then Some (mkChannelStatus ch (status_of_code (fStatusOf f ch)))
    else Snapshot.rows d !! ch.
Proof.
  unfold load_rows. revert d.
  induction (fChannels f) as [|c cs IH]; intros d.
  - cbn [fold_left]. rewrite bool_decide_eq_false_2; [reflexivity|].
    apply not_elem_of_nil.
  - cbn [fold_left]. rewrite IH.
    destruct (decide (ch ∈ cs)) as [Hin|Hnin].
    + rewrite !bool_decide_eq_true_2; [reflexivity| |assumption].
      now apply elem_of_cons; right.
    + rewrite (bool_decide_eq_false_2 (ch ∈ cs)) by assumption.
      cbn [Snapshot.AddOrReplaceRow Snapshot.rows Channel].
      destruct (decide (ch = c)) as [->|Hne].
      * rewrite lookup_insert_eq.
        rewrite bool_decide_eq_true_2; [reflexivity|]. apply elem_of_cons; now left.
      * rewrite lookup_insert_ne by congruence.
        rewrite bool_decide_eq_false_2; [reflexivity|].
        intros [?|?]%elem_of_cons; contradiction.
Qed.

(** C3 (as amended): in the file-backed mode, as in the default mode,
    [Update] returns "no refresh performed" without consulting the
    Backing Store, whatever the timestamp: the persistent table and the
    store (its cache and its fetch count) are as before; only in the
    database mode does [Update] ask the store: it returns the store's
    answer and, when the store reports new data, the persistent table is
    replaced by the store's rows and validity interval. *)
Theorem Update_consults_store_only_for_database (ts : Z) (p : Provider) :
  (fDataSource p = File \/ fDataSource p = Default ->
     fst (Update ts p) = false
     /\ fData (snd (Update ts p)) = fData p
     /\ fFolder (snd (Update ts p)) = fFolder p)
  /\ (fDataSource p = Database ->
      fst (Update ts p) = fst (UpdateFolder ts (fFolder p))
      /\ fFolder (snd (Update ts p)) = snd (UpdateFolder ts (fFolder p))
      /\ (fst (UpdateFolder ts (fFolder p)) = true ->
          let f := snd (UpdateFolder ts (fFolder p)) in
          Snapshot.iov (fData (snd (Update ts p))) = (fBegin f, fEnd f)
          /\ forall ch,
               Snapshot.rows (fData (snd (Update ts p))) !! ch =
                 if bool_decide (ch ∈ fChannels f)
                 then Some (mkChannelStatus ch (status_of_code (fStatusOf f ch)))
                 else None)).
Proof.
  split.
  - intros Hsrc. rewrite Update_not_database.
    + repeat split.
    + destruct Hsrc as [H|H]; rewrite H; discriminate.
  - intros Hdb. rewrite Update_database by assumption. cbn zeta.
    destruct (UpdateFolder ts (fFolder p)) as [[|] f]; cbn [fst snd fFolder fData].
    + split; [reflexivity|]. split; [reflexivity|]. intros _. split.
      * now rewrite load_rows_iov.
      * intros ch. rewrite load_rows_lookup.
        destruct (bool_decide (ch ∈ fChannels f)); [reflexivity|]. apply lookup_empty.
    + split; [reflexivity|]. split; [reflexivity|]. discriminate.
Qed.

(** C3, witness: the file-backed provider at timestamp 150, and the
    database provider at the same timestamp, which the store serves. *)
Lemma Update_consults_store_only_for_database_witness :
  (fst (Update 150 p_file) = false
   /\ fData (snd (Update 150 p_file)) = fData p_file
   /\ fFolder (snd (Update 150 p_file)) = fFolder p_file)
  /\ fst (Update 150 p_db) = true
  /\ fetches (fFolder (snd (Update 150 p_db))) = 1%nat
  /\ Snapshot.iov (fData (snd (Update 150 p_db))) = (100, 200).
Proof.
  destruct (Update_consults_store_only_for_database 150 p_file) as [Hfile _].
  destruct (Update_consults_store_only_for_database 150 p_db) as [_ Hdb].
  split.
  - apply Hfile. left. reflexivity.
  - destruct Hdb as (H1 & H2 & H3); [reflexivity|].
    destruct H3 as [H3 _]; [reflexivity|].
    rewrite H1, H2, H3. repeat split.
Defined.

(** C3, counterexample: the file-backed provider is updated at timestamp
    150, which its cached interval does not cover and for which the store
    would deliver rows; no fetch is made and the persistent table stays
    empty. *)
Lemma Update_file_mode_never_fetches :
  fDataSource p_file = File
  /\ covers (fFolder p_file) 150 = false
  /\ (exists rows, remote (fFolder p_file) 150 = Some rows)
  /\ fst (Update 150 p_file) = false
  /\ fetches (fFolder (snd (Update 150 p_file))) = fetches (fFolder p_file)
  /\ Snapshot.rows (fData (snd (Update 150 p_file))) = ∅.
Proof.
  repeat split; try reflexivity.
  eexists. reflexivity.
Qed.

(** C6: every call of [Update] leaves the overlay empty; a call that
    returns [false] leaves the persistent table, contents and validity
    interval, as it was; and the call returns [false] whenever the mode
    is not the database mode (default mode in particular), the timestamp
    is covered by the cached interval, or the fetch fails. *)
Theorem Update_clears_overlay_keeps_table (ts : Z) (p : Provider) :
  Snapshot.rows (fNewNoisy (snd (Update ts p))) = ∅
  /\ (fst (Update ts p) = false -> fData (snd (Update ts p)) = fData p)
  /\ (fDataSource p <> Database
      \/ covers (fFolder p) ts = true
      \/ remote (fFolder p) ts = None ->
      fst (Update ts p) = false).
Proof.
  destruct (decide (fDataSource p = Database)) as [Hdb|Hdb].
  - rewrite Update_database by assumption. cbn zeta.
    destruct (UpdateFolder ts (fFolder p)) as [[|] f] eqn:Huf;
      cbn [fst snd fNewNoisy fData Snapshot.Clear Snapshot.rows].
    + split; [reflexivity|]. split; [discriminate|].
      intros [H|[H|H]]; [contradiction| |];
        unfold UpdateFolder in Huf; rewrite H in Huf; try discriminate.
      destruct (covers (fFolder p) ts); discriminate.
    + repeat split.
  - rewrite Update_not_database by assumption. repeat split.
Qed.

(** C6, witness: the refreshed database provider, with a noisy channel
    in its overlay, is updated at timestamp 500, for which the fetch
    fails. *)
Lemma Update_clears_overlay_keeps_table_witness :
  Snapshot.rows (fNewNoisy p_db_noisy) !! 0 = Some (mkChannelStatus 0 kNOISY)
  /\ Snapshot.rows (fNewNoisy (snd (Update 500 p_db_noisy))) = ∅
  /\ fData (snd (Update 500 p_db_noisy)) = fData p_db_noisy
  /\ fst (Update 500 p_db_noisy) = false.
Proof.
  destruct (Update_clears_overlay_keeps_table 500 p_db_noisy) as (H1 & H2 & H3).
  assert (Hf : fst (Update 500 p_db_noisy) = false).
  { apply H3. right. right. reflexivity. }
  split; [reflexivity|]. split; [exact H1|]. split; [exact (H2 Hf)|exact Hf].
Defined.

(** ** The overlay invariant *)

Lemma eligible_iff (p : Provider) (ch : Z) :
  negb (IsBad p ch) && IsPresent p ch = true <-> eligible p ch.
Proof.
  unfold IsBad, IsPresent, eligible.
  destruct (persistent_status p ch); cbn; split; intros H;
    try discriminate; try reflexivity;
    try (repeat split; discriminate);
    destruct H as (H1 & H2 & H3); congruence.
Qed.

Lemma AddNoisyChannel_eligible (ch : Z) (p : Provider) :
  eligible p ch ->
  AddNoisyChannel ch p =
    mkProvider (fDataSource p) (fData p)
      (Snapshot.AddOrReplaceRow (mkChannelStatus ch kNOISY) (fNewNoisy p))
      (fDefault p) (fFolder p).
Proof.
  intros H. apply eligible_iff in H.
  unfold AddNoisyChannel, rawToDBChannel. now rewrite H.
Qed.

Lemma AddNoisyChannel_not_eligible (ch : Z) (p : Provider) :
  ~ eligible p ch -> AddNoisyChannel ch p = p.
Proof.
  intros H. unfold AddNoisyChannel, rawToDBChannel.
  destruct (negb (IsBad p ch) && IsPresent p ch) eqn:E; [|reflexivity].
  apply eligible_iff in E. contradiction.
Qed.

Lemma construct_overlay_empty (geo : Geometry) (pset : Config) :
  Snapshot.rows (fNewNoisy (construct geo pset)) = ∅.
Proof. reflexivity. Qed.

Lemma Update_overlay_empty (ts : Z) (p : Provider) :
  Snapshot.rows (fNewNoisy (snd (Update ts p))) = ∅.
Proof.
  destruct (decide (fDataSource p = Database)) as [Hdb|Hdb].
  - rewrite Update_database by assumption. cbn zeta.
    destruct (fst (UpdateFolder ts (fFolder p))); reflexivity.
  - rewrite Update_not_database by assumption. reflexivity.
Qed.

Lemma overlay_ok_empty (p : Provider) :
  Snapshot.rows (fNewNoisy p) = ∅ -> overlay_ok p.
Proof.
  intros H ch cs Hl. rewrite H, lookup_empty in Hl. discriminate.
Qed.

Lemma AddNoisyChannel_overlay_ok (ch : Z) (p : Provider) :
  overlay_ok p -> overlay_ok (AddNoisyChannel ch p).
Proof.
  intros Hok. destruct (decide (eligible p ch)) as [He|He].
  - rewrite AddNoisyChannel_eligible by assumption.
    intros ch' cs. cbn [fNewNoisy Snapshot.AddOrReplaceRow Snapshot.rows Channel].
    destruct (decide (ch = ch')) as [->|Hne].
    + rewrite lookup_insert_eq. intros [= <-]. split; [reflexivity|exact He].
    + rewrite lookup_insert_ne by assumption. intros Hl.
      destruct (Hok ch' cs Hl) as [-> He']. split; [reflexivity|exact He'].
  - now rewrite AddNoisyChannel_not_eligible.
Qed.

Lemma reachable_overlay_ok (geo : Geometry) (pset : Config) (p : Provider) :
  reachable geo pset p -> overlay_ok p.
Proof.
  induction 1 as [|ts p _ _|ch p _ IH].
  - apply overlay_ok_empty, construct_overlay_empty.
  - apply overlay_ok_empty, Update_overlay_empty.
  - now apply AddNoisyChannel_overlay_ok.
Qed.

(** The states the filter service puts the provider in are reachable:
    an event updates the provider and then records noisy channels. *)
Lemma process_digit_provider (fuel : nat) (cfg : FilterConfig)
    (st st' : Z * Provider) (d : RawDigit) :
  process_digit fuel cfg st d = Some st' ->
  snd st' = snd st \/ snd st' = AddNoisyChannel (rd_Channel d) (snd st).
Proof.
  destruct st as [n p]. unfold process_digit.
  destruct (IsBad p (rd_Channel d) || negb (IsPresent p (rd_Channel d))).
  - intros [= <-]. now left.
  - destruct (analyze_digit fuel cfg n d) as [a|]; [|discriminate].
    cbn [mbind option_bind].
    destruct (sqrt_ge (a_rmsArg a) (rms_cut cfg (rd_Channel d)));
      intros [= <-]; [now right|now left].
Qed.

Lemma digits_loop_reachable (geo : Geometry) (pset : Config) (fuel : nat)
    (cfg : FilterConfig) (digits : list RawDigit) :
  forall st st',
    reachable geo pset (snd st) ->
    digits_loop fuel cfg st digits = Some st' ->
    reachable geo pset (snd st').
Proof.
  induction digits as [|d ds IH]; intros st st' Hr; cbn [digits_loop].
  - now intros [= <-].
  - destruct (process_digit fuel cfg st d) as [st1|] eqn:E; [|discriminate].
    cbn [mbind option_bind]. apply IH.
    destruct (process_digit_provider fuel cfg st st1 d E) as [-> | ->];
      [assumption|now apply reach_AddNoisyChannel].
Qed.

Lemma PreProcessEvent_reachable (geo : Geometry) (pset : Config) (fuel : nat)
    (cfg : FilterConfig) (nts ts : Z) (h : option (list RawDigit))
    (p p' : Provider) :
  reachable geo pset p ->
  PreProcessEvent fuel cfg nts ts h p = Some p' ->
  reachable geo pset p'.
Proof.
  intros Hr. unfold PreProcessEvent, FindNoisyChannels.
  pose proof (reach_Update geo pset ts p Hr) as Hu.
  destruct (fFindNoisyChannels cfg); [|now intros [= <-]].
  destruct h as [digits|]; [|now intros [= <-]].
  destruct (digits_loop fuel cfg (nts, snd (Update ts p)) digits) as [st'|] eqn:E;
    [|discriminate].
  intros [= <-].
  exact (digits_loop_reachable geo pset fuel cfg digits
           (nts, snd (Update ts p)) st' Hu E).
Qed.

(** C7: at every reachable state, every record of the overlay is a
    [kNOISY] record for a channel that is present (persistent status not
    [kDISCONNECTED]) and not bad (persistent status neither [kDEAD] nor
    [kLOWNOISE]); a record enters the overlay only through an
    [AddNoisyChannel] whose channel is eligible at that moment; and
    [AddNoisyChannel] on a bad or absent channel changes nothing. *)
Theorem overlay_invariant (geo : Geometry) (pset : Config) (p : Provider) :
  reachable geo pset p ->
  overlay_ok p
  /\ (forall ch ch' cs,
        Snapshot.rows (fNewNoisy (AddNoisyChannel ch p)) !! ch' = Some cs ->
        Snapshot.rows (fNewNoisy p) !! ch' = Some cs
        \/ (ch' = ch /\ cs = mkChannelStatus ch kNOISY
            /\ IsPresent p ch = true /\ IsBad p ch = false))
  /\ (forall ch,
        IsBad p ch = true \/ IsPresent p ch = false ->
        AddNoisyChannel ch p = p).
Proof.
  intros Hr. split; [|split].
  - exact (reachable_overlay_ok geo pset p Hr).
  - intros ch ch' cs.
    destruct (decide (eligible p ch)) as [He|He].
    + rewrite AddNoisyChannel_eligible by assumption.
      cbn [fNewNoisy Snapshot.AddOrReplaceRow Snapshot.rows Channel].
      destruct (decide (ch = ch')) as [->|Hne].
      * rewrite lookup_insert_eq. intros [= <-]. right.
        apply eligible_iff in He. apply andb_true_iff in He as [Hb Hp].
        apply negb_true_iff in Hb. now repeat split.
      * rewrite lookup_insert_ne by assumption. now left.
    + rewrite AddNoisyChannel_not_eligible by assumption. now left.
  - intros ch H. apply AddNoisyChannel_not_eligible.
    intros He. apply eligible_iff in He. apply andb_true_iff in He as [Hb Hp].
    apply negb_true_iff in Hb. destruct H; congruence.
Qed.

(** C7, witness: the database provider after a refresh and one noisy
    channel. *)
Lemma overlay_invariant_witness :
  overlay_ok p_db_noisy
  /\ Snapshot.rows (fNewNoisy p_db_noisy) !! 0 = Some (mkChannelStatus 0 kNOISY).
Proof.
  split.
  - apply (overlay_invariant geo3 cfg_db p_db_noisy).
    apply reach_AddNoisyChannel, reach_Update, reach_construct.
  - reflexivity.
Defined.

(** ** Channels with a given status *)

Lemma elem_of_channel_range (M ch : Z) :
  ch ∈ channel_range M <-> 0 <= ch < M.
Proof.
  unfold channel_range. rewrite list_elem_of_In, in_map_iff. split.
  - intros (n & <- & Hn%in_seq). lia.
  - intros H. exists (Z.to_nat ch). split; [lia|]. apply in_seq. lia.
Qed.

Lemma collect_status_returns (p : Provider) (s : chStatus) (todo chs : list Z) :
  (forall ch, ch ∈ todo -> exists cs, GetChannelStatus p ch = Return cs) ->
  collect_status p s todo chs = Return (chs ++ List.filter (status_is p s) todo).
Proof.
  revert chs. induction todo as [|c todo IH]; intros chs Hall.
  - cbn. now rewrite app_nil_r.
  - destruct (Hall c) as [cs Hcs]; [apply elem_of_cons; now left|].
    cbn [collect_status List.filter]. unfold status_is at 1. rewrite Hcs.
    cbn [mbind exc_bind].
    rewrite IH by (intros ch Hch; apply Hall, elem_of_cons; now right).
    destruct (bool_decide (Status cs = s)); [|reflexivity].
    now rewrite <- app_assoc.
Qed.

Lemma status_is_spec (p : Provider) (s : chStatus) (ch : Z) :
  status_is p s ch = true <->
  exists cs, GetChannelStatus p ch = Return cs /\ Status cs = s.
Proof.
  unfold status_is. destruct (GetChannelStatus p ch) as [cs|e]; split.
  - intros H%bool_decide_eq_true. now exists cs.
  - intros (cs' & [= <-] & H). now apply bool_decide_eq_true.
  - discriminate.
  - intros (cs' & [=] & _).
Qed.

(** C4 (as amended): in the database and file modes
    [GetChannelsWithStatus] decides membership, for every channel id
    below the largest one, by the status of the channel's lookup (overlay
    record first, then persistent table), and returns when all those
    lookups do; in the default mode it decides by the provider's default
    record, for all those channels alike; and [BadChannels] is the union
    of the [kDEAD] and the [kLOWNOISE] results. *)
Theorem GetChannelsWithStatus_membership (geo : Geometry) (p : Provider)
    (s : chStatus) :
  (fDataSource p <> Default ->
   (forall ch, 0 <= ch < maxChannel_of geo ->
               exists cs, GetChannelStatus p ch = Return cs) ->
   exists set,
     GetChannelsWithStatus geo p s = Return set
     /\ forall ch, 0 <= ch < maxChannel_of geo ->
          (ch ∈ set <->
           exists cs, GetChannelStatus p ch = Return cs /\ Status cs = s))
  /\ (fDataSource p = Default ->
      exists set,
        GetChannelsWithStatus geo p s = Return set
        /\ forall ch, 0 <= ch < maxChannel_of geo ->
             (ch ∈ set <-> Status (fDefault p) = s))
  /\ (forall dead ln,
        GetChannelsWithStatus geo p kDEAD = Return dead ->
        GetChannelsWithStatus geo p kLOWNOISE = Return ln ->
        BadChannels geo p = Return (dead ∪ ln)).
Proof.
  split; [|split].
  - intros Hsrc Hall. unfold GetChannelsWithStatus. fold (maxChannel_of geo).
    rewrite bool_decide_eq_false_2 by assumption.
    rewrite collect_status_returns
      by (intros ch Hch; apply Hall, elem_of_channel_range, Hch).
    cbn [mbind exc_bind app]. eexists. split; [reflexivity|].
    intros ch Hch. rewrite elem_of_list_to_set, list_elem_of_In, filter_In.
    rewrite <- list_elem_of_In, elem_of_channel_range, status_is_spec.
    tauto.
  - intros Hsrc. unfold GetChannelsWithStatus. fold (maxChannel_of geo).
    rewrite bool_decide_eq_true_2 by assumption.
    destruct (decide (Status (fDefault p) = s)) as [Hs|Hs].
    + rewrite bool_decide_eq_true_2 by assumption.
      eexists. split; [reflexivity|]. intros ch Hch.
      rewrite elem_of_list_to_set, elem_of_channel_range. tauto.
    + rewrite bool_decide_eq_false_2 by assumption.
      eexists. split; [reflexivity|]. intros ch Hch.
      rewrite elem_of_empty. tauto.
  - intros dead ln Hd Hl. unfold BadChannels. now rewrite Hd, Hl.
Qed.

(** C4, witness: the good channels of the database provider with channel
    0 in its overlay. *)
Lemma GetChannelsWithStatus_membership_witness :
  exists set,
    GetChannelsWithStatus geo3 p_db_noisy kGOOD = Return set
    /\ forall ch, 0 <= ch < maxChannel_of geo3 ->
         (ch ∈ set <->
          exists cs, GetChannelStatus p_db_noisy ch = Return cs
                     /\ Status cs = kGOOD).
Proof.
  apply (GetChannelsWithStatus_membership geo3 p_db_noisy kGOOD).
  - vm_compute. discriminate.
  - intros ch Hch. change (maxChannel_of geo3) with 2 in Hch.
    assert (ch = 0 \/ ch = 1) as [-> | ->] by lia; eexists; reflexivity.
Defined.

(** C4, counterexample: channels 0, 1 and 2 are all [kGOOD] in the
    persistent table, 2 is the largest channel id and 0 has a noisy
    record in the overlay; the good channels returned are 1 alone. *)
Lemma GetChannelsWithStatus_not_a_table_scan :
  persistent_status p_db_noisy 0 = kGOOD
  /\ persistent_status p_db_noisy 1 = kGOOD
  /\ persistent_status p_db_noisy 2 = kGOOD
  /\ Nchannels geo3 - 1 = 2
  /\ GetChannelsWithStatus geo3 p_db_noisy kGOOD = Return {[1]}.
Proof. repeat split; vm_compute; reflexivity. Qed.

(* ===================================================================== *)
(** * Part VI: properties of the noisy-channel finder                    *)
(* ===================================================================== *)

(** ** The map *)

Lemma find_insert (k v : Z) (m : StdMap.t) (k' : Z) :
  StdMap.find (StdMap.insert k v m) k' =
    if k' =? k then Some v else StdMap.find m k'.
Proof.
  induction m as [|[k0 v0] m IH]; cbn [StdMap.insert StdMap.find].
  - reflexivity.
  - destruct (k <? k0) eqn:Hlt; [reflexivity|].
    destruct (k =? k0) eqn:Heq; cbn [StdMap.find].
    + apply Z.eqb_eq in Heq. subst k0.
      destruct (k' =? k); reflexivity.
    + rewrite IH. destruct (k' =? k0) eqn:E0; [|reflexivity].
      apply Z.eqb_eq in E0. subst k0.
      rewrite Z.eqb_sym, Heq. reflexivity.
Qed.

Lemma get_find (m : StdMap.t) (k : Z) :
  StdMap.get m k = match StdMap.find m k with Some v => v | None => 0 end.
Proof.
  unfold StdMap.get, StdMap.at_. destruct (StdMap.find m k); reflexivity.
Qed.

Lemma at_fst (k : Z) (m : StdMap.t) : fst (StdMap.at_ k m) = StdMap.get m k.
Proof. reflexivity. Qed.

Lemma at_reads (k : Z) (m : StdMap.t) :
  same_reads (snd (StdMap.at_ k m)) m.
Proof.
  intros k'. rewrite !get_find. unfold StdMap.at_.
  destruct (StdMap.find m k) eqn:E; cbn [snd]; [reflexivity|].
  rewrite find_insert. destruct (k' =? k) eqn:Ek; [|reflexivity].
  apply Z.eqb_eq in Ek. subst k'. now rewrite E.
Qed.

Lemma get_incr (k : Z) (m : StdMap.t) (k' : Z) :
  StdMap.get (StdMap.incr k m) k' =
    if k' =? k then to_short (StdMap.get m k + 1) else StdMap.get m k'.
Proof.
  unfold StdMap.incr.
  destruct (StdMap.at_ k m) as [v m1] eqn:E.
  assert (Hv : v = StdMap.get m k) by (unfold StdMap.get; now rewrite E).
  assert (Hm : same_reads m1 m) by (pose proof (at_reads k m) as H; now rewrite E in H).
  rewrite get_find, find_insert.
  destruct (k' =? k); [now rewrite Hv|].
  rewrite <- get_find. apply Hm.
Qed.

Lemma insert_keys (k v : Z) (m : StdMap.t) (x : Z) :
  In x (map fst (StdMap.insert k v m)) -> x = k \/ In x (map fst m).
Proof.
  induction m as [|[k0 v0] m IH]; cbn [StdMap.insert].
  - cbn. intuition congruence.
  - destruct (k <? k0); [cbn; intuition congruence|].
    destruct (k =? k0) eqn:E; cbn; [intuition congruence|].
    intros [H|H]; [tauto|]. apply IH in H. tauto.
Qed.

Lemma insert_sorted (k v : Z) (m : StdMap.t) :
  sorted_keys m -> sorted_keys (StdMap.insert k v m).
Proof.
  unfold sorted_keys. induction m as [|[k0 v0] m IH]; cbn [StdMap.insert]; intros Hs.
  - repeat constructor.
  - cbn [map fst] in Hs. apply StronglySorted_inv in Hs as [Hs Hall].
    destruct (k <? k0) eqn:Hlt.
    + apply Z.ltb_lt in Hlt. cbn [map fst]. constructor.
      * constructor; assumption.
      * constructor; [assumption|].
        rewrite List.Forall_forall in Hall |- *. intros x Hx.
        specialize (Hall x Hx). lia.
    + apply Z.ltb_ge in Hlt. destruct (k =? k0) eqn:Heq.
      * apply Z.eqb_eq in Heq. subst k0. cbn [map fst]. now constructor.
      * apply Z.eqb_neq in Heq. cbn [map fst]. constructor; [now apply IH|].
        rewrite List.Forall_forall in Hall |- *. intros x Hx.
        apply insert_keys in Hx as [->|Hx]; [lia|now apply Hall].
Qed.

Lemma at_sorted (k : Z) (m : StdMap.t) :
  sorted_keys m -> sorted_keys (snd (StdMap.at_ k m)).
Proof.
  intros Hs. unfold StdMap.at_. destruct (StdMap.find m k); cbn [snd];
    [assumption|now apply insert_sorted].
Qed.

Lemma incr_sorted (k : Z) (m : StdMap.t) :
  sorted_keys m -> sorted_keys (StdMap.incr k m).
Proof.
  intros Hs. unfold StdMap.incr.
  pose proof (at_sorted k m Hs) as H.
  destruct (StdMap.at_ k m) as [v m1]. now apply insert_sorted.
Qed.

Lemma histogram_sorted (rawadc : list Z) : sorted_keys (histogram rawadc).
Proof.
  unfold histogram.
  assert (H : forall m, sorted_keys m ->
                sorted_keys (fold_left (fun m adcVal => StdMap.incr adcVal m) rawadc m)).
  { induction rawadc as [|a l IH]; intros m Hm; [exact Hm|].
    cbn [fold_left]. apply IH. now apply incr_sorted. }
  apply H. constructor.
Qed.

Lemma to_short_small (z : Z) : -32768 <= z < 32768 -> to_short z = z.
Proof.
  intros H. unfold to_short. rewrite Z.mod_small by lia. lia.
Qed.

Lemma occurrences_cons (a : Z) (l : list Z) (k : Z) :
  occurrences (a :: l) k = (if k =? a then 1 else 0) + occurrences l k.
Proof.
  unfold occurrences. cbn [count_occ].
  destruct (Z.eq_dec a k) as [->|Hne].
  - rewrite Z.eqb_refl. lia.
  - destruct (k =? a) eqn:E; [apply Z.eqb_eq in E; congruence|lia].
Qed.

Lemma histogram_fold_counts (rawadc : list Z) :
  forall (m : StdMap.t) (bound : Z),
    (forall k, 0 <= StdMap.get m k <= bound) ->
    bound + Z.of_nat (length rawadc) < 32768 ->
    forall k,
      StdMap.get (fold_left (fun m adcVal => StdMap.incr adcVal m) rawadc m) k
      = StdMap.get m k + occurrences rawadc k.
Proof.
  induction rawadc as [|a l IH]; intros m bound Hm Hlen k.
  - cbn. unfold occurrences. cbn. lia.
  - cbn [fold_left]. cbn [length] in Hlen.
    assert (Hinc : forall k', StdMap.get (StdMap.incr a m) k' =
                              if k' =? a then StdMap.get m a + 1 else StdMap.get m k').
    { intros k'. rewrite get_incr. destruct (k' =? a); [|reflexivity].
      apply to_short_small. specialize (Hm a). lia. }
    rewrite (IH (StdMap.incr a m) (bound + 1)).
    + rewrite Hinc, occurrences_cons.
      destruct (k =? a) eqn:E; [apply Z.eqb_eq in E; subst|]; lia.
    + intros k'. rewrite Hinc. pose proof (Hm a). specialize (Hm k').
      destruct (k' =? a) eqn:E; [apply Z.eqb_eq in E; subst|]; lia.
    + lia.
Qed.

(** A histogram of fewer than 32768 samples maps every value to its
    number of occurrences. *)
Lemma histogram_counts (rawadc : list Z) (k : Z) :
  Z.of_nat (length rawadc) < 32768 ->
  StdMap.get (histogram rawadc) k = occurrences rawadc k.
Proof.
  intros Hlen. unfold histogram.
  rewrite (histogram_fold_counts rawadc [] 0); [reflexivity| |lia].
  intros k'. cbn. lia.
Qed.

Lemma histogram_counts_nonneg (rawadc : list Z) :
  Z.of_nat (length rawadc) < 32768 -> counts_nonneg (histogram rawadc).
Proof.
  intros Hlen k. rewrite histogram_counts by assumption.
  unfold occurrences. lia.
Qed.

(** ** The most populated bin *)

Lemma max_step_cases (b c k v : Z) :
  (c < v /\ max_step (b, c) (k, v) = (k, v))
  \/ (v <= c /\ max_step (b, c) (k, v) = (b, c)).
Proof.
  unfold max_step. cbn [fst snd].
  destruct (v >? c) eqn:E.
  - left. split; [lia|reflexivity].
  - right. split; [lia|reflexivity].
Qed.

(** The scan from a running maximum [(b, c)]: the count never decreases,
    bounds every count met, and either nothing exceeded [c] or the result
    is the first entry, in key order, that carries the final count. *)
Lemma scan_from (l : list (Z * Z)) :
  forall b c,
    sorted_keys l ->
    let r := fold_left max_step l (b, c) in
    c <= snd r
    /\ (forall k v, In (k, v) l -> v <= snd r)
    /\ (r = (b, c)
        \/ (c < snd r /\ In r l /\ forall k, In (k, snd r) l -> fst r <= k)).
Proof.
  induction l as [|[k0 v0] l IH]; intros b c Hs; cbn zeta.
  - cbn. repeat split; [lia| |now left]. intros k v [].
  - unfold sorted_keys in Hs. cbn [map fst] in Hs.
    apply StronglySorted_inv in Hs as [Hs Hall].
    rewrite List.Forall_forall in Hall.
    cbn [fold_left].
    destruct (max_step_cases b c k0 v0) as [[Hlt ->]|[Hle ->]].
    + destruct (IH k0 v0 Hs) as (H1 & H2 & H3). cbn zeta in H1, H2, H3.
      set (r := fold_left max_step l (k0, v0)) in *.
      split; [lia|]. split.
      * intros k v [[= -> ->]|Hin]; [lia|now apply (H2 k)].
      * right. split; [lia|]. destruct H3 as [Hr|(Hgt & Hin & Hmin)].
        -- rewrite Hr. cbn [fst snd]. split; [now left|].
           intros k [[= ->]|Hin]; [lia|].
           assert (k0 < k); [|lia].
           apply Hall. apply in_map_iff. now exists (k, v0).
        -- split; [now right|]. intros k [[= -> Hv]|Hin']; [lia|now apply Hmin].
    + destruct (IH b c Hs) as (H1 & H2 & H3). cbn zeta in H1, H2, H3.
      set (r := fold_left max_step l (b, c)) in *.
      split; [lia|]. split.
      * intros k v [[= -> ->]|Hin]; [lia|now apply (H2 k)].
      * destruct H3 as [Hr|(Hgt & Hin & Hmin)]; [now left|right].
        split; [lia|]. split; [now right|].
        intros k [[= -> Hv]|Hin']; [lia|now apply Hmin].
Qed.

Lemma find_max_count_nonneg (m : StdMap.t) : 0 <= snd (find_max m).
Proof.
  assert (H : forall b c, 0 <= c -> 0 <= snd (fold_left max_step m (b, c))).
  { induction m as [|[k v] m IH]; intros b c Hc; [exact Hc|].
    cbn [fold_left].
    destruct (max_step_cases b c k v) as [[Hlt ->]|[Hle ->]]; apply IH; lia. }
  apply H. lia.
Qed.

Lemma find_In (m : StdMap.t) (k v : Z) :
  StdMap.find m k = Some v -> In (k, v) m.
Proof.
  induction m as [|[k0 v0] m IH]; cbn [StdMap.find]; [discriminate|].
  destruct (k =? k0) eqn:E.
  - apply Z.eqb_eq in E. subst k0. intros [= ->]. now left.
  - intros H. right. now apply IH.
Qed.

Lemma In_find (m : StdMap.t) (k v : Z) :
  sorted_keys m -> In (k, v) m -> StdMap.find m k = Some v.
Proof.
  unfold sorted_keys. induction m as [|[k0 v0] m IH]; intros Hs Hin; [destruct Hin|].
  cbn [map fst] in Hs. apply StronglySorted_inv in Hs as [Hs Hall].
  rewrite List.Forall_forall in Hall. cbn [StdMap.find].
  destruct Hin as [[= -> ->]|Hin].
  - now rewrite Z.eqb_refl.
  - assert (Hlt : k0 < k) by (apply Hall, in_map_iff; now exists (k, v)).
    destruct (k =? k0) eqn:E; [apply Z.eqb_eq in E; lia|]. now apply IH.
Qed.

(** In a histogram of fewer than 32768 samples the entries are the sample
    values with their numbers of occurrences. *)
Lemma histogram_entries (rawadc : list Z) (k v : Z) :
  Z.of_nat (length rawadc) < 32768 ->
  In (k, v) (histogram rawadc) -> v = occurrences rawadc k.
Proof.
  intros Hlen Hin. apply In_find in Hin; [|apply histogram_sorted].
  rewrite <- histogram_counts by assumption. rewrite get_find. now rewrite Hin.
Qed.

Lemma histogram_entry_of_sample (rawadc : list Z) (k : Z) :
  Z.of_nat (length rawadc) < 32768 ->
  0 < occurrences rawadc k ->
  In (k, occurrences rawadc k) (histogram rawadc).
Proof.
  intros Hlen Hpos. apply find_In.
  pose proof (histogram_counts rawadc k Hlen) as Hc. rewrite get_find in Hc.
  destruct (StdMap.find (histogram rawadc) k) as [v|]; [now subst|lia].
Qed.

Lemma occurrences_pos_In (rawadc : list Z) (k : Z) :
  0 < occurrences rawadc k <-> In k rawadc.
Proof.
  unfold occurrences. rewrite (count_occ_In Z.eq_dec). lia.
Qed.

(** The scan from a running maximum that no count exceeds leaves it. *)
Lemma scan_keeps_start (l : list (Z * Z)) (b c : Z) :
  (forall k v, In (k, v) l -> v <= c) ->
  fold_left max_step l (b, c) = (b, c).
Proof.
  induction l as [|[k v] l IH]; intros Hall; [reflexivity|].
  cbn [fold_left].
  destruct (max_step_cases b c k v) as [[Hlt _]|[_ ->]].
  - specialize (Hall k v (or_introl eq_refl)). lia.
  - apply IH. intros k' v' Hin. apply (Hall k'). now right.
Qed.

(** C8 (as amended): the scan starts from the mode value -1 with the
    count 0, visits the entries in ascending key order and replaces the
    running mode only on a strictly greater count.  So, for a histogram
    (keys ascending) that holds a positive count, the selected bin is an
    entry of the histogram whose count is the largest one and whose key
    is the smallest among the entries with that count; for a non-empty
    vector of fewer than 32768 samples the selected mode is thus the
    smallest of the most frequent sample values; for the counts 10: 3,
    12: 3, 11: 2 the selected mode is 10.  For a histogram without a
    positive count, as that of no samples, no entry is selected: the mode
    value stays -1 and its count 0. *)
Theorem find_max_smallest_of_the_largest :
  (forall m : StdMap.t,
     sorted_keys m ->
     (exists k v, In (k, v) m /\ 0 < v) ->
     In (find_max m) m
     /\ (forall k v, In (k, v) m -> v <= snd (find_max m))
     /\ (forall k, In (k, snd (find_max m)) m -> fst (find_max m) <= k))
  /\ (forall rawadc : list Z,
        rawadc <> [] ->
        Z.of_nat (length rawadc) < 32768 ->
        let binMax := fst (find_max (histogram rawadc)) in
        let binMaxCnt := snd (find_max (histogram rawadc)) in
        In binMax rawadc
        /\ binMaxCnt = occurrences rawadc binMax
        /\ forall k, occurrences rawadc k <= binMaxCnt
                     /\ (occurrences rawadc k = binMaxCnt -> binMax <= k))
  /\ (forall m : StdMap.t,
        (forall k v, In (k, v) m -> v <= 0) -> find_max m = (-1, 0))
  /\ (forall acc k v,
        max_step acc (k, v) = if snd acc <? v then (k, v) else acc)
  /\ histogram [10; 12; 10; 11; 12; 10; 12; 11] = [(10, 3); (11, 2); (12, 3)]
  /\ find_max [(10, 3); (11, 2); (12, 3)] = (10, 3).
Proof.
  assert (Hgen : forall m : StdMap.t,
     sorted_keys m ->
     (exists k v, In (k, v) m /\ 0 < v) ->
     In (find_max m) m
     /\ (forall k v, In (k, v) m -> v <= snd (find_max m))
     /\ (forall k, In (k, snd (find_max m)) m -> fst (find_max m) <= k)).
  { intros m Hs (k & v & Hin & Hpos).
    destruct (scan_from m (-1) 0 Hs) as (H1 & H2 & H3). cbn zeta in H1, H2, H3.
    fold (find_max m) in H1, H2, H3.
    destruct H3 as [Hr|(Hgt & Hin' & Hmin)].
    - specialize (H2 k v Hin). rewrite Hr in H2. cbn in H2. lia.
    - repeat split; assumption. }
  split; [exact Hgen|].
  split; [|split; [|split; [|split; reflexivity]]].
  - intros rawadc Hne Hlen. cbn zeta.
    set (m := histogram rawadc).
    assert (Hex : exists k v, In (k, v) m /\ 0 < v).
    { destruct rawadc as [|a l]; [contradiction|].
      assert (Ha : 0 < occurrences (a :: l) a)
        by (apply occurrences_pos_In; now left).
      exists a, (occurrences (a :: l) a). split; [|exact Ha].
      now apply histogram_entry_of_sample. }
    destruct (Hgen m (histogram_sorted rawadc) Hex) as (Hin & Hmax & Hmin).
    destruct (find_max m) as [b c] eqn:Efm. cbn [fst snd] in *.
    pose proof (histogram_entries rawadc b c Hlen Hin) as Hc.
    assert (Hcpos : 0 < c).
    { destruct Hex as (k & v & Hkv & Hv). specialize (Hmax k v Hkv). lia. }
    split; [apply occurrences_pos_In; lia|]. split; [exact Hc|].
    intros k.
    destruct (Z.eq_dec (occurrences rawadc k) 0) as [Hz|Hnz].
    + rewrite Hz. lia.
    + assert (Hk : 0 < occurrences rawadc k) by (unfold occurrences in *; lia).
      pose proof (histogram_entry_of_sample rawadc k Hlen Hk) as Hkin.
      split; [now apply (Hmax k)|].
      intros Heq. apply Hmin. now rewrite <- Heq.
  - intros m Hle. unfold find_max. now apply scan_keeps_start.
  - intros [b c] k v. unfold max_step. cbn [fst snd].
    rewrite Z.gtb_ltb. reflexivity.
Qed.

(** C8, witness: the histogram of the samples 10, 12, 10, 11, 12, 10, 12,
    11, whose counts are 10: 3, 11: 2, 12: 3. *)
Lemma find_max_smallest_of_the_largest_witness :
  In (find_max (histogram [10; 12; 10; 11; 12; 10; 12; 11]))
     (histogram [10; 12; 10; 11; 12; 10; 12; 11])
  /\ fst (find_max (histogram [10; 12; 10; 11; 12; 10; 12; 11])) = 10.
Proof.
  split; [|reflexivity].
  apply (proj1 find_max_smallest_of_the_largest
               (histogram [10; 12; 10; 11; 12; 10; 12; 11])).
  - apply histogram_sorted.
  - exists 10, 3. split; [vm_compute; tauto|lia].
Defined.

(** C8, counterexample: the histogram of no samples.  The scan leaves the
    mode value at -1, which is the value of no sample and the key of no
    entry, so that the selected mode is not among the sample values
    attaining the maximum count. *)
Lemma mode_of_no_samples_is_no_sample_value :
  histogram [] = []
  /\ find_max (histogram []) = (-1, 0)
  /\ ~ In (fst (find_max (histogram []))) []
  /\ ~ (exists v, In (fst (find_max (histogram [])), v) (histogram [])).
Proof.
  split; [reflexivity|]. split; [reflexivity|].
  split; [intros []|intros [v []]].
Qed.

(** ** The loops *)

Lemma while_exit {St : Type} (cond : St -> bool) (body : St -> St)
    (fuel : nat) (s : St) :
  cond s = false -> while cond body fuel s = Some (O, s).
Proof. intros H. destruct fuel; cbn; now rewrite H. Qed.

Lemma while_step {St : Type} (cond : St -> bool) (body : St -> St)
    (fuel : nat) (s : St) :
  cond s = true ->
  while cond body (S fuel) s =
    match while cond body fuel (body s) with
    | Some (n, s') => Some (S n, s')
    | None => None
    end.
Proof. intros H. cbn. now rewrite H. Qed.

Lemma while_zero_iterations {St : Type} (cond : St -> bool) (body : St -> St)
    (fuel : nat) (s s' : St) :
  while cond body fuel s = Some (O, s') -> s' = s /\ cond s = false.
Proof.
  destruct fuel; cbn; destruct (cond s) eqn:E; try discriminate.
  - now intros [= ->].
  - destruct (while cond body fuel (body s)) as [[n s'']|]; discriminate.
  - now intros [= ->].
Qed.

Lemma while_result {St : Type} (cond : St -> bool) (body : St -> St)
    (fuel : nat) :
  forall (s : St) (n : nat) (s' : St),
    while cond body fuel s = Some (n, s') ->
    s' = Nat.iter n body s
    /\ cond s' = false
    /\ forall i, (i < n)%nat -> cond (Nat.iter i body s) = true.
Proof.
  induction fuel as [|fuel IH]; intros s n s'; cbn [while];
    destruct (cond s) eqn:E; try discriminate.
  - intros [= <- <-]. repeat split; [exact E|]. intros i Hi. lia.
  - destruct (while cond body fuel (body s)) as [[n0 s0]|] eqn:Hrec;
      [|discriminate].
    intros [= <- <-]. destruct (IH (body s) n0 s0 Hrec) as (Hs & Hc & Hi).
    split; [now rewrite Nat.iter_succ_r|]. split; [exact Hc|].
    intros [|i] Hlt; [exact E|]. rewrite Nat.iter_succ_r. apply Hi. lia.
  - intros [= <- <-]. repeat split; [exact E|]. intros i Hi. lia.
Qed.

Lemma while_more_fuel {St : Type} (cond : St -> bool) (body : St -> St)
    (fuel : nat) :
  forall (s : St) (r : nat * St) (fuel' : nat),
    while cond body fuel s = Some r ->
    (fuel <= fuel')%nat ->
    while cond body fuel' s = Some r.
Proof.
  induction fuel as [|fuel IH]; intros s r fuel' Hrun Hle.
  - cbn in Hrun. destruct (cond s) eqn:E; [discriminate|].
    rewrite while_exit by assumption. exact Hrun.
  - destruct (cond s) eqn:E.
    + rewrite while_step in Hrun by assumption.
      destruct fuel' as [|fuel']; [lia|]. rewrite while_step by assumption.
      destruct (while cond body fuel (body s)) as [r0|] eqn:Hrec; [|discriminate].
      rewrite (IH (body s) r0 fuel' Hrec) by lia. exact Hrun.
    + rewrite while_exit in Hrun by assumption.
      rewrite while_exit by assumption. exact Hrun.
Qed.

Lemma analyze_unfold (fuel : nat) (f : Q) (dataSize : Z) (rawadc : list Z) :
  analyze fuel f dataSize rawadc =
    let m := histogram rawadc in
    let binMax := fst (find_max m) in
    let binMaxCnt := snd (find_max m) in
    let target := minNumBins f dataSize in
    match mean_loop fuel m binMax binMaxCnt target with
    | Some (n1, w1) =>
        let truncMean := ddiv (sum w1) (of_int (binCnt w1)) in
        match rms_loop fuel (binAdcMap w1) binMax binMaxCnt target truncMean with
        | Some (n2, w2) =>
            Some (mkAnalysis binMax binMaxCnt target n1 w1 truncMean n2 w2
                   (dmax (Fin 0) (ddiv (sum w2) (of_int (binCnt w2)))))
        | None => None
        end
    | None => None
    end.
Proof.
  unfold analyze. destruct (find_max (histogram rawadc)) as [b c]. cbn [fst snd].
  destruct (mean_loop fuel (histogram rawadc) b c (minNumBins f dataSize))
    as [[n1 w1]|]; [|reflexivity].
  cbn. destruct (rms_loop fuel (binAdcMap w1) b c (minNumBins f dataSize)
                   (ddiv (sum w1) (of_int (binCnt w1)))) as [[n2 w2]|];
    reflexivity.
Qed.

Lemma analyze_more_fuel (fuel fuel' : nat) (f : Q) (dataSize : Z)
    (rawadc : list Z) (a : Analysis) :
  analyze fuel f dataSize rawadc = Some a ->
  (fuel <= fuel')%nat ->
  analyze fuel' f dataSize rawadc = Some a.
Proof.
  rewrite !analyze_unfold. cbn zeta. unfold mean_loop, rms_loop. cbn zeta.
  intros Hrun Hle.
  destruct (while (below (minNumBins f dataSize))
              (mean_body (fst (find_max (histogram rawadc)))) fuel _)
    as [[n1 w1]|] eqn:E1; [|discriminate].
  rewrite (while_more_fuel _ _ fuel _ _ fuel' E1 Hle).
  destruct (while (below (minNumBins f dataSize))
              (rms_body (fst (find_max (histogram rawadc)))
                 (ddiv (sum w1) (of_int (binCnt w1)))) fuel _)
    as [[n2 w2]|] eqn:E2; [|discriminate].
  rewrite (while_more_fuel _ _ fuel _ _ fuel' E2 Hle). exact Hrun.
Qed.

Lemma analyze_digit_more_fuel (fuel fuel' : nat) (cfg : FilterConfig)
    (maxTimeSamples : Z) (d : RawDigit) (a : Analysis) :
  analyze_digit fuel cfg maxTimeSamples d = Some a ->
  (fuel <= fuel')%nat ->
  analyze_digit fuel' cfg maxTimeSamples d = Some a.
Proof. unfold analyze_digit. apply analyze_more_fuel. Qed.

(** ** Rounding *)

Lemma Qpow2_pos (e : Z) : (0 < 2 ^ e)%Q.
Proof. apply Qpower_0_lt. reflexivity. Qed.

Lemma Qpow2_add (a b : Z) : (2 ^ (a + b) == 2 ^ a * 2 ^ b)%Q.
Proof. apply Qpower_plus. discriminate. Qed.

Lemma Qpow2_le (a b : Z) : a <= b -> (2 ^ a <= 2 ^ b)%Q.
Proof. intros H. apply Qpower_le_compat_l; [exact H|discriminate]. Qed.

Lemma Qpow2_lt_inv (a b : Z) : (2 ^ a < 2 ^ b)%Q -> a < b.
Proof. intros H. apply (Qpower_lt_compat_l_inv 2); [exact H|reflexivity]. Qed.

Lemma Qpow2_Z (n : Z) : 0 <= n -> (2 ^ n == inject_Z (2 ^ n))%Q.
Proof. intros H. now rewrite Zpower_Qpower. Qed.

Lemma Qpow2_cancel (k : Z) :
  0 <= k -> (inject_Z (2 ^ k) * 2 ^ (- k) == 1)%Q.
Proof.
  intros Hk. rewrite <- Qpow2_Z by assumption.
  rewrite <- Qpow2_add.
  replace (k + - k) with 0 by lia. reflexivity.
Qed.

(** [Qilog2] is the integer part of the binary logarithm: a positive
    rational lies between the power of two of that exponent and the
    next one. *)
Lemma Qilog2_le (a : Q) : (0 < a)%Q -> (2 ^ Qilog2 a <= a)%Q.
Proof.
  intros Ha. unfold Qilog2.
  destruct (Qle_bool (2 ^ (Z.log2 (Qnum a) - Z.log2 (Z.pos (Qden a)))) a) eqn:E.
  - now apply Qle_bool_iff.
  - clear E. destruct a as [n d]. cbn [Qnum Qden].
    assert (Hn : 0 < n) by (unfold Qlt in Ha; cbn in Ha; lia).
    pose proof (Z.log2_spec n Hn) as [Hn1 _].
    pose proof (Z.log2_spec (Z.pos d) (Pos2Z.is_pos d)) as [_ Hd2].
    pose proof (Z.log2_nonneg n) as Hln.
    pose proof (Z.log2_nonneg (Z.pos d)) as Hld.
    set (ln := Z.log2 n) in *. set (ld := Z.log2 (Z.pos d)) in *.
    replace (ln - ld - 1) with (ln + - (ld + 1)) by lia.
    rewrite Qpow2_add, Qpower_opp, !Qpow2_Z by lia.
    assert (Hp : 0 < 2 ^ Z.succ ld) by (apply Z.pow_pos_nonneg; lia).
    replace (ld + 1) with (Z.succ ld) by lia.
    apply Qle_shift_div_r.
    + unfold Qlt, inject_Z. cbn [Qnum Qden]. lia.
    + unfold Qle, Qmult, inject_Z. cbn [Qnum Qden].
      rewrite Pos.mul_1_r, Z.mul_1_r.
      pose proof (Z.pow_pos_nonneg 2 ln ltac:(lia) Hln). nia.
Qed.

Lemma Qilog2_lt (a : Q) : (0 < a)%Q -> (a < 2 ^ (Qilog2 a + 1))%Q.
Proof.
  intros Ha. unfold Qilog2.
  destruct (Qle_bool (2 ^ (Z.log2 (Qnum a) - Z.log2 (Z.pos (Qden a)))) a) eqn:E.
  - clear E. destruct a as [n d]. cbn [Qnum Qden].
    assert (Hn : 0 < n) by (unfold Qlt in Ha; cbn in Ha; lia).
    pose proof (Z.log2_spec n Hn) as [_ Hn2].
    pose proof (Z.log2_spec (Z.pos d) (Pos2Z.is_pos d)) as [Hd1 _].
    pose proof (Z.log2_nonneg n) as Hln.
    pose proof (Z.log2_nonneg (Z.pos d)) as Hld.
    set (ln := Z.log2 n) in *. set (ld := Z.log2 (Z.pos d)) in *.
    replace (ln - ld + 1) with (Z.succ ln + - ld) by lia.
    rewrite Qpow2_add, Qpower_opp, !Qpow2_Z by lia.
    assert (Hp : 0 < 2 ^ ld) by (apply Z.pow_pos_nonneg; lia).
    apply Qlt_shift_div_l.
    + unfold Qlt, inject_Z. cbn [Qnum Qden]. lia.
    + unfold Qlt, Qmult, inject_Z. cbn [Qnum Qden].
      rewrite Pos.mul_1_r, Z.mul_1_r.
      pose proof (Z.pow_pos_nonneg 2 (Z.succ ln) ltac:(lia) ltac:(lia)). nia.
  - replace (Z.log2 (Qnum a) - Z.log2 (Z.pos (Qden a)) - 1 + 1)
      with (Z.log2 (Qnum a) - Z.log2 (Z.pos (Qden a))) by lia.
    apply Qnot_le_lt. intros H. apply Qle_bool_iff in H. congruence.
Qed.

Lemma round_half_even_cases (x : Q) :
  round_half_even x = Qfloor x
  \/ (round_half_even x = Qfloor x + 1 /\ (inject_Z (Qfloor x) < x)%Q).
Proof.
  unfold round_half_even.
  destruct (Qcompare_spec (x - inject_Z (Qfloor x)) (1 # 2)) as [H|H|H].
  - destruct (Z.even (Qfloor x)); [now left|right]. split; [reflexivity|].
    apply (Qplus_lt_l _ _ (- inject_Z (Qfloor x))). rewrite Qplus_opp_r.
    unfold Qminus in H. rewrite H. reflexivity.
  - now left.
  - right. split; [reflexivity|].
    apply (Qplus_lt_l _ _ (- inject_Z (Qfloor x))). rewrite Qplus_opp_r.
    apply Qlt_trans with (1 # 2); [reflexivity|exact H].
Qed.

(** Rounding to an integer does not cross an integer. *)
Lemma round_half_even_le (x : Q) (k : Z) :
  (x <= inject_Z k)%Q -> round_half_even x <= k.
Proof.
  intros H. pose proof (Qfloor_resp_le _ _ H) as Hf. rewrite Qfloor_Z in Hf.
  destruct (round_half_even_cases x) as [->|[-> Hlt]]; [exact Hf|].
  assert (Hk : (inject_Z (Qfloor x) < inject_Z k)%Q)
    by (eapply Qlt_le_trans; eassumption).
  rewrite <- Zlt_Qlt in Hk. lia.
Qed.

Lemma round_half_even_ge (x : Q) (k : Z) :
  (inject_Z k <= x)%Q -> k <= round_half_even x.
Proof.
  intros H. pose proof (Qfloor_resp_le _ _ H) as Hf. rewrite Qfloor_Z in Hf.
  destruct (round_half_even_cases x) as [->|[-> _]]; lia.
Qed.

Lemma Qpow2_scaled (z k e : Z) :
  e <= - k ->
  (inject_Z z * 2 ^ (- k) == inject_Z (z * 2 ^ (- k - e)) * 2 ^ e)%Q.
Proof.
  intros H. rewrite inject_Z_mult, <- Qpow2_Z by lia.
  rewrite <- Qmult_assoc, <- Qpow2_add.
  replace (- k - e + e) with (- k) by lia. reflexivity.
Qed.

(** Rounding does not cross a number of the format: between two
    multiples of 2^-k whose numerators have fewer than [prec] bits, a
    number is rounded to a number between them. *)
Lemma round_to_between (prec emin emax : Z) (x : Q) (k lo hi : Z) :
  prec <= emax -> 0 <= k -> emin <= - k ->
  - 2 ^ prec < lo -> hi < 2 ^ prec -> 0 <= prec ->
  (inject_Z lo * 2 ^ (- k) <= x)%Q -> (x <= inject_Z hi * 2 ^ (- k))%Q ->
  exists r,
    round_to prec emin emax x = Fin r
    /\ (inject_Z lo * 2 ^ (- k) <= r)%Q /\ (r <= inject_Z hi * 2 ^ (- k))%Q.
Proof.
  intros Hpe Hk Hemin Hlo Hhi Hprec Hx1 Hx2. unfold round_to.
  destruct (Qeq_bool x 0) eqn:E0.
  - apply Qeq_bool_eq in E0. exists 0%Q. split; [reflexivity|].
    rewrite <- E0. now split.
  - assert (Hnz : ~ (x == 0)%Q) by (intros H; apply Qeq_bool_iff in H; congruence).
    assert (Hk2 : (0 < 2 ^ (- k))%Q) by apply Qpow2_pos.
    assert (Hmag : forall y : Q,
              (inject_Z lo * 2 ^ (- k) <= y)%Q -> (y <= inject_Z hi * 2 ^ (- k))%Q ->
              (Qabs y < 2 ^ (prec - k))%Q).
    { intros y Hy1 Hy2. apply Qabs_Qlt_condition.
      replace (prec - k) with (prec + - k) by lia.
      rewrite Qpow2_add, Qpow2_Z by lia. split.
      - eapply Qlt_le_trans; [|exact Hy1].
        assert (Hopp : (- (inject_Z (2 ^ prec) * 2 ^ (- k))
                        == inject_Z (- 2 ^ prec) * 2 ^ (- k))%Q)
          by (rewrite inject_Z_opp; ring).
        rewrite Hopp.
        apply Qmult_lt_compat_r; [exact Hk2|]. now rewrite <- Zlt_Qlt.
      - eapply Qle_lt_trans; [exact Hy2|].
        apply Qmult_lt_compat_r; [exact Hk2|]. now rewrite <- Zlt_Qlt. }
    set (e := Z.max (Qilog2 (Qabs x) - (prec - 1)) emin).
    assert (He : e <= - k).
    { assert (Ha : (0 < Qabs x)%Q).
      { apply Qlt_leneq. split; [apply Qabs_nonneg|].
        intros H. apply Hnz. symmetry in H.
        destruct (Qabs_Qle_condition x 0) as [Hc _].
        destruct Hc as [H1 H2]; [rewrite H; apply Qle_refl|].
        apply Qle_antisym; assumption. }
      pose proof (Qilog2_le (Qabs x) Ha) as Hl.
      pose proof (Hmag x Hx1 Hx2) as Hu.
      pose proof (Qpow2_lt_inv _ _ (Qle_lt_trans _ _ _ Hl Hu)). lia. }
    assert (He2 : (0 < 2 ^ e)%Q) by apply Qpow2_pos.
    set (m := round_half_even (x / 2 ^ e)).
    assert (Hm2 : m <= hi * 2 ^ (- k - e)).
    { apply round_half_even_le. apply Qle_shift_div_r; [exact He2|].
      now rewrite <- Qpow2_scaled. }
    assert (Hm1 : lo * 2 ^ (- k - e) <= m).
    { apply round_half_even_ge. apply Qle_shift_div_l; [exact He2|].
      now rewrite <- Qpow2_scaled. }
    assert (Hr1 : (inject_Z lo * 2 ^ (- k) <= inject_Z m * 2 ^ e)%Q).
    { rewrite (Qpow2_scaled lo k e He).
      apply Qmult_le_compat_r; [now rewrite <- Zle_Qle|now apply Qlt_le_weak]. }
    assert (Hr2 : (inject_Z m * 2 ^ e <= inject_Z hi * 2 ^ (- k))%Q).
    { rewrite (Qpow2_scaled hi k e He).
      apply Qmult_le_compat_r; [now rewrite <- Zle_Qle|now apply Qlt_le_weak]. }
    assert (Hfin : Qle_bool (2 ^ emax) (Qabs (inject_Z m * 2 ^ e)) = false).
    { destruct (Qle_bool (2 ^ emax) (Qabs (inject_Z m * 2 ^ e))) eqn:E;
        [|reflexivity].
      apply Qle_bool_iff in E. exfalso.
      pose proof (Hmag _ Hr1 Hr2) as Hu.
      assert (Hpk : (2 ^ (prec - k) <= 2 ^ emax)%Q) by (apply Qpow2_le; lia).
      apply (Qlt_irrefl (2 ^ emax)).
      eapply Qle_lt_trans; [exact E|]. eapply Qlt_le_trans; eassumption. }
    rewrite Hfin. eexists. split; [reflexivity|]. now split.
Qed.

(** Between two integers of fewer than 53 (24) bits a number is rounded
    to a double (a float) between them. *)
Lemma round_double_Z_between (x : Q) (lo hi : Z) :
  - 2 ^ 53 < lo -> hi < 2 ^ 53 ->
  (inject_Z lo <= x)%Q -> (x <= inject_Z hi)%Q ->
  exists r, round_double x = Fin r /\ (inject_Z lo <= r)%Q /\ (r <= inject_Z hi)%Q.
Proof.
  intros Hlo Hhi H1 H2.
  destruct (round_to_between 53 (-1074) 1024 x 0 lo hi) as (r & Hr & R1 & R2);
    try assumption; try lia.
  - change (2 ^ (- 0))%Q with 1%Q. now rewrite Qmult_1_r.
  - change (2 ^ (- 0))%Q with 1%Q. now rewrite Qmult_1_r.
  - exists r. change (2 ^ (- 0))%Q with 1%Q in R1, R2.
    rewrite Qmult_1_r in R1, R2. now repeat split.
Qed.

Lemma round_float_Z_between (x : Q) (lo hi : Z) :
  - 2 ^ 24 < lo -> hi < 2 ^ 24 ->
  (inject_Z lo <= x)%Q -> (x <= inject_Z hi)%Q ->
  exists r, round_float x = Fin r /\ (inject_Z lo <= r)%Q /\ (r <= inject_Z hi)%Q.
Proof.
  intros Hlo Hhi H1 H2.
  destruct (round_to_between 24 (-149) 128 x 0 lo hi) as (r & Hr & R1 & R2);
    try assumption; try lia.
  - change (2 ^ (- 0))%Q with 1%Q. now rewrite Qmult_1_r.
  - change (2 ^ (- 0))%Q with 1%Q. now rewrite Qmult_1_r.
  - exists r. change (2 ^ (- 0))%Q with 1%Q in R1, R2.
    rewrite Qmult_1_r in R1, R2. now repeat split.
Qed.

(** A number that 2^k turns into an integer of fewer than 53 bits is a
    double: rounding leaves it as it is. *)
Lemma round_double_exact (x : Q) (k n : Z) :
  0 <= k <= 1074 -> Z.abs n < 2 ^ 53 ->
  (x * inject_Z (2 ^ k) == inject_Z n)%Q ->
  exists r, round_double x = Fin r /\ (r == x)%Q.
Proof.
  intros Hk Hn Hx.
  assert (Hx' : (x == inject_Z n * 2 ^ (- k))%Q).
  { rewrite <- Hx, <- Qmult_assoc, Qpow2_cancel by lia. ring. }
  destruct (round_to_between 53 (-1074) 1024 x k n n) as (r & Hr & H1 & H2);
    try lia.
  - rewrite Hx'. apply Qle_refl.
  - rewrite Hx'. apply Qle_refl.
  - exists r. split; [exact Hr|]. rewrite Hx'. now apply Qle_antisym.
Qed.

(** ** The target count *)

Lemma Qtrunc_minus_one (x : Q) :
  (1 <= x)%Q -> Qtrunc (x - 1)%Q = Qfloor x - 1.
Proof.
  destruct x as [n d]. unfold Qle, Qtrunc, Qfloor. cbn.
  intros H. rewrite Pos.mul_1_r.
  assert (Hd : 0 < Z.pos d) by apply Pos2Z.is_pos.
  assert (Hn : 0 <= n + (-1) * Z.pos d) by lia.
  replace (n * 1 + - (1) * Z.pos d) with (n + (-1) * Z.pos d) by lia.
  rewrite Z.quot_div_nonneg by assumption.
  rewrite Z.div_add by lia. lia.
Qed.

Lemma Qtrunc_floor (x : Q) : (0 <= x)%Q -> Qtrunc x = Qfloor x.
Proof.
  destruct x as [n d]. unfold Qle, Qtrunc, Qfloor. cbn. intros H.
  apply Z.quot_div_nonneg; lia.
Qed.

Lemma Qtrunc_ceiling (x : Q) : (x <= 0)%Q -> Qtrunc x = Qceiling x.
Proof.
  destruct x as [n d]. unfold Qle, Qtrunc, Qceiling, Qfloor, Qopp. cbn. intros H.
  rewrite <- (Z.opp_involutive n) at 1. rewrite Z.quot_opp_l by lia.
  rewrite Z.quot_div_nonneg by lia. reflexivity.
Qed.

Lemma Qtrunc_comp (x y : Q) : (x == y)%Q -> Qtrunc x = Qtrunc y.
Proof.
  intros H. destruct (Qlt_le_dec x 0) as [Hx|Hx].
  - rewrite !Qtrunc_ceiling; [now rewrite H| |].
    + rewrite <- H. now apply Qlt_le_weak.
    + now apply Qlt_le_weak.
  - rewrite !Qtrunc_floor; [now rewrite H| |]; [now rewrite <- H|assumption].
Qed.

Lemma Qtrunc_between (x : Q) (lo hi : Z) :
  (inject_Z lo <= x)%Q -> (x <= inject_Z hi)%Q -> lo <= Qtrunc x <= hi.
Proof.
  intros H1 H2. destruct (Qlt_le_dec x 0) as [Hx|Hx].
  - rewrite Qtrunc_ceiling by now apply Qlt_le_weak. split.
    + apply Qceiling_resp_le in H1. now rewrite Qceiling_Z in H1.
    + apply Qceiling_resp_le in H2. now rewrite Qceiling_Z in H2.
  - rewrite Qtrunc_floor by assumption. split.
    + apply Qfloor_resp_le in H1. now rewrite Qfloor_Z in H1.
    + apply Qfloor_resp_le in H2. now rewrite Qfloor_Z in H2.
Qed.

Lemma Qtrunc_Z (z : Z) : Qtrunc (inject_Z z) = z.
Proof. unfold Qtrunc. cbn. apply Z.quot_1_r. Qed.

Lemma double_to_int_in_range (q : Q) :
  INT_MIN <= Qtrunc q <= INT_MAX -> double_to_int (Fin q) = Qtrunc q.
Proof.
  intros [H1 H2]. unfold double_to_int. cbn zeta.
  destruct (INT_MIN <=? Qtrunc q) eqn:E1; [|lia].
  destruct (Qtrunc q <=? INT_MAX) eqn:E2; [reflexivity|lia].
Qed.

(** The operations of the target's expression one after the other, each
    with its result. *)
Lemma minNumBins_steps (f : Q) (dataSize : Z) (g a b c : Q) :
  round_float f = Fin g ->
  round_double (1 + - g) = Fin a ->
  round_double (a * inject_Z dataSize) = Fin b ->
  round_double (b + - (1)) = Fin c ->
  minNumBins f dataSize = double_to_int (Fin c).
Proof.
  intros Hg Ha Hb Hc. unfold minNumBins. rewrite Hg.
  cbn [dsub dneg dadd rounded]. rewrite Ha.
  cbn [dmul of_int rounded]. rewrite Hb.
  cbn [dsub dneg dadd rounded]. now rewrite Hc.
Qed.

(** For a fraction between 0 and 1 and at most 2^31 samples no rounding
    takes the target out of the range from -1 to [dataSize - 1]. *)
Lemma minNumBins_range (f : Q) (dataSize : Z) :
  (0 <= f)%Q -> (f <= 1)%Q -> 0 <= dataSize <= 2147483648 ->
  -1 <= minNumBins f dataSize <= dataSize - 1.
Proof.
  intros Hf0 Hf1 HN.
  destruct (round_float_Z_between f 0 1) as (g & Hg & G0 & G1);
    [lia|lia|exact Hf0|exact Hf1|].
  assert (Eg1 : (1 + - g + g == 1)%Q) by ring.
  destruct (round_double_Z_between (1 + - g) 0 1) as (a & Ha & A0 & A1);
    [lia|lia| | |].
  { apply (Qplus_le_l _ _ g). rewrite Qplus_0_l, Eg1. exact G1. }
  { apply (Qplus_le_l _ _ g). rewrite Eg1.
    rewrite <- (Qplus_0_r 1) at 1. apply Qplus_le_r. exact G0. }
  assert (HNq : (0 <= inject_Z dataSize)%Q) by (rewrite <- (Zle_Qle 0); lia).
  destruct (round_double_Z_between (a * inject_Z dataSize) 0 dataSize)
    as (b & Hb & B0 & B1); [lia|lia| | |].
  { now apply Qmult_le_0_compat. }
  { rewrite <- (Qmult_1_l (inject_Z dataSize)) at 2.
    apply Qmult_le_compat_r; assumption. }
  destruct (round_double_Z_between (b + - (1)) (-1) (dataSize - 1))
    as (c & Hc & C0 & C1); [lia|lia| | |].
  { change (inject_Z (-1)) with (0 + - (1))%Q. now apply Qplus_le_l. }
  { unfold Z.sub. rewrite inject_Z_plus. now apply Qplus_le_l. }
  rewrite (minNumBins_steps f dataSize g a b c Hg Ha Hb Hc).
  pose proof (Qtrunc_between c _ _ C0 C1) as Ht.
  rewrite double_to_int_in_range; [exact Ht|unfold INT_MIN, INT_MAX; lia].
Qed.

(** When the float that holds the fraction has [k] binary places and
    [dataSize] times 2^k is below 2^53, no operation of the target's
    expression rounds: the target is the integer part of the exact value
    of the expression. *)
Lemma minNumBins_no_rounding (f g : Q) (dataSize k m : Z) :
  round_float f = Fin g ->
  0 <= k <= 52 -> 0 <= m <= 2 ^ k ->
  (g * inject_Z (2 ^ k) == inject_Z m)%Q ->
  0 <= dataSize <= 2147483648 -> dataSize * 2 ^ k < 2 ^ 53 ->
  minNumBins f dataSize = Qtrunc ((1 - g) * inject_Z dataSize - 1)%Q.
Proof.
  intros Hg Hk Hm Hf HN HNk.
  assert (Hp : 0 < 2 ^ k) by (apply Z.pow_pos_nonneg; lia).
  assert (Hp52 : 2 ^ k <= 2 ^ 52) by (apply Z.pow_le_mono_r; lia).
  assert (HT : (0 < inject_Z (2 ^ k))%Q) by (now rewrite <- (Zlt_Qlt 0)).
  destruct (round_double_exact (1 + - g) k (2 ^ k - m)) as (a & Ha & Ea);
    [lia|lia| |].
  { unfold Z.sub. rewrite inject_Z_plus, inject_Z_opp, <- Hf. ring. }
  destruct (round_double_exact (a * inject_Z dataSize) k ((2 ^ k - m) * dataSize))
    as (b & Hb & Eb); [lia|nia| |].
  { rewrite Ea. rewrite inject_Z_mult. unfold Z.sub.
    rewrite inject_Z_plus, inject_Z_opp, <- Hf. ring. }
  assert (Hc3 : ((b + - (1)) * inject_Z (2 ^ k)
                 == inject_Z ((2 ^ k - m) * dataSize - 2 ^ k))%Q).
  { rewrite Eb, Ea. unfold Z.sub.
    rewrite inject_Z_plus, inject_Z_mult, inject_Z_opp, inject_Z_plus,
      inject_Z_opp, <- Hf. ring. }
  destruct (round_double_exact (b + - (1)) k ((2 ^ k - m) * dataSize - 2 ^ k))
    as (c & Hc & Ec); [lia|nia|exact Hc3|].
  rewrite (minNumBins_steps f dataSize g a b c Hg Ha Hb Hc).
  assert (Ecf : (c == (1 - g) * inject_Z dataSize - 1)%Q).
  { rewrite Ec, Eb, Ea. ring. }
  assert (C0 : (inject_Z (-1) <= c)%Q).
  { apply (Qmult_le_r _ _ _ HT).
    rewrite Ec, Hc3, <- inject_Z_mult, <- Zle_Qle. nia. }
  assert (C1 : (c <= inject_Z (dataSize - 1))%Q).
  { apply (Qmult_le_r _ _ _ HT).
    rewrite Ec, Hc3, <- inject_Z_mult, <- Zle_Qle. nia. }
  pose proof (Qtrunc_between c _ _ C0 C1) as Ht.
  rewrite double_to_int_in_range by (unfold INT_MIN, INT_MAX; lia).
  now apply Qtrunc_comp.
Qed.

(** ** Zero expansion iterations *)

Lemma Qeq_bool_inject_Z_pos (c : Z) : 0 < c -> Qeq_bool (inject_Z c) 0 = false.
Proof.
  intros Hc. destruct (Qeq_bool (inject_Z c) 0) eqn:E; [|reflexivity].
  apply Qeq_bool_eq in E. unfold Qeq in E. cbn in E. lia.
Qed.

Lemma inject_Z_nonzero (c : Z) : 0 < c -> ~ (inject_Z c == 0)%Q.
Proof. intros Hc E. unfold Qeq in E. cbn in E. lia. Qed.

Lemma mode_mean (b c : Z) :
  0 < c -> (inject_Z (c * b) / inject_Z c == inject_Z b)%Q.
Proof.
  intros Hc. rewrite inject_Z_mult. field. now apply inject_Z_nonzero.
Qed.

Lemma mode_rms_arg (b c : Z) (tm : Q) :
  0 < c -> (tm == inject_Z b)%Q ->
  (((inject_Z b + - tm) * (inject_Z c * (inject_Z b + - tm))) / inject_Z c == 0)%Q.
Proof.
  intros Hc Htm. rewrite Htm. field. now apply inject_Z_nonzero.
Qed.

(** C10 (as amended): when the target count is at most the count of the
    mode bin, both loops make zero iterations, the computation yields a
    result and the argument of the square root is 0, so that rms = 0;
    when moreover the mode bin is not empty, the truncated mean is the
    mode value and both divisors, the window counts, are positive.  (For
    zero samples the window count is 0 and the mean is 0/0.) *)
Theorem zero_iterations_outcome (fuel : nat) (f : Q) (dataSize : Z)
    (rawadc : list Z) :
  minNumBins f dataSize <= snd (find_max (histogram rawadc)) ->
  exists a,
    analyze fuel f dataSize rawadc = Some a
    /\ a_iterations1 a = O
    /\ a_iterations2 a = O
    /\ a_rmsArg a = Fin 0
    /\ (0 < snd (find_max (histogram rawadc)) ->
        deq (a_truncMean a) (of_int (fst (find_max (histogram rawadc))))
        /\ 0 < binCnt (a_window1 a)
        /\ 0 < binCnt (a_window2 a)).
Proof.
  intros Ht. rewrite analyze_unfold. cbn zeta.
  set (m := histogram rawadc) in *.
  set (b := fst (find_max m)). set (c := snd (find_max m)) in *.
  unfold mean_loop. rewrite while_exit
    by (unfold below; cbn [binCnt]; apply Z.ltb_ge; exact Ht).
  cbn [binCnt sum binAdcMap].
  unfold rms_loop. cbn zeta. rewrite while_exit
    by (unfold below; cbn [binCnt]; apply Z.ltb_ge; exact Ht).
  eexists. split; [reflexivity|].
  cbn [a_iterations1 a_iterations2 a_rmsArg a_truncMean a_window1 a_window2
       binCnt sum].
  split; [reflexivity|]. split; [reflexivity|].
  pose proof (find_max_count_nonneg m) as Hc. fold c in Hc.
  destruct (Z.eq_dec c 0) as [Hz|Hnz].
  - rewrite Hz. split; [reflexivity|]. lia.
  - assert (Hpos : 0 < c) by lia.
    unfold of_int, ddiv. rewrite Qeq_bool_inject_Z_pos by assumption.
    cbn [dsub dneg dadd dmul].
    split.
    + unfold dmax, dlt.
      match goal with |- context [Qle_bool ?x 0] => 
        assert (Hx : Qle_bool x 0 = true)
      end.
      { apply Qle_bool_iff. rewrite mode_rms_arg.
        - apply Qle_refl.
        - assumption.
        - now apply mode_mean. }
      now rewrite Hx.
    + intros _. split; [|split; assumption].
      cbn [deq]. now apply mode_mean.
Qed.

(** C10, witness: eight samples of value 5 of a digit of ten samples,
    truncation fraction one half: the target is 4, the mode bin holds 8. *)
Lemma zero_iterations_outcome_witness :
  exists a,
    analyze 0 (1 # 2) 10 [5; 5; 5; 5; 5; 5; 5; 5] = Some a
    /\ a_iterations1 a = O
    /\ a_iterations2 a = O
    /\ a_rmsArg a = Fin 0.
Proof.
  destruct (zero_iterations_outcome 0 (1 # 2) 10 [5; 5; 5; 5; 5; 5; 5; 5])
    as (a & Ha & H1 & H2 & H3 & _).
  - vm_compute. discriminate.
  - exists a. repeat split; assumption.
Defined.

(** C10, counterexample: a digit without samples.  The target (-1) is
    below the count of the mode bin (0) and no iteration is made, but the
    window count is 0, the mean is 0/0 and not the mode value (-1). *)
Lemma zero_samples_mean_is_not_the_mode :
  exists a,
    analyze_digit 0 cfg_half 8 digit_empty = Some a
    /\ a_minNumBins a <= a_binMaxCnt a
    /\ a_iterations1 a = O
    /\ a_binMax a = -1
    /\ binCnt (a_window1 a) = 0
    /\ a_truncMean a = NaN
    /\ ~ deq (a_truncMean a) (of_int (a_binMax a)).
Proof.
  eexists. split; [vm_compute; reflexivity|].
  cbn. repeat split; try reflexivity; try lia; tauto.
Qed.

(** ** The two expansion loops side by side *)

Lemma at_inv (k : Z) (m : StdMap.t) (v : Z) (m' : StdMap.t) :
  StdMap.at_ k m = (v, m') -> v = StdMap.get m k /\ same_reads m' m.
Proof.
  intros E. split.
  - unfold StdMap.get. now rewrite E.
  - pose proof (at_reads k m) as H. now rewrite E in H.
Qed.

Lemma mean_side_spec (idx : Z) (w : Window) :
  let c := StdMap.get (binAdcMap w) (to_short idx) in
  binCnt (mean_side idx w) = binCnt w + c
  /\ binOffset (mean_side idx w) = binOffset w
  /\ same_reads (binAdcMap (mean_side idx w)) (binAdcMap w)
  /\ bins (mean_side idx w) = bins w ++ (if c =? 0 then [] else [to_short idx]).
Proof.
  cbn zeta. unfold mean_side.
  destruct (StdMap.at_ (to_short idx) (binAdcMap w)) as [c0 m0] eqn:E0.
  apply at_inv in E0 as [-> R0].
  destruct (StdMap.get (binAdcMap w) (to_short idx) =? 0) eqn:Ez; cbn [negb].
  - apply Z.eqb_eq in Ez. cbn [binCnt binOffset binAdcMap bins].
    rewrite Ez, app_nil_r. repeat split; [lia|exact R0].
  - destruct (StdMap.at_ (to_short idx) m0) as [c1 m1] eqn:E1.
    apply at_inv in E1 as [-> R1].
    destruct (StdMap.at_ (to_short idx) m1) as [c2 m2] eqn:E2.
    apply at_inv in E2 as [-> R2].
    cbn [binCnt binOffset binAdcMap bins]. rewrite R0. repeat split.
    intros k. now rewrite R2, R1, R0.
Qed.

Lemma rms_side_spec (tm : double) (idx : Z) (w : Window) :
  let c := StdMap.get (binAdcMap w) (to_short idx) in
  binCnt (rms_side tm idx w) = binCnt w + (if c >? 0 then c else 0)
  /\ binOffset (rms_side tm idx w) = binOffset w
  /\ same_reads (binAdcMap (rms_side tm idx w)) (binAdcMap w)
  /\ bins (rms_side tm idx w) = bins w ++ (if c >? 0 then [to_short idx] else []).
Proof.
  cbn zeta. unfold rms_side.
  destruct (StdMap.at_ (to_short idx) (binAdcMap w)) as [c0 m0] eqn:E0.
  apply at_inv in E0 as [-> R0].
  destruct (StdMap.get (binAdcMap w) (to_short idx) >? 0) eqn:Ez.
  - destruct (StdMap.at_ (to_short idx) m0) as [c1 m1] eqn:E1.
    apply at_inv in E1 as [-> R1].
    cbn [binCnt binOffset binAdcMap bins]. rewrite R0. repeat split.
    intros k. now rewrite R1, R0.
  - cbn [binCnt binOffset binAdcMap bins].
    rewrite app_nil_r. repeat split; [lia|exact R0].
Qed.

(** What an iteration of the first loop does to the count, the offset,
    the reads of the map and the bins accumulated. *)
Lemma mean_body_spec (binMax : Z) (w : Window) :
  let lo := StdMap.get (binAdcMap w) (to_short (binMax - binOffset w)) in
  let hi := StdMap.get (binAdcMap w) (to_short (binMax + binOffset w)) in
  binCnt (mean_body binMax w) = binCnt w + lo + hi
  /\ binOffset (mean_body binMax w) = to_short (binOffset w + 1)
  /\ same_reads (binAdcMap (mean_body binMax w)) (binAdcMap w)
  /\ bins (mean_body binMax w) =
       bins w ++ (if lo =? 0 then [] else [to_short (binMax - binOffset w)])
              ++ (if hi =? 0 then [] else [to_short (binMax + binOffset w)]).
Proof.
  cbn zeta. unfold mean_body. cbn [binCnt binOffset binAdcMap bins].
  destruct (mean_side_spec (binMax - binOffset w) w) as (C1 & O1 & R1 & B1).
  destruct (mean_side_spec (binMax + binOffset w)
              (mean_side (binMax - binOffset w) w)) as (C2 & O2 & R2 & B2).
  cbn zeta in *. rewrite !R1 in C2, B2.
  rewrite C2, C1, B2, B1, <- app_assoc. repeat split.
  intros k. now rewrite R2, R1.
Qed.

(** The same for the second loop, whose test is [> 0]. *)
Lemma rms_body_spec (binMax : Z) (tm : double) (w : Window) :
  let lo := StdMap.get (binAdcMap w) (to_short (binMax - binOffset w)) in
  let hi := StdMap.get (binAdcMap w) (to_short (binMax + binOffset w)) in
  binCnt (rms_body binMax tm w) =
    binCnt w + (if lo >? 0 then lo else 0) + (if hi >? 0 then hi else 0)
  /\ binOffset (rms_body binMax tm w) = to_short (binOffset w + 1)
  /\ same_reads (binAdcMap (rms_body binMax tm w)) (binAdcMap w)
  /\ bins (rms_body binMax tm w) =
       bins w ++ (if lo >? 0 then [to_short (binMax - binOffset w)] else [])
              ++ (if hi >? 0 then [to_short (binMax + binOffset w)] else []).
Proof.
  cbn zeta. unfold rms_body. cbn [binCnt binOffset binAdcMap bins].
  destruct (rms_side_spec tm (binMax - binOffset w) w) as (C1 & O1 & R1 & B1).
  destruct (rms_side_spec tm (binMax + binOffset w)
              (rms_side tm (binMax - binOffset w) w)) as (C2 & O2 & R2 & B2).
  cbn zeta in *. rewrite !R1 in C2, B2.
  rewrite C2, C1, B2, B1, <- app_assoc. repeat split.
  intros k. now rewrite R2, R1.
Qed.

Lemma positive_test_nonneg (c : Z) :
  0 <= c ->
  (if c >? 0 then c else 0) = c
  /\ forall (A : Type) (x y : A),
       (if c >? 0 then x else y) = (if c =? 0 then y else x).
Proof.
  intros Hc. destruct (c >? 0) eqn:E1, (c =? 0) eqn:E2; split; intros; lia || auto;
    try (apply Z.eqb_eq in E2); try (apply Z.eqb_neq in E2); lia.
Qed.

(** Run from states that agree on count, offset and bins, over maps that
    read alike and hold no negative count, the second loop makes the same
    iterations as the first. *)
Lemma loops_in_step (binMax target : Z) (tm : double) (fuel : nat) :
  forall (w1 w2 : Window) (n : nat) (w1' : Window),
    counts_nonneg (binAdcMap w1) ->
    same_reads (binAdcMap w2) (binAdcMap w1) ->
    binCnt w2 = binCnt w1 ->
    binOffset w2 = binOffset w1 ->
    bins w2 = bins w1 ->
    while (below target) (mean_body binMax) fuel w1 = Some (n, w1') ->
    exists w2',
      while (below target) (rms_body binMax tm) fuel w2 = Some (n, w2')
      /\ binCnt w2' = binCnt w1'
      /\ binOffset w2' = binOffset w1'
      /\ bins w2' = bins w1'
      /\ same_reads (binAdcMap w1') (binAdcMap w1).
Proof.
  induction fuel as [|fuel IH]; intros w1 w2 n w1' Hnn Hrd Hc Ho Hb Hrun.
  - cbn in Hrun |- *. unfold below in *. rewrite Hc.
    destruct (binCnt w1 <? target); [discriminate|].
    injection Hrun as <- <-. exists w2. repeat split; assumption.
  - destruct (below target w1) eqn:Hcond.
    + rewrite while_step in Hrun by assumption.
      rewrite while_step by (unfold below in *; now rewrite Hc).
      destruct (while (below target) (mean_body binMax) fuel (mean_body binMax w1))
        as [[n0 w0]|] eqn:Hrec; [|discriminate].
      injection Hrun as <- <-.
      destruct (mean_body_spec binMax w1) as (C1 & O1 & R1 & B1).
      destruct (rms_body_spec binMax tm w2) as (C2 & O2 & R2 & B2).
      cbn zeta in *. rewrite Ho, !Hrd in C2, B2.
      destruct (positive_test_nonneg _ (Hnn (to_short (binMax - binOffset w1))))
        as [Elo Elo'].
      destruct (positive_test_nonneg _ (Hnn (to_short (binMax + binOffset w1))))
        as [Ehi Ehi'].
      rewrite Elo, Ehi in C2. rewrite Elo', Ehi' in B2.
      destruct (IH (mean_body binMax w1) (rms_body binMax tm w2) n0 w0)
        as (w2' & Hrun2 & Hc' & Ho' & Hb' & Hrd'); try assumption.
      * intros k. rewrite R1. apply Hnn.
      * intros k. now rewrite R2, R1, Hrd.
      * rewrite C2, C1, Hc. reflexivity.
      * rewrite O2, O1, Ho. reflexivity.
      * rewrite B2, B1, Hb. reflexivity.
      * exists w2'. rewrite Hrun2. repeat split; try assumption.
        intros k. now rewrite Hrd', R1.
    + rewrite while_exit in Hrun by assumption. injection Hrun as <- <-.
      rewrite while_exit by (unfold below in *; now rewrite Hc).
      exists w2. repeat split; assumption.
Qed.

(** Over a histogram without a negative count, as the counts of
    occurrences of fewer than 32768 samples are, the two loops go
    together: when the first loop ends after n iterations the second
    loop, run on the map the first one leaves, ends after the same n
    iterations, with the same count, the same offset and the same bins
    accumulated in the same order; so the computation for a vector of
    fewer than 32768 samples returns as soon as its first loop ends, with
    the same iterations, final count, offset and bins in both loops. *)
Lemma loops_agree_without_negative_counts :
  (forall (m : StdMap.t) (binMax binMaxCnt target : Z) (truncMean : double)
          (fuel n : nat) (w1 : Window),
     counts_nonneg m ->
     mean_loop fuel m binMax binMaxCnt target = Some (n, w1) ->
     exists w2,
       rms_loop fuel (binAdcMap w1) binMax binMaxCnt target truncMean = Some (n, w2)
       /\ binCnt w2 = binCnt w1
       /\ binOffset w2 = binOffset w1
       /\ bins w2 = bins w1)
  /\ (forall (fuel : nat) (f : Q) (dataSize : Z) (rawadc : list Z)
             (n : nat) (w1 : Window),
        Z.of_nat (length rawadc) < 32768 ->
        mean_loop fuel (histogram rawadc) (fst (find_max (histogram rawadc)))
                  (snd (find_max (histogram rawadc))) (minNumBins f dataSize)
          = Some (n, w1) ->
        exists a,
          analyze fuel f dataSize rawadc = Some a
          /\ a_iterations1 a = n
          /\ a_iterations2 a = n
          /\ binCnt (a_window2 a) = binCnt (a_window1 a)
          /\ binOffset (a_window2 a) = binOffset (a_window1 a)
          /\ bins (a_window2 a) = bins (a_window1 a)).
Proof.
  assert (Hloops : forall (m : StdMap.t) (binMax binMaxCnt target : Z)
          (truncMean : double) (fuel n : nat) (w1 : Window),
     counts_nonneg m ->
     mean_loop fuel m binMax binMaxCnt target = Some (n, w1) ->
     exists w2,
       rms_loop fuel (binAdcMap w1) binMax binMaxCnt target truncMean = Some (n, w2)
       /\ binCnt w2 = binCnt w1
       /\ binOffset w2 = binOffset w1
       /\ bins w2 = bins w1).
  { intros m binMax binMaxCnt target truncMean fuel n w1 Hnn Hrun.
    unfold mean_loop in Hrun. unfold rms_loop. cbn zeta.
    set (w0 := mkWindow binMaxCnt (of_int (binMaxCnt * binMax)) 1 m []) in Hrun.
    assert (Hrd : same_reads (binAdcMap w1) m).
    { destruct (loops_in_step binMax target truncMean fuel w0 w0 n w1)
        as (w2 & _ & _ & _ & _ & H);
        try reflexivity; try exact Hnn; try exact Hrun; try exact H.
      intros k. reflexivity. }
    match goal with |- context [while _ _ fuel ?w] => set (v0 := w) end.
    destruct (loops_in_step binMax target truncMean fuel w0 v0 n w1)
      as (w2 & Hrun2 & Hc & Ho & Hb & _);
      try reflexivity; try exact Hnn; try exact Hrun; try exact Hrd.
    exists w2. repeat split; assumption. }
  split; [exact Hloops|].
  intros fuel f dataSize rawadc n w1 Hlen Hrun.
  rewrite analyze_unfold. cbn zeta. rewrite Hrun.
  destruct (Hloops _ _ _ _ (ddiv (sum w1) (of_int (binCnt w1))) _ _ _
              (histogram_counts_nonneg rawadc Hlen) Hrun)
    as (w2 & Hrun2 & Hc & Ho & Hb).
  rewrite Hrun2. eexists. split; [reflexivity|].
  cbn [a_iterations1 a_iterations2 a_window1 a_window2]. repeat split; assumption.
Qed.

(** C9, at the failing input: a digit of 65695 samples, 65535 of value
    7, 100 of value 8 and 60 of value 9, with the truncation fraction
    511/512.  The 16-bit count of the value 7 has come round to -1, the
    mode is 8 with the count 100 and the target is 127.  Both loops make
    one iteration, over the bins 7 and 9.  The first loop tests the count
    of bin 7 with [if (count)] and accumulates it: its bins are 7 and 9
    and its count 100 - 1 + 60 = 159.  The second loop tests it with
    [if (count > 0)] and skips it: its only bin is 9 and its count
    100 + 60 = 160.  More fuel changes nothing. *)
Theorem second_loop_skips_a_wrapped_count (fuel : nat) :
  histogram (rawadc_of (Z.min 65695 (rd_Samples digit_wrapped)) digit_wrapped)
    = [(7, -1); (8, 100); (9, 60)]
  /\ minNumBins (fTruncMeanFraction cfg_wrapped) (rd_Samples digit_wrapped) = 127
  /\ exists a,
       analyze_digit (S fuel) cfg_wrapped 65695 digit_wrapped = Some a
       /\ a_binMax a = 8
       /\ a_binMaxCnt a = 100
       /\ a_minNumBins a = 127
       /\ a_iterations1 a = 1%nat
       /\ a_iterations2 a = 1%nat
       /\ bins (a_window1 a) = [7; 9]
       /\ binCnt (a_window1 a) = 159
       /\ bins (a_window2 a) = [9]
       /\ binCnt (a_window2 a) = 160.
Proof.
  split; [vm_compute; reflexivity|]. split; [vm_compute; reflexivity|].
  assert (H : match analyze_digit 1 cfg_wrapped 65695 digit_wrapped with
              | Some a =>
                  Some (a_binMax a, a_binMaxCnt a, a_minNumBins a,
                        a_iterations1 a, a_iterations2 a,
                        bins (a_window1 a), binCnt (a_window1 a),
                        bins (a_window2 a), binCnt (a_window2 a))
              | None => None
              end = Some (8, 100, 127, 1%nat, 1%nat, [7; 9], 159, [9], 160))
    by (vm_compute; reflexivity).
  destruct (analyze_digit 1 cfg_wrapped 65695 digit_wrapped) as [a|] eqn:E;
    [|discriminate H].
  injection H as H1 H2 H3 H4 H5 H6 H7 H8 H9.
  exists a. split.
  - apply (analyze_digit_more_fuel 1 (S fuel) _ _ _ a E). lia.
  - repeat split; assumption.
Qed.

(** ** A loop that does not end *)

Lemma get_nil (k : Z) : StdMap.get [] k = 0.
Proof. reflexivity. Qed.

(** Over a map that reads 0 everywhere an iteration leaves the count as
    it is, and the map still reads 0 everywhere. *)
Lemma mean_body_no_counts (binMax : Z) (w : Window) :
  (forall k, StdMap.get (binAdcMap w) k = 0) ->
  binCnt (mean_body binMax w) = binCnt w
  /\ forall k, StdMap.get (binAdcMap (mean_body binMax w)) k = 0.
Proof.
  intros Hz. destruct (mean_body_spec binMax w) as (C & _ & R & _).
  cbn zeta in C. rewrite !Hz in C. split; [lia|].
  intros k. now rewrite R.
Qed.

Lemma iter_no_counts (binMax : Z) (w : Window) (n : nat) :
  (forall k, StdMap.get (binAdcMap w) k = 0) ->
  binCnt (Nat.iter n (mean_body binMax) w) = binCnt w
  /\ forall k, StdMap.get (binAdcMap (Nat.iter n (mean_body binMax) w)) k = 0.
Proof.
  intros Hz. induction n as [|n [IHc IHz]]; [now split|].
  rewrite Nat.iter_succ.
  destruct (mean_body_no_counts binMax _ IHz) as [Hc Hz'].
  split; [now rewrite Hc|exact Hz'].
Qed.

Lemma mean_loop_stuck (binMax target : Z) (fuel : nat) :
  forall w : Window,
    (forall k, StdMap.get (binAdcMap w) k = 0) ->
    binCnt w < target ->
    while (below target) (mean_body binMax) fuel w = None.
Proof.
  induction fuel as [|fuel IH]; intros w Hz Hlt.
  - cbn. unfold below. now rewrite (proj2 (Z.ltb_lt _ _) Hlt).
  - rewrite while_step by (unfold below; now apply Z.ltb_lt).
    destruct (mean_body_no_counts binMax w Hz) as [Hc Hz'].
    rewrite IH; [reflexivity|exact Hz'|lia].
Qed.

(** A digit without samples: no iteration, whatever the fuel. *)
Lemma analyze_no_samples (fuel : nat) :
  analyze fuel (1 # 2) 0 [] =
    Some (mkAnalysis (-1) 0 (-1) 0 (mkWindow 0 (Fin 0) 1 [] []) NaN
                     0 (mkWindow 0 NaN 1 [] []) (Fin 0)).
Proof.
  rewrite analyze_unfold. cbn zeta.
  change (histogram []) with (@nil (Z * Z)).
  change (find_max []) with (-1, 0). cbn [fst snd].
  change (minNumBins (1 # 2) 0) with (-1).
  unfold mean_loop. rewrite while_exit by reflexivity.
  cbn [sum binCnt binAdcMap]. unfold rms_loop. cbn zeta.
  rewrite while_exit by reflexivity. reflexivity.
Qed.

(** C2, at the failing input: an event of two digits in the default
    provider's detector, the first without samples, the second (channel
    1) with ten.  The first digit is processed and brings
    [maxTimeSamples] to 0; for the second the histogram is empty and the
    target is 4: after any number of iterations of the first loop the
    count is still 0 and the loop condition still holds, so that no
    amount of fuel gives a result. *)
Theorem first_loop_never_ends_on_empty_histogram (fuel : nat) :
  process_digit fuel cfg_half (8, p_default) digit_empty = Some (0, p_default)
  /\ rawadc_of (Z.min 0 (rd_Samples digit_ten)) digit_ten = []
  /\ minNumBins (fTruncMeanFraction cfg_half) (rd_Samples digit_ten) = 4
  /\ (forall n,
        below 4 (Nat.iter n (mean_body (-1)) (mkWindow 0 (of_int (0 * -1)) 1 [] []))
        = true)
  /\ analyze_digit fuel cfg_half 0 digit_ten = None
  /\ FindNoisyChannels fuel cfg_half 8 p_default (Some [digit_empty; digit_ten])
     = None.
Proof.
  assert (H1 : process_digit fuel cfg_half (8, p_default) digit_empty
               = Some (0, p_default)).
  { unfold process_digit.
    change (IsBad p_default (rd_Channel digit_empty)
            || negb (IsPresent p_default (rd_Channel digit_empty))) with false.
    cbv iota.
    change (analyze_digit fuel cfg_half 8 digit_empty)
      with (analyze fuel (1 # 2) 0 []).
    rewrite analyze_no_samples. reflexivity. }
  assert (H2 : analyze_digit fuel cfg_half 0 digit_ten = None).
  { change (analyze_digit fuel cfg_half 0 digit_ten)
      with (analyze fuel (1 # 2) 10 []).
    rewrite analyze_unfold. cbn zeta.
    change (histogram []) with (@nil (Z * Z)).
    change (find_max []) with (-1, 0). cbn [fst snd].
    change (minNumBins (1 # 2) 10) with 4.
    unfold mean_loop. rewrite mean_loop_stuck; [reflexivity| |cbn; lia].
    intros k. apply get_nil. }
  split; [exact H1|]. split; [reflexivity|]. split; [reflexivity|].
  split; [|split; [exact H2|]].
  - intros n. unfold below.
    destruct (iter_no_counts (-1) (mkWindow 0 (of_int (0 * -1)) 1 [] []) n get_nil)
      as [Hc _].
    rewrite Hc. reflexivity.
  - unfold FindNoisyChannels. cbn [digits_loop]. rewrite H1.
    cbn [mbind option_bind]. unfold process_digit.
    change (IsBad p_default (rd_Channel digit_ten)
            || negb (IsPresent p_default (rd_Channel digit_ten))) with false.
    cbv iota. rewrite H2. reflexivity.
Qed.

(** ** When the loops end

    Over a histogram of occurrence counts that is not empty the first
    loop ends whatever the target: the offset is a [short], so the keys
    read come round again every 65536 iterations and each round adds the
    counts once more. *)

Ltac short_lia := unfold to_short in *; Z.div_mod_to_equations; lia.

Lemma to_short_range (z : Z) : -32768 <= to_short z < 32768.
Proof. short_lia. Qed.

Lemma to_short_add (a b : Z) : to_short (to_short a + b) = to_short (a + b).
Proof. short_lia. Qed.

Lemma to_short_back (b k : Z) :
  to_short (b - to_short (b - to_short k)) = to_short k.
Proof. short_lia. Qed.

Lemma to_short_reach (o t : Z) :
  -32768 <= o < 32768 -> -32768 <= t < 32768 ->
  to_short (o + (t - o) mod 65536) = t.
Proof. intros. short_lia. Qed.

Lemma iter_mean_body (binMax : Z) (w : Window) (n : nat) :
  counts_nonneg (binAdcMap w) ->
  -32768 <= binOffset w < 32768 ->
  binCnt w <= binCnt (Nat.iter n (mean_body binMax) w)
  /\ binOffset (Nat.iter n (mean_body binMax) w) = to_short (binOffset w + Z.of_nat n)
  /\ same_reads (binAdcMap (Nat.iter n (mean_body binMax) w)) (binAdcMap w).
Proof.
  intros Hnn Ho. induction n as [|n (IHc & IHo & IHr)].
  - unfold Nat.iter; cbn [nat_rect]. split; [lia|]. split; [|intros k; reflexivity].
    rewrite Z.add_0_r. symmetry. now apply to_short_small.
  - rewrite Nat.iter_succ.
    destruct (mean_body_spec binMax (Nat.iter n (mean_body binMax) w))
      as (C & O & R & _).
    cbn zeta in C. rewrite !IHr in C.
    pose proof (Hnn (to_short (binMax - binOffset (Nat.iter n (mean_body binMax) w)))).
    pose proof (Hnn (to_short (binMax + binOffset (Nat.iter n (mean_body binMax) w)))).
    split; [lia|]. split.
    + rewrite O, IHo, to_short_add. f_equal. lia.
    + intros k. now rewrite R, IHr.
Qed.

(** From any state, within 65536 iterations the count has grown. *)
Lemma mean_body_progress (binMax : Z) (w : Window) (k : Z) :
  counts_nonneg (binAdcMap w) ->
  -32768 <= binOffset w < 32768 ->
  0 < StdMap.get (binAdcMap w) (to_short k) ->
  exists n,
    binCnt w + 1 <= binCnt (Nat.iter n (mean_body binMax) w).
Proof.
  intros Hnn Ho Hk.
  set (t := to_short (binMax - to_short k)).
  set (n := Z.to_nat ((t - binOffset w) mod 65536)).
  destruct (iter_mean_body binMax w n Hnn Ho) as (Hc & Hoff & Hr).
  assert (Hn : Z.of_nat n = (t - binOffset w) mod 65536).
  { unfold n. rewrite Z2Nat.id; [reflexivity|]. apply Z.mod_pos_bound. lia. }
  rewrite Hn, to_short_reach in Hoff by (assumption || apply to_short_range).
  exists (S n). rewrite Nat.iter_succ.
  destruct (mean_body_spec binMax (Nat.iter n (mean_body binMax) w)) as (C & _).
  cbn zeta in C. rewrite !Hr, Hoff in C. unfold t in C.
  rewrite to_short_back in C.
  pose proof (Hnn (to_short (binMax + to_short (binMax - to_short k)))).
  lia.
Qed.

Lemma mean_body_reaches (binMax target : Z) (k : Z) (d : nat) :
  forall w : Window,
    counts_nonneg (binAdcMap w) ->
    -32768 <= binOffset w < 32768 ->
    0 < StdMap.get (binAdcMap w) (to_short k) ->
    target - binCnt w <= Z.of_nat d ->
    exists n, below target (Nat.iter n (mean_body binMax) w) = false.
Proof.
  induction d as [|d IH]; intros w Hnn Ho Hk Hd.
  - exists O. unfold Nat.iter; cbn [nat_rect]. unfold below. apply Z.ltb_ge. lia.
  - destruct (mean_body_progress binMax w k Hnn Ho Hk) as [n Hn].
    destruct (iter_mean_body binMax w n Hnn Ho) as (_ & Hoff & Hr).
    destruct (IH (Nat.iter n (mean_body binMax) w)) as [n' Hn'].
    + intros k'. rewrite Hr. apply Hnn.
    + rewrite Hoff. apply to_short_range.
    + now rewrite Hr.
    + lia.
    + exists (n' + n)%nat. now rewrite Nat.iter_add.
Qed.

Lemma while_ends {St : Type} (cond : St -> bool) (body : St -> St) (n : nat) :
  forall s : St,
    cond (Nat.iter n body s) = false ->
    exists fuel n' s', while cond body fuel s = Some (n', s').
Proof.
  induction n as [|n IH]; intros s Hn.
  - exists O, O, s. now apply while_exit.
  - destruct (cond s) eqn:E.
    + rewrite Nat.iter_succ_r in Hn.
      destruct (IH (body s) Hn) as (fuel & n' & s' & Hrun).
      exists (S fuel), (S n'), s'. rewrite while_step by assumption.
      now rewrite Hrun.
    + exists O, O, s. now apply while_exit.
Qed.

(** Over a histogram of occurrence counts that holds a sample, the first
    loop ends. *)
Lemma mean_loop_ends (m : StdMap.t) (binMax binMaxCnt target k : Z) :
  counts_nonneg m ->
  0 < StdMap.get m (to_short k) ->
  exists fuel n w, mean_loop fuel m binMax binMaxCnt target = Some (n, w).
Proof.
  intros Hnn Hk. unfold mean_loop.
  set (w0 := mkWindow binMaxCnt (of_int (binMaxCnt * binMax)) 1 m []).
  destruct (mean_body_reaches binMax target k
              (Z.to_nat (target - binCnt w0)) w0) as [n Hn];
    try assumption; [cbn; lia|lia|].
  exact (while_ends (below target) (mean_body binMax) n w0 Hn).
Qed.

(** The computation returns for every non-empty vector of fewer than
    32768 samples (of [short] values), whatever the digit's sample count
    and the truncation fraction. *)
Lemma analyze_returns (f : Q) (dataSize : Z) (rawadc : list Z) :
  rawadc <> [] ->
  Z.of_nat (length rawadc) < 32768 ->
  (forall x, In x rawadc -> -32768 <= x < 32768) ->
  exists fuel a, analyze fuel f dataSize rawadc = Some a.
Proof.
  intros Hne Hlen Hshort.
  destruct rawadc as [|x l] eqn:Eraw; [contradiction|]. rewrite <- Eraw in *.
  assert (Hx : In x rawadc) by (rewrite Eraw; now left).
  assert (Hk : 0 < StdMap.get (histogram rawadc) (to_short x)).
  { rewrite to_short_small by (now apply Hshort).
    rewrite histogram_counts by assumption. now apply occurrences_pos_In. }
  pose proof (histogram_counts_nonneg rawadc Hlen) as Hnn.
  destruct (mean_loop_ends (histogram rawadc)
              (fst (find_max (histogram rawadc)))
              (snd (find_max (histogram rawadc)))
              (minNumBins f dataSize) x Hnn Hk) as (fuel & n & w1 & Hrun).
  exists fuel. rewrite analyze_unfold. cbn zeta. rewrite Hrun.
  unfold mean_loop in Hrun. unfold rms_loop. cbn zeta.
  match goal with |- context [while _ (rms_body ?b ?tm) fuel ?w] =>
    destruct (loops_in_step b (minNumBins f dataSize) tm fuel
                (mkWindow (snd (find_max (histogram rawadc)))
                   (of_int (snd (find_max (histogram rawadc))
                            * fst (find_max (histogram rawadc)))) 1
                   (histogram rawadc) [])
                w n w1) as (w2 & Hrun2 & _)
  end; try reflexivity; try exact Hnn; try exact Hrun.
  - destruct (loops_in_step (fst (find_max (histogram rawadc)))
                (minNumBins f dataSize) NaN fuel
                (mkWindow (snd (find_max (histogram rawadc)))
                   (of_int (snd (find_max (histogram rawadc))
                            * fst (find_max (histogram rawadc)))) 1
                   (histogram rawadc) [])
                (mkWindow (snd (find_max (histogram rawadc)))
                   (of_int (snd (find_max (histogram rawadc))
                            * fst (find_max (histogram rawadc)))) 1
                   (histogram rawadc) [])
                n w1) as (_ & _ & _ & _ & _ & Hrd);
      try reflexivity; try exact Hnn; try exact Hrun; try exact Hrd.
    intros k. reflexivity.
  - rewrite Hrun2. eexists. reflexivity.
Qed.

(** ** The target count of a digit *)

Lemma In_resize (n : nat) (y : Z) (l : list Z) (x : Z) :
  In x (resize n y l) -> x = y \/ In x l.
Proof.
  revert n. induction l as [|a l IH]; intros n Hin.
  - left. rewrite resize_nil in Hin.
    apply list_elem_of_In, elem_of_replicate in Hin. tauto.
  - destruct n as [|n]; [destruct Hin|].
    cbn in Hin. destruct Hin as [->|Hin]; [right; now left|].
    apply IH in Hin as [->|Hin]; [now left|right; now right].
Qed.

Lemma loop_stops (body : Window -> Window) (target : Z) (fuel n : nat)
    (w0 w : Window) :
  while (below target) body fuel w0 = Some (n, w) ->
  target <= binCnt w
  /\ (n <> O -> exists prev, w = body prev /\ binCnt prev < target).
Proof.
  intros Hrun. apply while_result in Hrun as (Hw & Hc & Hi).
  split; [unfold below in Hc; now apply Z.ltb_ge|].
  intros Hn. destruct n as [|n']; [contradiction|].
  exists (Nat.iter n' body w0). split; [now rewrite Hw, Nat.iter_succ|].
  specialize (Hi n' (Nat.lt_succ_diag_r n')). unfold below in Hi.
  now apply Z.ltb_lt.
Qed.

(** C5 (as amended): for a digit that is not clipped (its N samples are
    all histogrammed) the target count is the value of the expression
    [(1. - fTruncMeanFraction) * dataSize - 1] converted to [int], the
    fraction being the number that the float holds.  When that number g
    lies in [0, 1] and has k binary places, with N x 2^k < 2^53 and
    N <= 2^31, no operation rounds: the target is the integer part,
    toward zero, of (1 - g) x N - 1, which is floor((1 - g) x N) - 1
    whenever (1 - g) x N >= 1.  Both loops run to that count: each ends
    with its count at or above it, after a last iteration that started
    below it; and for 1 to 32767 samples the computation returns. *)
Theorem target_is_the_converted_double_expression (cfg : FilterConfig)
    (maxTimeSamples : Z) (d : RawDigit) (g : Q) (k m : Z) :
  0 <= rd_Samples d <= maxTimeSamples ->
  rd_Samples d <= 2147483648 ->
  round_float (fTruncMeanFraction cfg) = Fin g ->
  0 <= k <= 52 -> 0 <= m <= 2 ^ k ->
  (g * inject_Z (2 ^ k) == inject_Z m)%Q ->
  rd_Samples d * 2 ^ k < 2 ^ 53 ->
  let N := rd_Samples d in
  let T := Qtrunc ((1 - g) * inject_Z N - 1)%Q in
  length (rawadc_of (Z.min maxTimeSamples N) d) = Z.to_nat N
  /\ minNumBins (fTruncMeanFraction cfg) N = T
  /\ ((1 <= (1 - g) * inject_Z N)%Q ->
      T = Qfloor ((1 - g) * inject_Z N)%Q - 1)
  /\ (forall fuel a,
        analyze_digit fuel cfg maxTimeSamples d = Some a ->
        T <= binCnt (a_window1 a)
        /\ T <= binCnt (a_window2 a)
        /\ (a_iterations1 a <> O ->
            exists prev,
              a_window1 a = mean_body (a_binMax a) prev /\ binCnt prev < T)
        /\ (a_iterations2 a <> O ->
            exists prev,
              a_window2 a = rms_body (a_binMax a) (a_truncMean a) prev
              /\ binCnt prev < T))
  /\ (0 < N < 32768 ->
      (forall x, In x (rd_ADCs d) -> -32768 <= x < 32768) ->
      exists fuel a, analyze_digit fuel cfg maxTimeSamples d = Some a).
Proof.
  intros HN HN31 Hg Hk Hm Hgk HNk N T.
  split.
  { unfold rawadc_of. rewrite length_resize. f_equal. subst N. lia. }
  assert (HT : minNumBins (fTruncMeanFraction cfg) N = T).
  { apply (minNumBins_no_rounding _ g N k m); try assumption. subst N. lia. }
  split; [exact HT|].
  split; [intros H1; subst T; now apply Qtrunc_minus_one|].
  split.
  - intros fuel a Ha. unfold analyze_digit in Ha. rewrite analyze_unfold in Ha.
    cbn zeta in Ha. fold N in Ha. rewrite HT in Ha.
    destruct (mean_loop _ _ _ _ _) as [[n1 w1]|] eqn:E1; [|discriminate].
    destruct (rms_loop _ _ _ _ _ _) as [[n2 w2]|] eqn:E2; [|discriminate].
    injection Ha as <-.
    cbn [a_window1 a_window2 a_iterations1 a_iterations2 a_binMax a_truncMean].
    unfold mean_loop in E1. unfold rms_loop in E2. cbn zeta in E2.
    destruct (loop_stops _ _ _ _ _ _ E1) as [S1 P1].
    destruct (loop_stops _ _ _ _ _ _ E2) as [S2 P2].
    split; [exact S1|]. split; [exact S2|]. split; [exact P1|exact P2].
  - intros HNs Hshort. unfold analyze_digit. fold N.
    apply analyze_returns.
    + intros Hnil. apply (f_equal (@length Z)) in Hnil.
      unfold rawadc_of in Hnil. rewrite length_resize in Hnil.
      cbn in Hnil. lia.
    + unfold rawadc_of. rewrite length_resize. lia.
    + intros x Hx. unfold rawadc_of in Hx.
      apply In_resize in Hx as [->|Hx]; [lia|now apply Hshort].
Qed.

(** C5, witness: the ten samples 10, 10, 10, 10, 11, 11, 9, 9, 9, 12 in a
    detector of ten time samples, with the default fraction 0.1: the
    float holds 13421773 / 2^27, the value of the expression is
    7.99999998..., the target is 7. *)
Lemma target_is_the_converted_double_expression_witness :
  minNumBins (fTruncMeanFraction cfg_tenth) (rd_Samples digit_ten) = 7
  /\ exists fuel a, analyze_digit fuel cfg_tenth 10 digit_ten = Some a.
Proof.
  destruct (target_is_the_converted_double_expression cfg_tenth 10 digit_ten
              (13421773 # 134217728) 27 13421773)
    as (_ & HT & _ & _ & Hex).
  - cbn. lia.
  - cbn. lia.
  - vm_compute. reflexivity.
  - lia.
  - lia.
  - vm_compute. reflexivity.
  - cbn. lia.
  - split.
    + rewrite HT. vm_compute. reflexivity.
    + apply Hex; [cbn; lia|].
      intros x Hx. cbn in Hx.
      repeat (destruct Hx as [<-|Hx]; [lia|]). destruct Hx.
Defined.

(** C5, counterexample: two digits that are not clipped.  (1) The ten
    samples above with the default fraction 0.1: the claimed target is
    floor(0.9 x 10) - 1 = 8, the target used is 7, because the float
    holds a number above 0.1.  (2) A digit of one sample with the
    fraction 0.5: the claimed target is floor(0.5 x 1) - 1 = -1, the
    target used is the integer part of 0.5 - 1, which is 0. *)
Lemma target_is_not_the_floor_formula :
  (length (rawadc_of (Z.min 10 (rd_Samples digit_ten)) digit_ten) = 10%nat
   /\ Qfloor ((1 - fTruncMeanFraction cfg_tenth) * inject_Z 10)%Q - 1 = 8
   /\ minNumBins (fTruncMeanFraction cfg_tenth) (rd_Samples digit_ten) = 7
   /\ a_minNumBins <$> analyze_digit 1 cfg_tenth 10 digit_ten = Some 7)
  /\ (length (rawadc_of (Z.min 8 (rd_Samples digit_one_five)) digit_one_five) = 1%nat
      /\ Qfloor ((1 - fTruncMeanFraction cfg_half) * inject_Z 1)%Q - 1 = -1
      /\ minNumBins (fTruncMeanFraction cfg_half) (rd_Samples digit_one_five) = 0
      /\ a_minNumBins <$> analyze_digit 0 cfg_half 8 digit_one_five = Some 0).
Proof. repeat split; vm_compute; reflexivity. Qed.

(* ===================================================================== *)
(** * Part VII: further properties of the status provider                *)
(* ===================================================================== *)

(** ** Construction *)

Lemma seed_rows_lookup (cs : ChannelStatus) (chans : list Z) :
  forall (d : Snapshot.t) (ch : Z),
    Snapshot.rows
      (fold_left (fun d ch => Snapshot.AddOrReplaceRow (SetChannel ch cs) d) chans d)
      !! ch
    = if bool_decide (ch ∈ chans)
      then Some (mkChannelStatus ch (Status cs))
      else Snapshot.rows d !! ch.
Proof.
  induction chans as [|c cs' IH]; intros d ch; cbn [fold_left].
  - rewrite bool_decide_eq_false_2; [reflexivity|]. apply not_elem_of_nil.
  - rewrite IH. destruct (decide (ch ∈ cs')) as [Hin|Hnin].
    + rewrite !bool_decide_eq_true_2; [reflexivity| |assumption].
      apply elem_of_cons; now right.
    + rewrite (bool_decide_eq_false_2 (ch ∈ cs')) by assumption.
      cbn [Snapshot.AddOrReplaceRow Snapshot.rows SetChannel Channel].
      destruct (decide (ch = c)) as [->|Hne].
      * rewrite lookup_insert_eq.
        rewrite bool_decide_eq_true_2; [reflexivity|]. apply elem_of_cons; now left.
      * rewrite lookup_insert_ne by congruence.
        rewrite bool_decide_eq_false_2; [reflexivity|].
        intros [?|?]%elem_of_cons; contradiction.
Qed.

(** X1: a provider constructed for the default source answers the lookup
    of every channel that some wire maps to with that channel's [kGOOD]
    record, and throws for any other channel; a provider constructed for
    the database or the file source starts with empty tables, so that
    every lookup throws. *)
Theorem construct_seeds_only_the_default_source (geo : Geometry)
    (f : DBFolder) (ch : Z) :
  GetChannelStatus (construct geo (mkConfig false false f)) ch
    = (if bool_decide (ch ∈ wire_channels geo)
       then Return (mkChannelStatus ch kGOOD)
       else Throw (ChannelNotFound ch))
  /\ GetChannelStatus (construct geo (mkConfig false true f)) ch
     = Throw (ChannelNotFound ch)
  /\ (forall useFile,
        GetChannelStatus (construct geo (mkConfig true useFile f)) ch
        = Throw (ChannelNotFound ch)).
Proof.
  split; [|split; [reflexivity|intros useFile; reflexivity]].
  rewrite GetChannelStatus_fallback by apply lookup_empty.
  rewrite GetRow_lookup. unfold construct.
  cbn [UseDB UseFile fData]. rewrite decide_True by reflexivity.
  rewrite seed_rows_lookup. cbn [SetStatus Status Snapshot.empty Snapshot.rows].
  destruct (bool_decide (ch ∈ wire_channels geo)); [reflexivity|].
  now rewrite lookup_empty.
Qed.

(** ** What never changes *)

Lemma Update_frame (ts : Z) (p : Provider) :
  fDataSource (snd (Update ts p)) = fDataSource p
  /\ fDefault (snd (Update ts p)) = fDefault p.
Proof.
  destruct (decide (fDataSource p = Database)) as [Hdb|Hdb].
  - rewrite Update_database by assumption. cbn zeta.
    destruct (fst (UpdateFolder ts (fFolder p))); split; reflexivity.
  - rewrite Update_not_database by assumption. split; reflexivity.
Qed.

Lemma AddNoisyChannel_frame (ch : Z) (p : Provider) :
  fDataSource (AddNoisyChannel ch p) = fDataSource p
  /\ fData (AddNoisyChannel ch p) = fData p
  /\ fDefault (AddNoisyChannel ch p) = fDefault p
  /\ fFolder (AddNoisyChannel ch p) = fFolder p.
Proof.
  unfold AddNoisyChannel.
  destruct (negb (IsBad p (rawToDBChannel ch)) && IsPresent p (rawToDBChannel ch));
    repeat split.
Qed.

(** X2: the data source and the default record are fixed at construction;
    and unless the database source was configured, neither an [Update]
    nor an [AddNoisyChannel] ever changes the persistent table or touches
    the folder: the table is the one the constructor left (the seeded one
    for the default source, an empty one for the file source) and no
    fetch is ever made. *)
Theorem only_the_database_source_refreshes (geo : Geometry) (pset : Config)
    (p : Provider) :
  reachable geo pset p ->
  fDataSource p = fDataSource (construct geo pset)
  /\ fDefault p = fDefault (construct geo pset)
  /\ (UseDB pset = false ->
      fData p = fData (construct geo pset)
      /\ fFolder p = folder0 pset
      /\ (UseFile pset = true -> Snapshot.rows (fData p) = ∅)).
Proof.
  induction 1 as [|ts p Hr (IHs & IHd & IHt)|ch p Hr (IHs & IHd & IHt)].
  - split; [reflexivity|]. split; [reflexivity|]. intros Hdb.
    split; [reflexivity|]. split; [reflexivity|]. intros Hf.
    unfold construct. now rewrite Hdb, Hf.
  - destruct (Update_frame ts p) as [Hs Hd].
    split; [congruence|]. split; [congruence|]. intros Hdb.
    destruct (IHt Hdb) as (Ht & Hf & He).
    assert (Hnd : fDataSource p <> Database).
    { rewrite IHs. unfold construct. cbn [fDataSource]. rewrite Hdb.
      destruct (UseFile pset); discriminate. }
    rewrite Update_not_database by assumption. cbn [snd overlay_cleared fData fFolder].
    repeat split; assumption.
  - destruct (AddNoisyChannel_frame ch p) as (Hs & Ht & Hd & Hf).
    split; [congruence|]. split; [congruence|]. intros Hdb.
    destruct (IHt Hdb) as (Ht' & Hf' & He).
    rewrite Ht, Hf. repeat split; assumption.
Qed.

(** X2, witness: the file-backed provider after an update at a timestamp
    the database would serve, and a noisy channel. *)
Lemma only_the_database_source_refreshes_witness :
  fDataSource (AddNoisyChannel 1 (snd (Update 150 p_file))) = File
  /\ Snapshot.rows (fData (AddNoisyChannel 1 (snd (Update 150 p_file)))) = ∅
  /\ fetches (fFolder (AddNoisyChannel 1 (snd (Update 150 p_file)))) = O.
Proof.
  destruct (only_the_database_source_refreshes geo3 cfg_file
              (AddNoisyChannel 1 (snd (Update 150 p_file)))) as (Hs & _ & Ht).
  - apply reach_AddNoisyChannel, reach_Update, reach_construct.
  - destruct Ht as (_ & Hf & He); [reflexivity|].
    split; [exact Hs|]. split; [apply He; reflexivity|]. now rewrite Hf.
Defined.

(** ** The status codes *)

(** X3: the switch of [Update] decodes the code of every status to that
    status, and any code that is not the code of [kDISCONNECTED],
    [kDEAD], [kLOWNOISE], [kNOISY] or [kGOOD] to [kUNKNOWN]. *)
Theorem status_of_code_decodes :
  (forall s, status_of_code (chStatus_code s) = s)
  /\ (forall code,
        code <> chStatus_code kDISCONNECTED ->
        code <> chStatus_code kDEAD ->
        code <> chStatus_code kLOWNOISE ->
        code <> chStatus_code kNOISY ->
        code <> chStatus_code kGOOD ->
        status_of_code code = kUNKNOWN).
Proof.
  split.
  - intros []; reflexivity.
  - intros code H0 H1 H2 H3 H4. unfold status_of_code.
    repeat match goal with
           | |- context [code =? ?c] =>
               let E := fresh in
               destruct (code =? c) eqn:E; [apply Z.eqb_eq in E; contradiction|]
           end.
    reflexivity.
Qed.

(** X3, witness: the code 99. *)
Lemma status_of_code_decodes_witness : status_of_code 99 = kUNKNOWN.
Proof.
  apply (proj2 status_of_code_decodes 99); vm_compute; discriminate.
Defined.

(** ** Lookups after an update *)

(** X4: in the database mode, once the folder reports new data, a lookup
    is decided by the folder's rows alone: a listed channel returns its
    record with the decoded status, one record per channel however often
    it is listed, and every other channel throws, whatever the
    persistent table and the overlay held before. *)
Theorem lookup_after_refresh (ts : Z) (p : Provider) (ch : Z) :
  fDataSource p = Database ->
  fst (UpdateFolder ts (fFolder p)) = true ->
  GetChannelStatus (snd (Update ts p)) ch =
    let f := snd (UpdateFolder ts (fFolder p)) in
    if bool_decide (ch ∈ fChannels f)
    then Return (mkChannelStatus ch (status_of_code (fStatusOf f ch)))
    else Throw (ChannelNotFound ch).
Proof.
  intros Hdb Hup. rewrite Update_database by assumption. cbn zeta.
  rewrite Hup. cbn [snd].
  rewrite GetChannelStatus_fallback by apply lookup_empty.
  rewrite GetRow_lookup. cbn [fData]. rewrite load_rows_lookup.
  destruct (bool_decide (ch ∈ fChannels (snd (UpdateFolder ts (fFolder p)))));
    [reflexivity|].
  cbn [Snapshot.SetIoV Snapshot.Clear Snapshot.rows]. now rewrite lookup_empty.
Qed.

(** X4, witness: the database provider refreshed at timestamp 150. *)
Lemma lookup_after_refresh_witness :
  GetChannelStatus (snd (Update 150 p_db)) 2 = Return (mkChannelStatus 2 kGOOD)
  /\ GetChannelStatus (snd (Update 150 p_db)) 3 = Throw (ChannelNotFound 3).
Proof.
  split.
  - apply (lookup_after_refresh 150 p_db 2); reflexivity.
  - apply (lookup_after_refresh 150 p_db 3); reflexivity.
Defined.

(** X5: after an [Update] that returns [false] every lookup reads the
    persistent table as it was before the call: the noisy records of the
    previous event no longer shadow it. *)
Theorem lookup_after_update_without_refresh (ts : Z) (p : Provider) (ch : Z) :
  fst (Update ts p) = false ->
  GetChannelStatus (snd (Update ts p)) ch = Snapshot.GetRow (fData p) ch.
Proof.
  intros Hf.
  rewrite GetChannelStatus_fallback
    by (rewrite Update_overlay_empty; apply lookup_empty).
  f_equal. revert Hf.
  destruct (decide (fDataSource p = Database)) as [Hdb|Hdb].
  - rewrite Update_database by assumption. cbn zeta.
    destruct (fst (UpdateFolder ts (fFolder p))); [discriminate|reflexivity].
  - rewrite Update_not_database by assumption. reflexivity.
Qed.

(** X5, witness: channel 0 is noisy in the overlay and good in the
    persistent table; after the update at timestamp 500, whose fetch
    fails, its lookup is good again. *)
Lemma lookup_after_update_without_refresh_witness :
  GetChannelStatus p_db_noisy 0 = Return (mkChannelStatus 0 kNOISY)
  /\ GetChannelStatus (snd (Update 500 p_db_noisy)) 0
     = Return (mkChannelStatus 0 kGOOD).
Proof.
  split; [reflexivity|].
  rewrite (lookup_after_update_without_refresh 500 p_db_noisy 0); reflexivity.
Defined.

(** ** Recording noisy channels *)

Lemma AddNoisyChannel_cases (ch : Z) (p : Provider) :
  (negb (IsBad p ch) && IsPresent p ch = true
   /\ AddNoisyChannel ch p =
        mkProvider (fDataSource p) (fData p)
          (Snapshot.AddOrReplaceRow (mkChannelStatus ch kNOISY) (fNewNoisy p))
          (fDefault p) (fFolder p))
  \/ (negb (IsBad p ch) && IsPresent p ch = false /\ AddNoisyChannel ch p = p).
Proof.
  unfold AddNoisyChannel, rawToDBChannel.
  destruct (negb (IsBad p ch) && IsPresent p ch); [left|right]; now split.
Qed.

Lemma gate_ignores_overlay (ch ch' : Z) (p : Provider) :
  negb (IsBad (AddNoisyChannel ch' p) ch) && IsPresent (AddNoisyChannel ch' p) ch
  = negb (IsBad p ch) && IsPresent p ch.
Proof.
  destruct (AddNoisyChannel_frame ch' p) as (_ & Ht & _).
  unfold IsBad, IsPresent, persistent_status. now rewrite Ht.
Qed.

Lemma AddNoisyChannel_then_lookup_gate (ch : Z) (p : Provider) :
  negb (IsBad p ch) && IsPresent p ch = true ->
  GetChannelStatus (AddNoisyChannel ch p) ch = Return (mkChannelStatus ch kNOISY).
Proof.
  intros Hg. destruct (AddNoisyChannel_cases ch p) as [[_ ->]|[Hn _]];
    [|congruence].
  apply GetChannelStatus_overlay. cbn. apply lookup_insert_eq.
Qed.

Lemma AddNoisyChannel_other_lookup (ch ch' : Z) (p : Provider) :
  ch' <> ch ->
  GetChannelStatus (AddNoisyChannel ch p) ch' = GetChannelStatus p ch'.
Proof.
  intros Hne. destruct (AddNoisyChannel_cases ch p) as [[_ ->]|[_ ->]];
    [|reflexivity].
  unfold GetChannelStatus, rawToDBChannel, Snapshot.GetRow.
  cbn [fNewNoisy fData Snapshot.AddOrReplaceRow Snapshot.rows Channel].
  now rewrite lookup_insert_ne by congruence.
Qed.

(** X6: when the channel passes the gate of [AddNoisyChannel] (not bad
    and present), its lookup afterwards returns its [kNOISY] record; and
    in every case the lookup of any other channel is what it was. *)
Theorem AddNoisyChannel_then_lookup (ch : Z) (p : Provider) :
  (negb (IsBad p ch) && IsPresent p ch = true ->
   GetChannelStatus (AddNoisyChannel ch p) ch = Return (mkChannelStatus ch kNOISY))
  /\ (forall ch', ch' <> ch ->
        GetChannelStatus (AddNoisyChannel ch p) ch' = GetChannelStatus p ch').
Proof.
  split.
  - intros Hg. destruct (AddNoisyChannel_cases ch p) as [[_ ->]|[Hn _]];
      [|congruence].
    apply GetChannelStatus_overlay. cbn. apply lookup_insert_eq.
  - intros ch' Hne. destruct (AddNoisyChannel_cases ch p) as [[_ ->]|[_ ->]];
      [|reflexivity].
    unfold GetChannelStatus, rawToDBChannel, Snapshot.GetRow.
    cbn [fNewNoisy fData Snapshot.AddOrReplaceRow Snapshot.rows Channel].
    now rewrite lookup_insert_ne by congruence.
Qed.

(** X6, witness: channel 1 of the refreshed database provider. *)
Lemma AddNoisyChannel_then_lookup_witness :
  GetChannelStatus (AddNoisyChannel 1 p_db_150) 1 = Return (mkChannelStatus 1 kNOISY)
  /\ GetChannelStatus (AddNoisyChannel 1 p_db_150) 2 = GetChannelStatus p_db_150 2.
Proof.
  destruct (AddNoisyChannel_then_lookup 1 p_db_150) as [H1 H2].
  split; [apply H1; reflexivity|apply H2; lia].
Defined.

(** X7: recording a channel noisy twice is the same as recording it
    once, and the order in which two channels are recorded does not
    matter. *)
Theorem AddNoisyChannel_idempotent_and_commutative (a b : Z) (p : Provider) :
  AddNoisyChannel a (AddNoisyChannel a p) = AddNoisyChannel a p
  /\ AddNoisyChannel a (AddNoisyChannel b p)
     = AddNoisyChannel b (AddNoisyChannel a p).
Proof.
  assert (Hidem : forall c q, AddNoisyChannel c (AddNoisyChannel c q)
                              = AddNoisyChannel c q).
  { intros c q.
    destruct (AddNoisyChannel_cases c (AddNoisyChannel c q)) as [[Hg ->]|[_ ->]];
      [|reflexivity].
    rewrite gate_ignores_overlay in Hg.
    destruct (AddNoisyChannel_cases c q) as [[_ ->]|[Hn _]]; [|congruence].
    unfold Snapshot.AddOrReplaceRow. cbn.
    now rewrite insert_insert_eq. }
  split; [apply Hidem|].
  destruct (decide (a = b)) as [->|Hne]; [reflexivity|].
  destruct (AddNoisyChannel_cases a (AddNoisyChannel b p)) as [[Ha ->]|[Ha ->]];
    destruct (AddNoisyChannel_cases b (AddNoisyChannel a p)) as [[Hb ->]|[Hb ->]];
    rewrite gate_ignores_overlay in Ha, Hb;
    destruct (AddNoisyChannel_cases a p) as [[Ha' ->]|[Ha' ->]];
    destruct (AddNoisyChannel_cases b p) as [[Hb' ->]|[Hb' ->]];
    try congruence; try reflexivity.
  unfold Snapshot.AddOrReplaceRow. cbn.
  now rewrite insert_insert_ne by assumption.
Qed.

(** ** The sets of channels *)

Lemma collect_status_inv (p : Provider) (s : chStatus) (todo : list Z) :
  forall chs l,
    collect_status p s todo chs = Return l ->
    l = chs ++ List.filter (status_is p s) todo
    /\ forall ch, ch ∈ todo -> exists cs, GetChannelStatus p ch = Return cs.
Proof.
  induction todo as [|c todo IH]; intros chs l; cbn [collect_status List.filter].
  - intros [= <-]. split; [now rewrite app_nil_r|]. intros ch Hch.
    now apply not_elem_of_nil in Hch.
  - unfold status_is at 1.
    destruct (GetChannelStatus p c) as [cs|e] eqn:Hc; cbn [mbind exc_bind];
      [|discriminate].
    intros Hrun. apply IH in Hrun as [-> Hall]. split.
    + destruct (bool_decide (Status cs = s)); [|reflexivity].
      now rewrite <- app_assoc.
    + intros ch [->|Hin]%elem_of_cons; [now exists cs|now apply Hall].
Qed.

Lemma collect_status_throws (p : Provider) (s : chStatus) (e : IOVDataError)
    (ch : Z) (after : list Z) (before : list Z) :
  forall chs,
    (forall c, c ∈ before -> exists cs, GetChannelStatus p c = Return cs) ->
    GetChannelStatus p ch = Throw e ->
    collect_status p s (before ++ ch :: after) chs = Throw e.
Proof.
  induction before as [|c before IH]; intros chs Hall Hch; cbn [app collect_status].
  - now rewrite Hch.
  - destruct (Hall c) as [cs Hcs]; [apply elem_of_cons; now left|].
    rewrite Hcs. cbn [mbind exc_bind]. apply IH; [|assumption].
    intros c' Hc'. apply Hall, elem_of_cons. now right.
Qed.

Lemma GetChannelsWithStatus_result (geo : Geometry) (p : Provider)
    (s : chStatus) (A : gset Z) :
  GetChannelsWithStatus geo p s = Return A ->
  forall ch, ch ∈ A <-> 0 <= ch < maxChannel_of geo /\ has_status p s ch = true.
Proof.
  unfold GetChannelsWithStatus, has_status. fold (maxChannel_of geo).
  destruct (bool_decide (fDataSource p = Default)).
  - destruct (bool_decide (Status (fDefault p) = s)); intros [= <-] ch.
    + rewrite elem_of_list_to_set, elem_of_channel_range. tauto.
    + rewrite elem_of_empty. split; [tauto|]. intros [_ H]. discriminate.
  - destruct (collect_status p s (channel_range (maxChannel_of geo)) [])
      as [l|e] eqn:E; cbn [mbind exc_bind]; [|discriminate].
    intros [= <-] ch. apply collect_status_inv in E as [-> _]. cbn [app].
    rewrite elem_of_list_to_set, list_elem_of_In, filter_In.
    rewrite <- list_elem_of_In, elem_of_channel_range. tauto.
Qed.

Lemma channel_range_split (M ch : Z) :
  0 <= ch < M ->
  channel_range M =
    channel_range ch ++ ch :: map Z.of_nat (seq (S (Z.to_nat ch)) (Z.to_nat (M - ch - 1))).
Proof.
  intros H. unfold channel_range.
  replace (Z.to_nat M) with (Z.to_nat ch + S (Z.to_nat (M - ch - 1)))%nat by lia.
  rewrite seq_app, map_app. cbn [seq map Nat.add]. f_equal. f_equal. lia.
Qed.

(** X8: whatever the data source, the set that [GetChannelsWithStatus]
    returns holds exactly the channels from 0 up to, but not including,
    [Nchannels() - 1] that it selects; in a detector of at least one
    channel the largest channel id is therefore never in the set, and in
    a detector of one channel the set is empty. *)
Theorem GetChannelsWithStatus_stops_before_the_last_channel (geo : Geometry)
    (p : Provider) (s : chStatus) (A : gset Z) :
  GetChannelsWithStatus geo p s = Return A ->
  (forall ch, ch ∈ A <-> 0 <= ch < maxChannel_of geo /\ has_status p s ch = true)
  /\ (1 <= Nchannels geo <= uint32_mod -> Nchannels geo - 1 ∉ A)
  /\ (Nchannels geo = 1 -> A = ∅).
Proof.
  intros HA. pose proof (GetChannelsWithStatus_result geo p s A HA) as Hchar.
  split; [exact Hchar|]. split.
  - intros Hn Hin. apply Hchar in Hin as [Hr _].
    unfold maxChannel_of in Hr.
    assert (Hm : uint32_mod = 4294967296) by reflexivity.
    rewrite Hm in Hr, Hn. clear Hm Hchar HA.
    assert (Hs : (Nchannels geo - 1) mod 4294967296 = Nchannels geo - 1).
    { clear Hr. apply Z.mod_small. lia. }
    rewrite Hs in Hr. lia.
  - intros Hn. apply set_eq. intros ch. rewrite elem_of_empty, Hchar.
    unfold maxChannel_of. rewrite Hn.
    change ((1 - 1) mod uint32_mod) with 0. lia.
Qed.

(** X8, witness: the good channels of the refreshed database provider in
    the detector of three channels. *)
Lemma GetChannelsWithStatus_stops_before_the_last_channel_witness :
  GetChannelStatus p_db_150 2 = Return (mkChannelStatus 2 kGOOD)
  /\ GoodChannels geo3 p_db_150 = Return {[0; 1]}
  /\ 2 ∉ ({[0; 1]} : gset Z).
Proof.
  assert (H : GoodChannels geo3 p_db_150 = Return {[0; 1]})
    by (vm_compute; reflexivity).
  split; [reflexivity|]. split; [exact H|].
  apply (GetChannelsWithStatus_stops_before_the_last_channel
           geo3 p_db_150 kGOOD {[0; 1]} H).
  vm_compute. split; discriminate.
Defined.

Lemma has_status_unique (p : Provider) (s1 s2 : chStatus) (ch : Z) :
  has_status p s1 ch = true -> has_status p s2 ch = true -> s1 = s2.
Proof.
  unfold has_status, status_is.
  destruct (bool_decide (fDataSource p = Default)).
  - intros H1%bool_decide_eq_true H2%bool_decide_eq_true. congruence.
  - destruct (GetChannelStatus p ch) as [cs|e]; [|discriminate].
    intros H1%bool_decide_eq_true H2%bool_decide_eq_true. congruence.
Qed.

(** X9: the sets returned for two different statuses have no channel in
    common; and in the database and file modes, when the call returns,
    every channel below the largest has a record and is in the set of
    its record's status and of no other. *)
Theorem status_sets_partition (geo : Geometry) (p : Provider) :
  (forall s1 s2 A1 A2,
     s1 <> s2 ->
     GetChannelsWithStatus geo p s1 = Return A1 ->
     GetChannelsWithStatus geo p s2 = Return A2 ->
     A1 ∩ A2 = ∅)
  /\ (forall s A ch,
        fDataSource p <> Default ->
        GetChannelsWithStatus geo p s = Return A ->
        0 <= ch < maxChannel_of geo ->
        exists cs,
          GetChannelStatus p ch = Return cs
          /\ forall s' A',
               GetChannelsWithStatus geo p s' = Return A' ->
               (ch ∈ A' <-> Status cs = s')).
Proof.
  split.
  - intros s1 s2 A1 A2 Hne H1 H2. apply set_eq. intros ch.
    rewrite elem_of_intersection, elem_of_empty.
    rewrite (GetChannelsWithStatus_result geo p s1 A1 H1).
    rewrite (GetChannelsWithStatus_result geo p s2 A2 H2).
    split; [|tauto]. intros [[_ Ha] [_ Hb]].
    apply Hne. exact (has_status_unique p s1 s2 ch Ha Hb).
  - intros s A ch Hsrc HA Hch.
    assert (Hret : exists cs, GetChannelStatus p ch = Return cs).
    { unfold GetChannelsWithStatus in HA. fold (maxChannel_of geo) in HA.
      rewrite bool_decide_eq_false_2 in HA by assumption.
      destruct (collect_status p s (channel_range (maxChannel_of geo)) [])
        as [l|e] eqn:E; [|discriminate].
      apply collect_status_inv in E as [_ Hall].
      apply Hall, elem_of_channel_range, Hch. }
    destruct Hret as [cs Hcs]. exists cs. split; [exact Hcs|].
    intros s' A' HA'. rewrite (GetChannelsWithStatus_result geo p s' A' HA').
    unfold has_status, status_is.
    rewrite bool_decide_eq_false_2 by assumption. rewrite Hcs.
    rewrite bool_decide_eq_true. tauto.
Qed.

(** X9, witness: the good and the noisy channels of the database
    provider with channel 0 in its overlay. *)
Lemma status_sets_partition_witness :
  exists A1 A2 : gset Z,
    GoodChannels geo3 p_db_noisy = Return A1
    /\ NoisyChannels geo3 p_db_noisy = Return A2
    /\ A1 ∩ A2 = ∅
    /\ (0 ∈ A2 <-> kNOISY = kNOISY).
Proof.
  exists {[1]}, {[0]}.
  assert (H1 : GetChannelsWithStatus geo3 p_db_noisy kGOOD = Return {[1]})
    by (vm_compute; reflexivity).
  assert (H2 : GetChannelsWithStatus geo3 p_db_noisy kNOISY = Return {[0]})
    by (vm_compute; reflexivity).
  destruct (status_sets_partition geo3 p_db_noisy) as [Hdis Hcov].
  split; [exact H1|]. split; [exact H2|]. split.
  - apply (Hdis kGOOD kNOISY); [discriminate|exact H1|exact H2].
  - destruct (Hcov kGOOD {[1]} 0) as (cs & Hcs & Hin);
      [vm_compute; discriminate|exact H1|vm_compute; split; [discriminate|reflexivity]|].
    assert (Hs : cs = mkChannelStatus 0 kNOISY) by (vm_compute in Hcs; congruence).
    subst cs. exact (Hin kNOISY {[0]} H2).
Defined.

(** X10: in the database and file modes [GetChannelsWithStatus] throws
    the lookup error of the first channel below the largest that is in
    neither table, whatever the status asked for. *)
Theorem GetChannelsWithStatus_throws_at_first_missing_channel (geo : Geometry)
    (p : Provider) (s : chStatus) (ch : Z) :
  fDataSource p <> Default ->
  0 <= ch < maxChannel_of geo ->
  Snapshot.rows (fNewNoisy p) !! ch = None ->
  Snapshot.rows (fData p) !! ch = None ->
  (forall c, 0 <= c < ch -> exists cs, GetChannelStatus p c = Return cs) ->
  GetChannelsWithStatus geo p s = Throw (ChannelNotFound ch).
Proof.
  intros Hsrc Hch Hov Hdat Hbefore.
  unfold GetChannelsWithStatus. fold (maxChannel_of geo).
  rewrite bool_decide_eq_false_2 by assumption.
  rewrite (channel_range_split (maxChannel_of geo) ch Hch).
  rewrite (collect_status_throws p s (ChannelNotFound ch)); [reflexivity| |].
  - intros c Hc. apply Hbefore, elem_of_channel_range, Hc.
  - rewrite GetChannelStatus_fallback by assumption.
    rewrite GetRow_lookup. now rewrite Hdat.
Qed.

(** X10, witness: the database provider before its first refresh, whose
    tables are empty. *)
Lemma GetChannelsWithStatus_throws_at_first_missing_channel_witness :
  GoodChannels geo3 p_db = Throw (ChannelNotFound 0).
Proof.
  apply (GetChannelsWithStatus_throws_at_first_missing_channel geo3 p_db kGOOD 0).
  - vm_compute. discriminate.
  - vm_compute. split; [discriminate|reflexivity].
  - reflexivity.
  - reflexivity.
  - intros c Hc. lia.
Defined.

(** X11: for the default source the sets of channels do not depend on
    the tables: the call never throws, and neither recording a noisy
    channel nor an update changes what it returns, for any status. *)
Theorem default_source_sets_ignore_the_tables (geo : Geometry) (p : Provider)
    (s : chStatus) :
  fDataSource p = Default ->
  (exists A, GetChannelsWithStatus geo p s = Return A)
  /\ (forall ch,
        GetChannelsWithStatus geo (AddNoisyChannel ch p) s
        = GetChannelsWithStatus geo p s)
  /\ (forall ts,
        GetChannelsWithStatus geo (snd (Update ts p)) s
        = GetChannelsWithStatus geo p s).
Proof.
  intros Hsrc.
  assert (Hdef : forall q, fDataSource q = Default -> fDefault q = fDefault p ->
            GetChannelsWithStatus geo q s = GetChannelsWithStatus geo p s).
  { intros q Hq Hd. unfold GetChannelsWithStatus.
    rewrite (bool_decide_eq_true_2 _ Hq), (bool_decide_eq_true_2 _ Hsrc).
    now rewrite Hd. }
  split; [|split].
  - unfold GetChannelsWithStatus. rewrite bool_decide_eq_true_2 by assumption.
    destruct (bool_decide (Status (fDefault p) = s)); eexists; reflexivity.
  - intros ch. destruct (AddNoisyChannel_frame ch p) as (Hs & _ & Hd & _).
    apply Hdef; congruence.
  - intros ts. destruct (Update_frame ts p) as (Hs & Hd).
    apply Hdef; congruence.
Qed.

(** X11, witness: in the default provider channel 0 is recorded noisy
    and looked up as noisy, and the set of noisy channels is unchanged. *)
Lemma default_source_sets_ignore_the_tables_witness :
  GetChannelStatus (AddNoisyChannel 0 p_default) 0 = Return (mkChannelStatus 0 kNOISY)
  /\ NoisyChannels geo3 (AddNoisyChannel 0 p_default) = NoisyChannels geo3 p_default.
Proof.
  split; [reflexivity|].
  apply (default_source_sets_ignore_the_tables geo3 p_default kNOISY).
  reflexivity.
Defined.

Lemma status_is_after_AddNoisyChannel (p : Provider) (s : chStatus) (ch c : Z) :
  negb (IsBad p ch) && IsPresent p ch = true ->
  status_is (AddNoisyChannel ch p) s c =
    if bool_decide (c = ch) then bool_decide (kNOISY = s) else status_is p s c.
Proof.
  intros Hg. destruct (AddNoisyChannel_cases ch p) as [[_ Hp]|[Hn _]];
    [|congruence].
  unfold status_is. destruct (decide (c = ch)) as [->|Hne].
  - rewrite bool_decide_eq_true_2 by reflexivity.
    rewrite (GetChannelStatus_overlay (AddNoisyChannel ch p) ch
               (mkChannelStatus ch kNOISY)); [reflexivity|].
    rewrite Hp. cbn. apply lookup_insert_eq.
  - rewrite bool_decide_eq_false_2 by assumption.
    rewrite Hp. unfold GetChannelStatus, rawToDBChannel, Snapshot.GetRow.
    cbn [fNewNoisy fData Snapshot.AddOrReplaceRow Snapshot.rows Channel].
    now rewrite lookup_insert_ne by congruence.
Qed.

(** X12: in the database and file modes, when a channel below the
    largest passes the gate of [AddNoisyChannel] and is recorded, the set
    returned for [kNOISY] gains that channel and the set returned for
    any other status loses it; no other channel moves, and a call that
    returned before still returns. *)
Theorem AddNoisyChannel_moves_the_channel_between_sets (geo : Geometry)
    (p : Provider) (s : chStatus) (ch : Z) (A : gset Z) :
  fDataSource p <> Default ->
  negb (IsBad p ch) && IsPresent p ch = true ->
  0 <= ch < maxChannel_of geo ->
  GetChannelsWithStatus geo p s = Return A ->
  GetChannelsWithStatus geo (AddNoisyChannel ch p) s
  = Return (if bool_decide (s = kNOISY) then A ∪ {[ch]} else A ∖ {[ch]}).
Proof.
  intros Hsrc Hg Hch HA.
  pose proof (GetChannelsWithStatus_result geo p s A HA) as Hchar.
  assert (Hsrc' : fDataSource (AddNoisyChannel ch p) <> Default).
  { destruct (AddNoisyChannel_frame ch p) as (Hs & _). now rewrite Hs. }
  assert (Hall : forall c, c ∈ channel_range (maxChannel_of geo) ->
            exists cs, GetChannelStatus (AddNoisyChannel ch p) c = Return cs).
  { intros c Hc. destruct (decide (c = ch)) as [->|Hne].
    - eexists. now apply AddNoisyChannel_then_lookup_gate.
    - rewrite AddNoisyChannel_other_lookup by assumption.
      unfold GetChannelsWithStatus in HA. fold (maxChannel_of geo) in HA.
      rewrite bool_decide_eq_false_2 in HA by assumption.
      destruct (collect_status p s (channel_range (maxChannel_of geo)) [])
        as [l|e] eqn:E; [|discriminate].
      apply collect_status_inv in E as [_ Hret]. now apply Hret. }
  unfold GetChannelsWithStatus. fold (maxChannel_of geo).
  rewrite bool_decide_eq_false_2 by assumption.
  rewrite collect_status_returns by assumption.
  cbn [mbind exc_bind app]. f_equal. apply set_eq. intros c.
  rewrite elem_of_list_to_set, list_elem_of_In, filter_In, <- list_elem_of_In.
  rewrite elem_of_channel_range, status_is_after_AddNoisyChannel by assumption.
  assert (Hc : c ∈ A <-> 0 <= c < maxChannel_of geo /\ status_is p s c = true).
  { rewrite Hchar. unfold has_status.
    now rewrite bool_decide_eq_false_2 by assumption. }
  destruct (decide (c = ch)) as [->|Hne].
  - rewrite bool_decide_eq_true_2 by reflexivity.
    destruct (decide (s = kNOISY)) as [->|Hs].
    + rewrite !bool_decide_eq_true_2 by reflexivity.
      rewrite elem_of_union, elem_of_singleton. tauto.
    + rewrite (bool_decide_eq_false_2 (s = kNOISY)) by assumption.
      rewrite bool_decide_eq_false_2 by congruence.
      rewrite elem_of_difference, elem_of_singleton.
      split; [intros [_ H]; discriminate|tauto].
  - rewrite bool_decide_eq_false_2 by assumption.
    destruct (bool_decide (s = kNOISY)).
    + rewrite elem_of_union, elem_of_singleton. tauto.
    + rewrite elem_of_difference, elem_of_singleton. tauto.
Qed.

(** X12, witness: channel 0 of the refreshed database provider. *)
Lemma AddNoisyChannel_moves_the_channel_between_sets_witness :
  NoisyChannels geo3 p_db_noisy = Return (∅ ∪ {[0]})
  /\ GoodChannels geo3 p_db_noisy = Return ({[0; 1]} ∖ {[0]}).
Proof.
  split.
  - apply (AddNoisyChannel_moves_the_channel_between_sets
             geo3 p_db_150 kNOISY 0 ∅); try reflexivity.
    + vm_compute. discriminate.
    + vm_compute. split; [discriminate|reflexivity].
  - apply (AddNoisyChannel_moves_the_channel_between_sets
             geo3 p_db_150 kGOOD 0 {[0; 1]}); try reflexivity.
    + vm_compute. discriminate.
    + vm_compute. split; [discriminate|reflexivity].
Defined.

(** X13: the set [BadChannels] returns holds exactly the channels below
    the largest that are selected for [kDEAD] or for [kLOWNOISE]; it has
    no channel in common with the set of good channels; and the call
    throws exactly when [GetChannelsWithStatus] does. *)
Theorem BadChannels_membership (geo : Geometry) (p : Provider) :
  (forall A,
     BadChannels geo p = Return A ->
     (forall ch,
        ch ∈ A <->
        0 <= ch < maxChannel_of geo
        /\ has_status p kDEAD ch || has_status p kLOWNOISE ch = true)
     /\ forall G, GoodChannels geo p = Return G -> A ∩ G = ∅)
  /\ (forall e,
        GetChannelsWithStatus geo p kDEAD = Throw e ->
        BadChannels geo p = Throw e).
Proof.
  split.
  - intros A HA. unfold BadChannels in HA.
    destruct (GetChannelsWithStatus geo p kDEAD) as [d|e] eqn:Hd;
      cbn [mbind exc_bind] in HA; [|discriminate].
    destruct (GetChannelsWithStatus geo p kLOWNOISE) as [l|e] eqn:Hl;
      cbn [mbind exc_bind] in HA; [|discriminate].
    injection HA as <-.
    pose proof (GetChannelsWithStatus_result geo p kDEAD d Hd) as Cd.
    pose proof (GetChannelsWithStatus_result geo p kLOWNOISE l Hl) as Cl.
    split.
    + intros ch. rewrite elem_of_union, Cd, Cl, orb_true_iff. tauto.
    + intros G HG.
      pose proof (GetChannelsWithStatus_result geo p kGOOD G HG) as Cg.
      apply set_eq. intros ch.
      rewrite elem_of_intersection, elem_of_union, elem_of_empty, Cd, Cl, Cg.
      split; [|tauto]. intros [[[_ Hb]|[_ Hb]] [_ Hgood]];
        pose proof (has_status_unique p _ _ ch Hb Hgood); discriminate.
  - intros e He. unfold BadChannels. now rewrite He.
Qed.

(** X13, witness: the refreshed database provider has no bad channel. *)
Lemma BadChannels_membership_witness :
  BadChannels geo3 p_db_150 = Return ∅
  /\ (∅ : gset Z) ∩ {[0; 1]} = ∅.
Proof.
  assert (HB : BadChannels geo3 p_db_150 = Return ∅) by (vm_compute; reflexivity).
  split; [exact HB|].
  destruct (proj1 (BadChannels_membership geo3 p_db_150) ∅ HB) as [_ Hdis].
  apply Hdis. vm_compute. reflexivity.
Defined.

(* ===================================================================== *)
(** * Part VIII: further properties of the noisy-channel finder          *)
(* ===================================================================== *)

(** ** The loop over the digits *)

Lemma gate_depends_on_table (p q : Provider) (ch : Z) :
  fData q = fData p ->
  IsBad q ch || negb (IsPresent q ch) = IsBad p ch || negb (IsPresent p ch).
Proof.
  intros H. unfold IsBad, IsPresent, persistent_status. now rewrite H.
Qed.

Lemma process_digit_cases (fuel : nat) (cfg : FilterConfig) (n : Z)
    (p : Provider) (d : RawDigit) (st' : Z * Provider) :
  process_digit fuel cfg (n, p) d = Some st' ->
  (IsBad p (rd_Channel d) || negb (IsPresent p (rd_Channel d)) = true
   /\ st' = (n, p))
  \/ (IsBad p (rd_Channel d) || negb (IsPresent p (rd_Channel d)) = false
      /\ fst st' = Z.min n (rd_Samples d)
      /\ (snd st' = p \/ snd st' = AddNoisyChannel (rd_Channel d) p)).
Proof.
  unfold process_digit.
  destruct (IsBad p (rd_Channel d) || negb (IsPresent p (rd_Channel d))).
  - intros [= <-]. left. now split.
  - destruct (analyze_digit fuel cfg n d) as [a|]; [|discriminate].
    cbn [mbind option_bind]. right. split; [reflexivity|].
    destruct (sqrt_ge (a_rmsArg a) (rms_cut cfg (rd_Channel d)));
      injection H as <-; cbn [fst snd]; split; try reflexivity; tauto.
Qed.

(** What the loop over the digits does to its state. *)
Lemma digits_loop_effect (fuel : nat) (cfg : FilterConfig)
    (digits : list RawDigit) :
  forall (n : Z) (p : Provider) (n' : Z) (p' : Provider),
    digits_loop fuel cfg (n, p) digits = Some (n', p') ->
    fDataSource p' = fDataSource p /\ fData p' = fData p
    /\ fDefault p' = fDefault p /\ fFolder p' = fFolder p
    /\ (forall ch cs,
          Snapshot.rows (fNewNoisy p') !! ch = Some cs ->
          Snapshot.rows (fNewNoisy p) !! ch = Some cs
          \/ (cs = mkChannelStatus ch kNOISY
              /\ exists d, In d digits /\ rd_Channel d = ch))
    /\ n' <= n
    /\ (n' = n \/ exists d, In d digits /\ n' = rd_Samples d)
    /\ (forall d, In d digits ->
          IsBad p (rd_Channel d) || negb (IsPresent p (rd_Channel d)) = false ->
          n' <= rd_Samples d).
Proof.
  induction digits as [|d ds IH]; intros n p n' p'; cbn [digits_loop].
  - intros [= <- <-]. repeat split; try tauto; try lia.
    intros d [].
  - destruct (process_digit fuel cfg (n, p) d) as [[n1 p1]|] eqn:E;
      [|discriminate].
    cbn [mbind option_bind]. intros Hrun.
    destruct (IH n1 p1 n' p' Hrun)
      as (Hs & Ht & Hd & Hf & Hov & Hle & Hn & Hlow).
    assert (Hp1 : p1 = p \/ p1 = AddNoisyChannel (rd_Channel d) p).
    { destruct (process_digit_cases fuel cfg n p d _ E) as [[_ [= _ ->]]|(_ & _ & H)];
        [now left|exact H]. }
    assert (Hfr : fDataSource p1 = fDataSource p /\ fData p1 = fData p
                  /\ fDefault p1 = fDefault p /\ fFolder p1 = fFolder p).
    { destruct Hp1 as [->| ->]; [tauto|apply AddNoisyChannel_frame]. }
    destruct Hfr as (Hs1 & Ht1 & Hd1 & Hf1).
    assert (Hn1 : n1 <= n /\ (n1 = n \/ n1 = rd_Samples d)
                  /\ (IsBad p (rd_Channel d) || negb (IsPresent p (rd_Channel d))
                      = false -> n1 <= rd_Samples d)).
    { destruct (process_digit_cases fuel cfg n p d _ E)
        as [[Hg [= -> _]]|(Hg & Hm & _)]; cbn [fst] in *.
      - split; [lia|]. split; [now left|]. congruence.
      - split; [lia|]. split; [lia|]. intros _. lia. }
    destruct Hn1 as (Hle1 & Hn1 & Hlow1).
    split; [congruence|]. split; [congruence|]. split; [congruence|].
    split; [congruence|]. split; [|split; [lia|split]].
    + intros ch cs Hl. destruct (Hov ch cs Hl) as [Hold|(Hcs & d' & Hin & Hch)].
      * destruct Hp1 as [->| ->]; [now left|].
        destruct (AddNoisyChannel_cases (rd_Channel d) p) as [[_ Hp]|[_ Hp]];
          rewrite Hp in Hold; [|now left].
        cbn [fNewNoisy Snapshot.AddOrReplaceRow Snapshot.rows Channel] in Hold.
        destruct (decide (rd_Channel d = ch)) as [Heq|Hne].
        -- rewrite Heq, lookup_insert_eq in Hold. injection Hold as <-.
           right. split; [reflexivity|]. exists d. split; [now left|exact Heq].
        -- rewrite lookup_insert_ne in Hold by assumption. now left.
      * right. split; [exact Hcs|]. exists d'. split; [now right|exact Hch].
    + destruct Hn as [->|(d' & Hin & ->)].
      * destruct Hn1 as [->| ->]; [now left|].
        right. exists d. split; [now left|reflexivity].
      * right. exists d'. split; [now right|reflexivity].
    + intros d' [<-|Hin] Hg.
      * specialize (Hlow1 Hg). lia.
      * apply Hlow; [exact Hin|].
        rewrite (gate_depends_on_table p p1) by assumption. exact Hg.
Qed.

(** X14: [FindNoisyChannels] never changes the data source, the
    persistent table, the default record or the folder; every record it
    leaves in the overlay was there before or is the [kNOISY] record of
    the channel of one of the event's digits; and without a valid handle
    it changes nothing at all. *)
Theorem FindNoisyChannels_writes_only_to_the_overlay (fuel : nat)
    (cfg : FilterConfig) (nts : Z) (p p' : Provider)
    (h : option (list RawDigit)) :
  FindNoisyChannels fuel cfg nts p h = Some p' ->
  fDataSource p' = fDataSource p /\ fData p' = fData p
  /\ fDefault p' = fDefault p /\ fFolder p' = fFolder p
  /\ (forall ch cs,
        Snapshot.rows (fNewNoisy p') !! ch = Some cs ->
        Snapshot.rows (fNewNoisy p) !! ch = Some cs
        \/ (cs = mkChannelStatus ch kNOISY
            /\ exists digits d, h = Some digits /\ In d digits /\ rd_Channel d = ch))
  /\ (h = None -> p' = p).
Proof.
  unfold FindNoisyChannels. destruct h as [digits|].
  - destruct (digits_loop fuel cfg (nts, p) digits) as [[n1 p1]|] eqn:E;
      [|discriminate].
    cbn. intros [= <-].
    destruct (digits_loop_effect fuel cfg digits nts p n1 p1 E)
      as (Hs & Ht & Hd & Hf & Hov & _).
    repeat split; try assumption; [|discriminate].
    intros ch cs Hl. destruct (Hov ch cs Hl) as [?|(Hcs & d & Hin & Hch)];
      [now left|right].
    split; [exact Hcs|]. now exists digits, d.
  - intros [= <-]. repeat split. intros ch cs Hl. now left.
Qed.

(** X14, witness: an event with one digit of ten equal samples on
    channel 0 of the default provider. *)
Lemma FindNoisyChannels_writes_only_to_the_overlay_witness :
  exists p',
    FindNoisyChannels 0 cfg_half 10 p_default (Some [digit_ten_fives]) = Some p'
    /\ fData p' = fData p_default.
Proof.
  destruct (FindNoisyChannels 0 cfg_half 10 p_default (Some [digit_ten_fives]))
    as [p'|] eqn:E; [|vm_compute in E; discriminate].
  exists p'. split; [reflexivity|].
  apply (FindNoisyChannels_writes_only_to_the_overlay
           0 cfg_half 10 p_default p' (Some [digit_ten_fives]) E).
Defined.

(** X15: after [PreProcessEvent] the overlay holds only [kNOISY] records
    of channels of this event's digits, nothing of an earlier event; and
    when the search is switched off or the handle is not valid the
    overlay is empty and the provider is the updated one. *)
Theorem PreProcessEvent_overlay_is_of_this_event (fuel : nat)
    (cfg : FilterConfig) (nts ts : Z) (h : option (list RawDigit))
    (p p' : Provider) :
  PreProcessEvent fuel cfg nts ts h p = Some p' ->
  fData p' = fData (snd (Update ts p))
  /\ (forall ch cs,
        Snapshot.rows (fNewNoisy p') !! ch = Some cs ->
        cs = mkChannelStatus ch kNOISY
        /\ fFindNoisyChannels cfg = true
        /\ exists digits d, h = Some digits /\ In d digits /\ rd_Channel d = ch)
  /\ (fFindNoisyChannels cfg = false \/ h = None ->
      p' = snd (Update ts p) /\ Snapshot.rows (fNewNoisy p') = ∅).
Proof.
  unfold PreProcessEvent, FindNoisyChannels.
  pose proof (Update_overlay_empty ts p) as Hempty.
  destruct (fFindNoisyChannels cfg) eqn:Hflag.
  - destruct h as [digits|].
    + destruct (digits_loop fuel cfg (nts, snd (Update ts p)) digits)
        as [[n1 p1]|] eqn:E; [|discriminate].
      cbn. intros [= <-].
      destruct (digits_loop_effect fuel cfg digits nts _ n1 p1 E)
        as (_ & Ht & _ & _ & Hov & _).
      split; [exact Ht|]. split.
      * intros ch cs Hl. destruct (Hov ch cs Hl) as [Hold|(Hcs & d & Hin & Hch)].
        -- rewrite Hempty, lookup_empty in Hold. discriminate.
        -- split; [exact Hcs|]. split; [reflexivity|]. now exists digits, d.
      * intros [H|H]; discriminate.
    + intros [= <-]. split; [reflexivity|]. split.
      * intros ch cs Hl. rewrite Hempty, lookup_empty in Hl. discriminate.
      * intros _. now split.
  - intros [= <-]. split; [reflexivity|]. split.
    + intros ch cs Hl. rewrite Hempty, lookup_empty in Hl. discriminate.
    + intros _. now split.
Qed.

(** X15, witness: the database provider with channel 0 noisy from an
    earlier event processes an event without a valid handle. *)
Lemma PreProcessEvent_overlay_is_of_this_event_witness :
  Snapshot.rows (fNewNoisy p_db_noisy) !! 0 = Some (mkChannelStatus 0 kNOISY)
  /\ exists p',
       PreProcessEvent 0 cfg_half 10 160 None p_db_noisy = Some p'
       /\ Snapshot.rows (fNewNoisy p') = ∅.
Proof.
  split; [reflexivity|].
  destruct (PreProcessEvent 0 cfg_half 10 160 None p_db_noisy) as [p'|] eqn:E;
    [|vm_compute in E; discriminate].
  exists p'. split; [reflexivity|].
  apply (PreProcessEvent_overlay_is_of_this_event
           0 cfg_half 10 160 None p_db_noisy p' E).
  now right.
Defined.

(** X16: during an event [maxTimeSamples] never grows: at the end it is
    at most its starting value, it is that value or the sample count of
    one of the digits, and it is at most the sample count of every digit
    whose channel passed the gate; the vector analysed for a digit has
    exactly as many entries as [maxTimeSamples] then has, whatever the
    digit holds. *)
Theorem maxTimeSamples_only_shrinks (fuel : nat) (cfg : FilterConfig)
    (digits : list RawDigit) (n n' : Z) (p p' : Provider) :
  digits_loop fuel cfg (n, p) digits = Some (n', p') ->
  n' <= n
  /\ (n' = n \/ exists d, In d digits /\ n' = rd_Samples d)
  /\ (forall d, In d digits ->
        IsBad p (rd_Channel d) || negb (IsPresent p (rd_Channel d)) = false ->
        n' <= rd_Samples d)
  /\ (forall m d,
        length (rawadc_of (Z.min m (rd_Samples d)) d)
        = Z.to_nat (Z.min m (rd_Samples d))).
Proof.
  intros Hrun.
  destruct (digits_loop_effect fuel cfg digits n p n' p' Hrun)
    as (_ & _ & _ & _ & _ & Hle & Hn & Hlow).
  repeat split; try assumption.
  intros m d. unfold rawadc_of. apply length_resize.
Qed.

(** X16, witness: a digit of ten samples followed by a digit of one in a
    detector of eight time samples. *)
Lemma maxTimeSamples_only_shrinks_witness :
  exists p',
    digits_loop 0 cfg_half (8, p_default) [digit_ten_fives; digit_one_five]
    = Some (1, p')
    /\ 1 <= 8.
Proof.
  destruct (digits_loop 0 cfg_half (8, p_default) [digit_ten_fives; digit_one_five])
    as [[n' p']|] eqn:E; [|vm_compute in E; discriminate].
  assert (Hn : n' = 1) by (vm_compute in E; congruence). subst n'.
  exists p'. split; [reflexivity|].
  apply (maxTimeSamples_only_shrinks 0 cfg_half
           [digit_ten_fives; digit_one_five] 8 1 p_default p' E).
Defined.

(** ** The histogram *)

Lemma incr_keys (k : Z) (m : StdMap.t) (x : Z) :
  In x (map fst (StdMap.incr k m)) -> x = k \/ In x (map fst m).
Proof.
  unfold StdMap.incr, StdMap.at_.
  destruct (StdMap.find m k); intros H; apply insert_keys in H as [H|H];
    try tauto.
  apply insert_keys in H. tauto.
Qed.

Lemma histogram_fold_keys (rawadc : list Z) :
  forall (m : StdMap.t) (x : Z),
    In x (map fst (fold_left (fun m adcVal => StdMap.incr adcVal m) rawadc m)) ->
    In x rawadc \/ In x (map fst m).
Proof.
  induction rawadc as [|a l IH]; intros m x; cbn [fold_left].
  - tauto.
  - intros H. apply IH in H as [H|H]; [left; now right|].
    apply incr_keys in H as [->|H]; [left; now left|now right].
Qed.

Lemma histogram_fold_wrap (rawadc : list Z) :
  forall (m : StdMap.t),
    (forall k, -32768 <= StdMap.get m k < 32768) ->
    forall k,
      StdMap.get (fold_left (fun m adcVal => StdMap.incr adcVal m) rawadc m) k
      = to_short (StdMap.get m k + occurrences rawadc k).
Proof.
  induction rawadc as [|a l IH]; intros m Hm k; cbn [fold_left].
  - unfold occurrences. cbn. rewrite Z.add_0_r. symmetry.
    now apply to_short_small.
  - rewrite IH.
    + rewrite get_incr, occurrences_cons.
      destruct (k =? a) eqn:E.
      * apply Z.eqb_eq in E. subst a. rewrite to_short_add. f_equal. lia.
      * f_equal.
    + intros k'. rewrite get_incr. destruct (k' =? a); [apply to_short_range|apply Hm].
Qed.

(** X17: the histogram has strictly ascending keys, every key is a
    sample value, and the count kept for a value is its number of
    occurrences reduced to 16 bits: a value that occurs 32768 times has
    the count -32768, one that occurs 65536 times reads as absent. *)
Theorem histogram_counts_wrap_at_16_bits (rawadc : list Z) :
  sorted_keys (histogram rawadc)
  /\ (forall k v, In (k, v) (histogram rawadc) -> In k rawadc)
  /\ (forall k, StdMap.get (histogram rawadc) k = to_short (occurrences rawadc k))
  /\ (forall k, occurrences rawadc k = 32768 ->
                StdMap.get (histogram rawadc) k = -32768)
  /\ (forall k, occurrences rawadc k = 65536 ->
                StdMap.get (histogram rawadc) k = 0).
Proof.
  assert (Hw : forall k, StdMap.get (histogram rawadc) k
                         = to_short (occurrences rawadc k)).
  { intros k. unfold histogram. rewrite histogram_fold_wrap; [reflexivity|].
    intros k'. cbn. lia. }
  split; [apply histogram_sorted|]. split; [|split; [exact Hw|split]].
  - intros k v Hin. unfold histogram in Hin.
    assert (Hk : In k (map fst (fold_left (fun m adcVal => StdMap.incr adcVal m)
                                  rawadc []))).
    { apply in_map_iff. now exists (k, v). }
    apply histogram_fold_keys in Hk as [Hk|[]]. exact Hk.
  - intros k Hk. rewrite Hw, Hk. reflexivity.
  - intros k Hk. rewrite Hw, Hk. reflexivity.
Qed.

(** X17, witness: the samples 3, 4, 3. *)
Lemma histogram_counts_wrap_at_16_bits_witness :
  In (3, 2) (histogram [3; 4; 3]) /\ In 3 [3; 4; 3].
Proof.
  assert (H : In (3, 2) (histogram [3; 4; 3])) by (vm_compute; tauto).
  split; [exact H|].
  destruct (histogram_counts_wrap_at_16_bits [3; 4; 3]) as (_ & Hk & _).
  exact (Hk 3 2 H).
Defined.

(** ** The scan for the mode, without samples *)

Lemma scan_bounds_counts (l : list (Z * Z)) :
  forall b c,
    c <= snd (fold_left max_step l (b, c))
    /\ forall k v, In (k, v) l -> v <= snd (fold_left max_step l (b, c)).
Proof.
  induction l as [|[k0 v0] l IH]; intros b c; cbn [fold_left].
  - split; [cbn; lia|]. intros k v [].
  - destruct (max_step_cases b c k0 v0) as [[Hlt ->]|[Hle ->]].
    + destruct (IH k0 v0) as [H1 H2]. split; [lia|].
      intros k v [[= -> ->]|Hin]; [lia|now apply (H2 k)].
    + destruct (IH b c) as [H1 H2]. split; [lia|].
      intros k v [[= -> ->]|Hin]; [lia|now apply (H2 k)].
Qed.

(** X18: when no bin holds a positive count (no sample at all, or only
    counts that wrapped to zero or below) the scan ends as it starts,
    with [binMax = -1] and [binMaxCnt = 0], a bin that no sample has to
    be in; as soon as some bin holds a positive count, [binMaxCnt] is
    positive. *)
Theorem find_max_without_positive_count (m : StdMap.t) :
  ((forall k v, In (k, v) m -> v <= 0) -> find_max m = (-1, 0))
  /\ (forall k v, In (k, v) m -> 0 < v -> 0 < snd (find_max m))
  /\ find_max (histogram []) = (-1, 0).
Proof.
  split; [|split; [|reflexivity]].
  - intros Hall. now apply scan_keeps_start.
  - intros k v Hin Hv.
    destruct (scan_bounds_counts m (-1) 0) as [_ H]. fold (find_max m) in H.
    specialize (H k v Hin). lia.
Qed.

(** X18, witness: a bin whose count wrapped to -1, and a bin of count 2. *)
Lemma find_max_without_positive_count_witness :
  find_max [(7, -1)] = (-1, 0) /\ 0 < snd (find_max [(7, -1); (9, 2)]).
Proof.
  split.
  - apply (proj1 (find_max_without_positive_count [(7, -1)])).
    intros k v [[= <- <-]|[]]. lia.
  - apply (proj1 (proj2 (find_max_without_positive_count [(7, -1); (9, 2)])) 9 2);
      [right; now left|lia].
Defined.

(** ** Bounds of the target *)

(** X19: for a truncation fraction configured between 0 and 1 and a
    digit of at most 2^31 samples the target lies between -1 and
    [dataSize - 1], whatever the rounding of the fraction to a float and
    of the three operations to doubles does: it is below the number of
    samples of an unclipped digit; for the fraction 0 it is
    [dataSize - 1]. *)
Theorem minNumBins_bounds (f : Q) (dataSize : Z) :
  (0 <= f)%Q -> (f <= 1)%Q -> 0 <= dataSize <= 2147483648 ->
  -1 <= minNumBins f dataSize <= dataSize - 1
  /\ minNumBins 0 dataSize = dataSize - 1.
Proof.
  intros Hf0 Hf1 Hn. split; [now apply minNumBins_range|].
  rewrite (minNumBins_no_rounding 0 0 dataSize 0 0); try lia.
  - rewrite <- (Qtrunc_Z (dataSize - 1)). apply Qtrunc_comp.
    unfold Z.sub. rewrite inject_Z_plus, inject_Z_opp.
    change (inject_Z 1) with 1%Q. ring.
  - reflexivity.
  - reflexivity.
Qed.

(** X19, witness: the fraction 0.1, which the float holds as
    13421773 / 2^27, and ten samples: the target is 7. *)
Lemma minNumBins_bounds_witness :
  -1 <= minNumBins (1 # 10) 10 <= 10 - 1 /\ minNumBins (1 # 10) 10 = 7.
Proof.
  split; [|vm_compute; reflexivity].
  apply (minNumBins_bounds (1 # 10) 10); [vm_compute; discriminate ..|lia].
Defined.

(** ** What an expansion loop leaves *)

Lemma sum_counts_app (m : StdMap.t) (l1 l2 : list Z) :
  sum_counts m (l1 ++ l2) = sum_counts m l1 + sum_counts m l2.
Proof.
  unfold sum_counts. induction l1 as [|k l1 IH]; cbn [app fold_right]; lia.
Qed.

Lemma mean_body_accounts (binMax : Z) (m : StdMap.t) (w : Window) :
  same_reads (binAdcMap w) m ->
  same_reads (binAdcMap (mean_body binMax w)) m
  /\ binOffset (mean_body binMax w) = to_short (binOffset w + 1)
  /\ binCnt (mean_body binMax w) - sum_counts m (bins (mean_body binMax w))
     = binCnt w - sum_counts m (bins w).
Proof.
  intros Hr. destruct (mean_body_spec binMax w) as (C & O & R & B).
  cbn zeta in C, B. split; [intros k; now rewrite R|]. split; [exact O|].
  rewrite C, B, !sum_counts_app, !Hr.
  destruct (StdMap.get m (to_short (binMax - binOffset w)) =? 0) eqn:E1;
    destruct (StdMap.get m (to_short (binMax + binOffset w)) =? 0) eqn:E2;
    cbn [sum_counts fold_right];
    try (apply Z.eqb_eq in E1); try (apply Z.eqb_eq in E2); lia.
Qed.

Lemma rms_body_accounts (binMax : Z) (tm : double) (m : StdMap.t) (w : Window) :
  same_reads (binAdcMap w) m ->
  same_reads (binAdcMap (rms_body binMax tm w)) m
  /\ binOffset (rms_body binMax tm w) = to_short (binOffset w + 1)
  /\ binCnt (rms_body binMax tm w) - sum_counts m (bins (rms_body binMax tm w))
     = binCnt w - sum_counts m (bins w).
Proof.
  intros Hr. destruct (rms_body_spec binMax tm w) as (C & O & R & B).
  cbn zeta in C, B. split; [intros k; now rewrite R|]. split; [exact O|].
  rewrite C, B, !sum_counts_app, !Hr.
  destruct (StdMap.get m (to_short (binMax - binOffset w)) >? 0);
    destruct (StdMap.get m (to_short (binMax + binOffset w)) >? 0);
    cbn [sum_counts fold_right]; lia.
Qed.

(** Any body that accounts for its counts in this way keeps doing so
    over the iterations. *)
Lemma iter_accounts (body : Window -> Window) (m : StdMap.t) :
  (forall w, same_reads (binAdcMap w) m ->
     same_reads (binAdcMap (body w)) m
     /\ binOffset (body w) = to_short (binOffset w + 1)
     /\ binCnt (body w) - sum_counts m (bins (body w))
        = binCnt w - sum_counts m (bins w)) ->
  forall (n : nat) (w : Window),
    same_reads (binAdcMap w) m ->
    -32768 <= binOffset w < 32768 ->
    same_reads (binAdcMap (Nat.iter n body w)) m
    /\ binOffset (Nat.iter n body w) = to_short (binOffset w + Z.of_nat n)
    /\ binCnt (Nat.iter n body w) - sum_counts m (bins (Nat.iter n body w))
       = binCnt w - sum_counts m (bins w).
Proof.
  intros Hbody n w Hr Ho. induction n as [|n (IHr & IHo & IHc)].
  - unfold Nat.iter; cbn [nat_rect]. split; [exact Hr|]. split; [|reflexivity].
    rewrite Z.add_0_r. symmetry. now apply to_short_small.
  - rewrite Nat.iter_succ. destruct (Hbody _ IHr) as (R & O & C).
    split; [exact R|]. split; [|lia].
    rewrite O, IHo, to_short_add. f_equal. lia.
Qed.

Lemma loop_exit (body : Window -> Window) (m : StdMap.t) (target : Z)
    (fuel n : nat) (w0 w : Window) :
  (forall w, same_reads (binAdcMap w) m ->
     same_reads (binAdcMap (body w)) m
     /\ binOffset (body w) = to_short (binOffset w + 1)
     /\ binCnt (body w) - sum_counts m (bins (body w))
        = binCnt w - sum_counts m (bins w)) ->
  binAdcMap w0 = m -> binOffset w0 = 1 -> bins w0 = [] ->
  while (below target) body fuel w0 = Some (n, w) ->
  target <= binCnt w
  /\ binOffset w = to_short (1 + Z.of_nat n)
  /\ same_reads (binAdcMap w) m
  /\ binCnt w = binCnt w0 + sum_counts m (bins w)
  /\ (n = O -> w = w0)
  /\ (forall n', n = S n' ->
        exists prev, w = body prev /\ binCnt prev < target).
Proof.
  intros Hbody Hm Ho Hb Hrun.
  apply while_result in Hrun as (Hw & Hc & Hi).
  destruct (iter_accounts body m Hbody n w0) as (R & O & C).
  { intros k. now rewrite Hm. }
  { lia. }
  rewrite <- Hw in R, O, C. rewrite Ho in O. rewrite Hb in C. cbn in C.
  split; [unfold below in Hc; now apply Z.ltb_ge|].
  split; [exact O|]. split; [exact R|]. split; [lia|].
  split; [intros ->; exact Hw|].
  intros n' ->. exists (Nat.iter n' body w0).
  split; [now rewrite Hw, Nat.iter_succ|].
  specialize (Hi n' (Nat.lt_succ_diag_r n')). unfold below in Hi.
  now apply Z.ltb_lt.
Qed.

(** X20: when an expansion loop ends (the first or the second), its
    count has reached the target, the count is the mode's count plus the
    counts of the bins it has accumulated, the offset is 1 plus the
    number of iterations reduced to 16 bits, and no count of the map has
    changed; with no iteration the window is the starting one, and
    otherwise the count before the last iteration was still below the
    target (the target is only tested between iterations). *)
Theorem expansion_loop_exit (m : StdMap.t) (binMax binMaxCnt target : Z)
    (fuel n : nat) (w : Window) :
  (mean_loop fuel m binMax binMaxCnt target = Some (n, w) ->
   target <= binCnt w
   /\ binCnt w = binMaxCnt + sum_counts m (bins w)
   /\ binOffset w = to_short (1 + Z.of_nat n)
   /\ same_reads (binAdcMap w) m
   /\ (n = O -> binCnt w = binMaxCnt /\ bins w = [])
   /\ (forall n', n = S n' ->
         exists prev, w = mean_body binMax prev /\ binCnt prev < target))
  /\ (forall truncMean,
        rms_loop fuel m binMax binMaxCnt target truncMean = Some (n, w) ->
        target <= binCnt w
        /\ binCnt w = binMaxCnt + sum_counts m (bins w)
        /\ binOffset w = to_short (1 + Z.of_nat n)
        /\ same_reads (binAdcMap w) m
        /\ (n = O -> binCnt w = binMaxCnt /\ bins w = [])
        /\ (forall n', n = S n' ->
              exists prev, w = rms_body binMax truncMean prev
                           /\ binCnt prev < target)).
Proof.
  split.
  - unfold mean_loop. intros Hrun.
    destruct (loop_exit (mean_body binMax) m target fuel n
                (mkWindow binMaxCnt (of_int (binMaxCnt * binMax)) 1 m []) w
                (mean_body_accounts binMax m) eq_refl eq_refl eq_refl Hrun)
      as (H1 & H2 & H3 & H4 & H5 & H6).
    cbn [binCnt] in H4.
    split; [exact H1|]. split; [exact H4|]. split; [exact H2|].
    split; [exact H3|]. split; [|exact H6].
    intros Hn. rewrite (H5 Hn). now split.
  - unfold rms_loop. cbn zeta. intros tm Hrun.
    match type of Hrun with
    | while _ _ _ ?w0 = _ =>
        destruct (loop_exit (rms_body binMax tm) m target fuel n w0 w
                    (rms_body_accounts binMax tm m) eq_refl eq_refl eq_refl Hrun)
          as (H1 & H2 & H3 & H4 & H5 & H6)
    end.
    cbn [binCnt] in H4.
    split; [exact H1|]. split; [exact H4|]. split; [exact H2|].
    split; [exact H3|]. split; [|exact H6].
    intros Hn. rewrite (H5 Hn). now split.
Qed.

(** X20, witness: the samples 10, 10, 10, 10, 11, 11, 9, 9, 9, 12 with
    target 8: the loop ends at the count 9 = 4 + 3 + 2. *)
Lemma expansion_loop_exit_witness :
  exists w,
    mean_loop 5 (histogram (rd_ADCs digit_ten)) 10 4 8 = Some (1%nat, w)
    /\ 8 <= binCnt w
    /\ binCnt w = 4 + sum_counts (histogram (rd_ADCs digit_ten)) (bins w).
Proof.
  destruct (mean_loop 5 (histogram (rd_ADCs digit_ten)) 10 4 8)
    as [[n w]|] eqn:E; [|vm_compute in E; discriminate].
  assert (Hn : n = 1%nat) by (vm_compute in E; congruence). subst n.
  exists w. split; [reflexivity|].
  destruct (proj1 (expansion_loop_exit (histogram (rd_ADCs digit_ten))
                     10 4 8 5 1 w) E) as (H1 & H2 & _).
  split; assumption.
Defined.

(** ** The argument of the square root *)

Lemma dmax_zero_nonneg (x : double) : nonneg_double (dmax (Fin 0) x).
Proof.
  unfold dmax, dlt. destruct x as [q| | |]; cbn [nonneg_double];
    try apply Qle_refl; try exact I.
  destruct (Qle_bool q 0) eqn:E; cbn [negb nonneg_double]; [apply Qle_refl|].
  destruct (Qlt_le_dec 0 q) as [H|H]; [now apply Qlt_le_weak|].
  apply Qle_bool_iff in H. congruence.
Qed.

(** X21: whatever the samples, the number handed to the square root is
    never negative and never NaN (it is 0 whenever the quotient is
    negative, minus infinity or NaN); and for a cut that is not positive
    every digit analysed is then found noisy. *)
Theorem rms_argument_is_never_negative (fuel : nat) (f : Q) (dataSize : Z)
    (rawadc : list Z) (a : Analysis) :
  analyze fuel f dataSize rawadc = Some a ->
  nonneg_double (a_rmsArg a)
  /\ forall cut, (cut <= 0)%Q -> sqrt_ge (a_rmsArg a) cut = true.
Proof.
  rewrite analyze_unfold. cbn zeta.
  destruct (mean_loop _ _ _ _ _) as [[n1 w1]|]; [|discriminate].
  destruct (rms_loop _ _ _ _ _ _) as [[n2 w2]|]; [|discriminate].
  intros [= <-]. cbn [a_rmsArg].
  pose proof (dmax_zero_nonneg (ddiv (sum w2) (of_int (binCnt w2)))) as Hnn.
  split; [exact Hnn|]. intros cut Hcut. unfold sqrt_ge.
  destruct (dmax (Fin 0) (ddiv (sum w2) (of_int (binCnt w2)))) as [q| | |];
    cbn [nonneg_double] in Hnn; try contradiction; [|reflexivity].
  apply Qle_bool_iff in Hnn. rewrite Hnn.
  apply Qle_bool_iff in Hcut. now rewrite Hcut.
Qed.

(** X21, witness: a digit without samples, whose quotient is NaN. *)
Lemma rms_argument_is_never_negative_witness :
  exists a,
    analyze 0 (1 # 2) 0 [] = Some a
    /\ a_truncMean a = NaN
    /\ nonneg_double (a_rmsArg a).
Proof.
  destruct (analyze 0 (1 # 2) 0 []) as [a|] eqn:E; [|vm_compute in E; discriminate].
  exists a. split; [reflexivity|]. split.
  - vm_compute in E. injection E as <-. reflexivity.
  - apply (rms_argument_is_never_negative 0 (1 # 2) 0 [] a E).
Defined.

(** ** Negative counts *)

(** X22: a bin whose count is negative (a 16-bit count that wrapped) is
    treated differently by the two loops: the first one accumulates it,
    which lowers its running count, the second one skips it. *)
Theorem loops_differ_on_a_negative_count (truncMean : double) (idx : Z)
    (w : Window) :
  StdMap.get (binAdcMap w) (to_short idx) < 0 ->
  binCnt (mean_side idx w) < binCnt w
  /\ bins (mean_side idx w) = bins w ++ [to_short idx]
  /\ binCnt (rms_side truncMean idx w) = binCnt w
  /\ bins (rms_side truncMean idx w) = bins w.
Proof.
  intros Hneg.
  destruct (mean_side_spec idx w) as (C1 & _ & _ & B1).
  destruct (rms_side_spec truncMean idx w) as (C2 & _ & _ & B2).
  cbn zeta in *.
  destruct (StdMap.get (binAdcMap w) (to_short idx) =? 0) eqn:E1;
    [apply Z.eqb_eq in E1; lia|].
  destruct (StdMap.get (binAdcMap w) (to_short idx) >? 0) eqn:E2; [lia|].
  rewrite app_nil_r in B2. repeat split; try assumption; lia.
Qed.

(** X22, witness: a window at mode bin 8 over a map whose bin 7 has the
    count -1. *)
Lemma loops_differ_on_a_negative_count_witness :
  binCnt (mean_side 7 (mkWindow 100 (of_int 800) 1 [(7, -1); (8, 100)] [])) < 100
  /\ binCnt (rms_side (Fin 8) 7 (mkWindow 100 (of_int 800) 1 [(7, -1); (8, 100)] []))
     = 100.
Proof.
  destruct (loops_differ_on_a_negative_count (Fin 8) 7
              (mkWindow 100 (of_int 800) 1 [(7, -1); (8, 100)] []))
    as (H1 & _ & H3 & _).
  - vm_compute. reflexivity.
  - split; assumption.
Defined.

(** ** A constant waveform *)

Lemma histogram_fold_repeat (v : Z) (n : nat) :
  forall c,
    0 <= c -> c + Z.of_nat n < 32768 ->
    fold_left (fun m adcVal => StdMap.incr adcVal m) (repeat v n) [(v, c)]
    = [(v, c + Z.of_nat n)].
Proof.
  induction n as [|n IH]; intros c Hc Hlt.
  - cbn. now rewrite Z.add_0_r.
  - cbn [repeat fold_left].
    assert (Hstep : StdMap.incr v [(v, c)] = [(v, c + 1)]).
    { unfold StdMap.incr, StdMap.at_. cbn [StdMap.find].
      rewrite Z.eqb_refl. cbn [StdMap.insert].
      rewrite Z.ltb_irrefl, Z.eqb_refl. now rewrite to_short_small by lia. }
    rewrite Hstep, IH by lia. do 2 f_equal. lia.
Qed.

Lemma histogram_repeat (v : Z) (n : nat) :
  (0 < n)%nat -> Z.of_nat n < 32768 ->
  histogram (repeat v n) = [(v, Z.of_nat n)].
Proof.
  intros Hn Hlt. destruct n as [|n]; [lia|].
  unfold histogram. cbn [repeat fold_left].
  assert (Hstep : StdMap.incr v [] = [(v, 1)]).
  { unfold StdMap.incr, StdMap.at_. cbn [StdMap.find StdMap.insert].
    rewrite Z.ltb_irrefl, Z.eqb_refl. reflexivity. }
  rewrite Hstep, histogram_fold_repeat by lia. do 2 f_equal. lia.
Qed.

Lemma minNumBins_below_size (f : Q) (dataSize : Z) :
  (0 <= f)%Q -> (f <= 1)%Q -> 0 <= dataSize <= 2147483648 ->
  minNumBins f dataSize <= dataSize - 1.
Proof. intros Hf0 Hf1 Hn. now apply minNumBins_range. Qed.

Lemma mode_only_rms_arg (b c : Z) :
  0 < c ->
  let truncMean := ddiv (of_int (c * b)) (of_int c) in
  let rmsVal := dsub (of_int b) truncMean in
  dmax (Fin 0) (ddiv (dmul rmsVal (dmul (of_int c) rmsVal)) (of_int c)) = Fin 0.
Proof.
  intros Hc. cbn zeta. unfold of_int, ddiv.
  rewrite Qeq_bool_inject_Z_pos by assumption.
  cbn [dsub dneg dadd dmul].
  unfold dmax, dlt.
  match goal with |- context [Qle_bool ?x 0] =>
    assert (Hx : Qle_bool x 0 = true)
  end.
  { apply Qle_bool_iff. rewrite mode_rms_arg.
    - apply Qle_refl.
    - assumption.
    - now apply mode_mean. }
  now rewrite Hx.
Qed.

Lemma sqrt_ge_zero_positive_cut (cut : Q) :
  (0 < cut)%Q -> sqrt_ge (Fin 0) cut = false.
Proof.
  intros Hcut. unfold sqrt_ge.
  assert (H0 : Qle_bool 0 0 = true) by reflexivity. rewrite H0.
  assert (H1 : Qle_bool cut 0 = false).
  { destruct (Qle_bool cut 0) eqn:E; [|reflexivity].
    apply Qle_bool_iff in E. exfalso. exact (Qlt_not_le _ _ Hcut E). }
  assert (H2 : Qle_bool (cut * cut) 0 = false).
  { destruct (Qle_bool (cut * cut) 0) eqn:E; [|reflexivity].
    apply Qle_bool_iff in E. exfalso.
    assert (Hpos : (0 < cut * cut)%Q).
    { pose proof (Qmult_lt_compat_r 0 cut cut Hcut Hcut) as H.
      now rewrite Qmult_0_l in H. }
    exact (Qlt_not_le _ _ Hpos E). }
  now rewrite H1, H2.
Qed.

(** X23: a digit that is not clipped and whose samples are all equal is
    never recorded noisy when the cut of its view is positive: for any
    truncation fraction between 0 and 1 the computation makes no
    iteration, needs no fuel and leaves the provider as it is. *)
Theorem constant_digit_is_never_noisy (fuel : nat) (cfg : FilterConfig)
    (n : Z) (p : Provider) (d : RawDigit) (v : Z) :
  0 < rd_Samples d < 32768 ->
  rd_Samples d <= n ->
  rd_ADCs d = repeat v (Z.to_nat (rd_Samples d)) ->
  (0 <= fTruncMeanFraction cfg)%Q -> (fTruncMeanFraction cfg <= 1)%Q ->
  (0 < rms_cut cfg (rd_Channel d))%Q ->
  exists n', process_digit fuel cfg (n, p) d = Some (n', p).
Proof.
  intros HN Hclip Hadc Hf0 Hf1 Hcut. unfold process_digit.
  destruct (IsBad p (rd_Channel d) || negb (IsPresent p (rd_Channel d)));
    [now exists n|].
  exists (Z.min n (rd_Samples d)).
  unfold analyze_digit. rewrite Z.min_r by lia.
  assert (Hraw : rawadc_of (rd_Samples d) d = repeat v (Z.to_nat (rd_Samples d))).
  { unfold rawadc_of. rewrite Hadc. apply resize_all_alt.
    now rewrite repeat_length. }
  rewrite Hraw, analyze_unfold. cbn zeta.
  rewrite histogram_repeat by lia. rewrite Z2Nat.id by lia.
  assert (Hfm : find_max [(v, rd_Samples d)] = (v, rd_Samples d)).
  { unfold find_max. cbn [fold_left]. unfold max_step. cbn [fst snd].
    destruct (rd_Samples d >? 0) eqn:E; [reflexivity|lia]. }
  rewrite Hfm. cbn [fst snd].
  pose proof (minNumBins_below_size (fTruncMeanFraction cfg) (rd_Samples d)
                Hf0 Hf1 ltac:(lia)) as Ht.
  unfold mean_loop. rewrite while_exit
    by (unfold below; cbn [binCnt]; apply Z.ltb_ge; lia).
  cbn [sum binCnt binAdcMap]. unfold rms_loop. cbn zeta.
  rewrite while_exit by (unfold below; cbn [binCnt]; apply Z.ltb_ge; lia).
  cbn [mbind option_bind a_rmsArg sum binCnt].
  rewrite mode_only_rms_arg by lia.
  now rewrite sqrt_ge_zero_positive_cut.
Qed.

(** X23, witness: ten samples of value 5 on channel 0 of the default
    provider, cut 5. *)
Lemma constant_digit_is_never_noisy_witness :
  exists n', process_digit 0 cfg_half (10, p_default) digit_ten_fives
             = Some (n', p_default).
Proof.
  apply (constant_digit_is_never_noisy 0 cfg_half 10 p_default digit_ten_fives 5).
  - cbn. lia.
  - cbn. lia.
  - reflexivity.
  - vm_compute. discriminate.
  - vm_compute. discriminate.
  - reflexivity.
Defined.

(** ** The sum of the first loop *)

Lemma weighted_sum_app (m : StdMap.t) (l1 l2 : list Z) :
  weighted_sum m (l1 ++ l2) = weighted_sum m l1 + weighted_sum m l2.
Proof.
  unfold weighted_sum. induction l1 as [|k l1 IH]; cbn [app fold_right]; lia.
Qed.

Lemma mean_side_sum (idx : Z) (w : Window) :
  sum (mean_side idx w) =
    if StdMap.get (binAdcMap w) (to_short idx) =? 0 then sum w
    else dadd (sum w) (of_int (StdMap.get (binAdcMap w) (to_short idx) * idx)).
Proof.
  unfold mean_side.
  destruct (StdMap.at_ (to_short idx) (binAdcMap w)) as [c0 m0] eqn:E0.
  apply at_inv in E0 as [-> R0].
  destruct (StdMap.get (binAdcMap w) (to_short idx) =? 0); cbn [negb];
    [reflexivity|].
  destruct (StdMap.at_ (to_short idx) m0) as [c1 m1] eqn:E1.
  apply at_inv in E1 as [-> R1].
  destruct (StdMap.at_ (to_short idx) m1) as [c2 m2] eqn:E2.
  apply at_inv in E2 as [-> R2].
  cbn [sum]. now rewrite R1, R0.
Qed.

Lemma mean_side_sum_accounts (m : StdMap.t) (start idx : Z) (w : Window) :
  same_reads (binAdcMap w) m ->
  -32768 <= idx < 32768 ->
  sum_accounts m start w ->
  sum_accounts m start (mean_side idx w).
Proof.
  intros Hr Hidx (q & Hq & Heq). unfold sum_accounts.
  destruct (mean_side_spec idx w) as (_ & _ & _ & B). cbn zeta in B.
  rewrite mean_side_sum, B, weighted_sum_app, Hr, to_short_small by assumption.
  destruct (StdMap.get m idx =? 0) eqn:E.
  - exists q. split; [exact Hq|]. cbn [weighted_sum fold_right].
    now rewrite !Z.add_0_r.
  - rewrite Hq. cbn [dadd of_int]. eexists. split; [reflexivity|].
    rewrite Heq, <- inject_Z_plus. cbn [weighted_sum fold_right].
    apply inject_Z_injective. lia.
Qed.

Lemma mean_body_sum_accounts (m : StdMap.t) (binMax start : Z) (w : Window) :
  same_reads (binAdcMap w) m ->
  -32768 <= binMax - binOffset w -> binMax - binOffset w < 32768 ->
  -32768 <= binMax + binOffset w -> binMax + binOffset w < 32768 ->
  sum_accounts m start w ->
  sum_accounts m start (mean_body binMax w).
Proof.
  intros Hr H1 H2 H3 H4 Hacc. unfold mean_body, sum_accounts. cbn [sum bins].
  apply mean_side_sum_accounts; [|lia|].
  - destruct (mean_side_spec (binMax - binOffset w) w) as (_ & _ & R & _).
    cbn [binOffset]. intros k. now rewrite R.
  - assert (Ho : binOffset (mean_side (binMax - binOffset w) w) = binOffset w)
      by apply mean_side_spec.
    apply mean_side_sum_accounts; [assumption|lia|assumption].
Qed.

Lemma iter_mean_sum_accounts (m : StdMap.t) (binMax start : Z) (w0 : Window)
    (n : nat) :
  binAdcMap w0 = m -> binOffset w0 = 1 ->
  -32768 <= binMax - Z.of_nat n -> binMax + Z.of_nat n < 32768 ->
  sum_accounts m start w0 ->
  forall i, (i <= n)%nat ->
    sum_accounts m start (Nat.iter i (mean_body binMax) w0).
Proof.
  intros Hm Ho Hlo Hhi Hacc i. induction i as [|i IH]; intros Hi.
  - exact Hacc.
  - rewrite Nat.iter_succ.
    destruct (iter_accounts (mean_body binMax) m (mean_body_accounts binMax m)
                i w0) as (R & O & _).
    { intros k. now rewrite Hm. }
    { lia. }
    rewrite Ho in O. rewrite to_short_small in O by lia.
    apply mean_body_sum_accounts; try rewrite O; try lia; [exact R|].
    apply IH. lia.
Qed.

Lemma mean_body_bins (binMax : Z) (w : Window) :
  exists l,
    bins (mean_body binMax w) = bins w ++ l
    /\ (length l <= 2)%nat
    /\ forall k, In k l -> -32768 <= k < 32768.
Proof.
  destruct (mean_body_spec binMax w) as (_ & _ & _ & B). cbn zeta in B.
  rewrite B.
  destruct (StdMap.get (binAdcMap w) (to_short (binMax - binOffset w)) =? 0);
    destruct (StdMap.get (binAdcMap w) (to_short (binMax + binOffset w)) =? 0);
    eexists; (split; [reflexivity|]); (split; [cbn; lia|]);
    cbn; intros k Hk; repeat (destruct Hk as [<-|Hk]; [apply to_short_range|]);
    destruct Hk.
Qed.

Lemma iter_mean_bins (binMax : Z) (w0 : Window) (n : nat) :
  exists l,
    bins (Nat.iter n (mean_body binMax) w0) = bins w0 ++ l
    /\ (length l <= 2 * n)%nat
    /\ forall k, In k l -> -32768 <= k < 32768.
Proof.
  induction n as [|n (l & Hb & Hlen & Hin)].
  - exists []. rewrite app_nil_r. split; [reflexivity|].
    split; [cbn; lia|]. intros k' [].
  - rewrite Nat.iter_succ.
    destruct (mean_body_bins binMax (Nat.iter n (mean_body binMax) w0))
      as (l' & Hb' & Hlen' & Hin').
    exists (l ++ l'). rewrite Hb', Hb, <- app_assoc. split; [reflexivity|].
    split; [rewrite length_app; lia|].
    intros k' Hk. apply in_app_or in Hk as [Hk|Hk]; [now apply Hin|now apply Hin'].
Qed.

Lemma weighted_sum_bound (m : StdMap.t) (l : list Z) :
  (forall k, -32768 <= StdMap.get m k < 32768) ->
  (forall k, In k l -> -32768 <= k < 32768) ->
  Z.abs (weighted_sum m l) <= 1073741824 * Z.of_nat (length l).
Proof.
  intros Hm. induction l as [|k l IH]; intros Hl; [cbn; lia|].
  cbn [weighted_sum fold_right length]. fold (weighted_sum m l).
  specialize (Hm k). pose proof (Hl k (or_introl eq_refl)) as Hk.
  assert (IH' : Z.abs (weighted_sum m l) <= 1073741824 * Z.of_nat (length l))
    by (apply IH; intros k' Hk'; apply Hl; now right).
  assert (Hp : Z.abs (StdMap.get m k * k) <= 1073741824)
    by (rewrite Z.abs_mul; nia).
  lia.
Qed.

(** X24: when the first loop ends after n iterations that stayed inside
    the range of [short] (no bin index below -32768 or above 32767 was
    asked for), its running sum is the integer that the mode bin and the
    bins accumulated add up to, each sample value times its count, and
    its count is the sum of their counts; with 16-bit counts that integer
    is below 2^53 in magnitude, so that a double holds it exactly. *)
Theorem first_loop_sum_is_the_weighted_sum (m : StdMap.t)
    (binMax binMaxCnt target : Z) (fuel n : nat) (w : Window) :
  mean_loop fuel m binMax binMaxCnt target = Some (n, w) ->
  -32768 <= binMax - Z.of_nat n -> binMax + Z.of_nat n < 32768 ->
  (exists q,
     sum w = Fin q
     /\ (q == inject_Z (binMaxCnt * binMax + weighted_sum m (bins w)))%Q)
  /\ binCnt w = binMaxCnt + sum_counts m (bins w)
  /\ ((forall k, -32768 <= StdMap.get m k < 32768) ->
      -32768 <= binMaxCnt < 32768 ->
      Z.abs (binMaxCnt * binMax + weighted_sum m (bins w)) < 2 ^ 53).
Proof.
  intros Hrun Hlo Hhi. unfold mean_loop in Hrun.
  set (w0 := mkWindow binMaxCnt (of_int (binMaxCnt * binMax)) 1 m []) in Hrun.
  destruct (loop_exit (mean_body binMax) m target fuel n w0 w
              (mean_body_accounts binMax m) eq_refl eq_refl eq_refl Hrun)
    as (_ & _ & _ & Hcnt & _).
  apply while_result in Hrun as (Hw & _ & _).
  split; [|split; [exact Hcnt|]].
  - destruct (iter_mean_sum_accounts m binMax (binMaxCnt * binMax) w0 n
                eq_refl eq_refl Hlo Hhi) with (i := n) as (q & Hq & Heq).
    + exists (inject_Z (binMaxCnt * binMax)). split; [reflexivity|].
      cbn. now rewrite Z.add_0_r.
    + lia.
    + rewrite <- Hw in Hq, Heq. now exists q.
  - intros Hm Hc.
    destruct (iter_mean_bins binMax w0 n) as (l & Hb & Hlen & Hin).
    rewrite <- Hw in Hb. cbn [bins w0 app] in Hb. rewrite Hb.
    pose proof (weighted_sum_bound m l Hm Hin) as Hws.
    assert (Hp : Z.abs (binMaxCnt * binMax) <= 1073741824)
      by (rewrite Z.abs_mul; nia).
    change (2 ^ 53) with 9007199254740992. lia.
Qed.

(** X24, witness: the samples 10, 10, 10, 10, 11, 11, 9, 9, 9, 12 with
    target 8: the sum is 10 x 4 + 9 x 3 + 11 x 2 = 89 over 9 samples. *)
Lemma first_loop_sum_is_the_weighted_sum_witness :
  exists w q,
    mean_loop 5 (histogram (rd_ADCs digit_ten)) 10 4 8 = Some (1%nat, w)
    /\ sum w = Fin q
    /\ (q == inject_Z (4 * 10 + weighted_sum (histogram (rd_ADCs digit_ten)) (bins w)))%Q
    /\ bins w = [9; 11]
    /\ binCnt w = 9.
Proof.
  destruct (mean_loop 5 (histogram (rd_ADCs digit_ten)) 10 4 8)
    as [[n w]|] eqn:E; [|vm_compute in E; discriminate].
  assert (Hn : n = 1%nat) by (vm_compute in E; congruence). subst n.
  destruct (first_loop_sum_is_the_weighted_sum
              (histogram (rd_ADCs digit_ten)) 10 4 8 5 1 w E)
    as ((q & Hq & Heq) & _); [cbn; lia|cbn; lia|].
  exists w, q. split; [reflexivity|]. split; [exact Hq|]. split; [exact Heq|].
  vm_compute in E. injection E as <-. split; reflexivity.
Defined.

(** ** Events that are processed to the end *)





